(** * SchoolTool [schooltool.db]: persistent-keyed containers

    A shallow embedding of [src/schooltool/db.py] (Python 2): the classes
    [PersistentKeysDict], [PersistentKeysSet] and [PersistentPairKeysDict],
    together with the part of the Python runtime and of the ZODB
    connection they lean on.

    - Objects are referred to by their identity [id(obj)], a number.  The
      heap [objs] records, for every object that has a [_p_oid] attribute,
      the current value of that attribute.
    - Exceptions do not roll anything back: a computation returns its
      outcome together with the state reached when it stopped.
    - Dictionaries are finite maps; the order in which a dictionary is
      iterated is a parameter of the development ([DictOrder]). *)

From stdpp Require Import gmap strings list fin_maps sorting.

Set Default Proof Using "Type".

(** ** Exceptions and the state monad *)

Inductive exn : Type :=
  | TypeError          (* spec: InvalidKey *)
  | KeyError           (* spec: KeyNotFound *)
  | AssertionError     (* spec: IllegalState *)
  | AttributeError.

Inductive res (A : Type) : Type :=
  | Ok (a : A)
  | Raise (e : exn).
Arguments Ok {A} a.
Arguments Raise {A} e.

#[global] Instance exn_eq_dec : EqDecision exn.
Proof. solve_decision. Defined.

Definition M (S A : Type) : Type := S → res A * S.

#[global] Instance M_ret {S} : MRet (M S) := λ A a s, (Ok a, s).

#[global] Instance M_bind {S} : MBind (M S) := λ A B f m s,
  match m s with
  | (Ok a, s') => f a s'
  | (Raise e, s') => (Raise e, s')
  end.

Definition raise {S A} (e : exn) : M S A := λ s, (Raise e, s).
Definition gets {S A} (f : S → A) : M S A := λ s, (Ok (f s), s).
Definition modify {S} (f : S → S) : M S unit := λ s, (Ok (), f s).

(** [for x in l: body(x)] *)
Fixpoint for_ {S A} (l : list A) (body : A → M S unit) : M S unit :=
  match l with
  | [] => mret ()
  | x :: l' => body x ;; for_ l' body
  end.

(** [[f(x) for x in l]] *)
Fixpoint comprehension {S A B} (f : A → M S B) (l : list A) : M S (list B) :=
  match l with
  | [] => mret []
  | x :: l' => y ← f x; ys ← comprehension f l'; mret (y :: ys)
  end.

(** ** Dictionary iteration order

    A Python 2 [dict] (and the [PersistentDict] wrapping one) is iterated
    in the order of its hash table.  The language promises only that every
    entry comes once and that [keys()], [values()] and [items()] agree. *)

Class DictOrder : Type := {
  dict_items : ∀ {K} `{Countable K} {V}, gmap K V → list (K * V);
  dict_items_perm : ∀ {K} `{Countable K} {V} (m : gmap K V),
    dict_items m ≡ₚ map_to_list m;
}.

(** [for k in d] / [d.iterkeys()] *)
Definition iterkeys {order : DictOrder} {K} `{Countable K} {V} (m : gmap K V) : list K :=
  (dict_items m).*1.
(** [d.itervalues()] *)
Definition itervalues {order : DictOrder} {K} `{Countable K} {V} (m : gmap K V) : list V :=
  (dict_items m).*2.

(** Two orders: the one of the map representation, and ascending order of
    the keys' codes.  The second is what CPython 2 does for a few small
    integer keys: key [h] sits in slot [h mod 8] of the initial table. *)
Definition trie_order : DictOrder :=
  {| dict_items := λ K _ _ V m, map_to_list m;
     dict_items_perm := λ K _ _ V m, reflexivity _ |}.

Definition code_le {K} `{Countable K} {V} (x y : K * V) : Prop :=
  (encode x.1 ≤ encode y.1)%positive.

#[global] Instance code_le_dec {K} `{Countable K} {V} (x y : K * V) :
  Decision (code_le x y).
Proof. unfold code_le. apply _. Defined.

Definition slot_order : DictOrder :=
  {| dict_items := λ K _ _ V m, merge_sort code_le (map_to_list m);
     dict_items_perm := λ K _ _ V m, merge_sort_Permutation code_le _ |}.

(** ** The world of one container

    [objs]: the objects that have a [_p_oid] attribute, by identity, with
    the attribute's value ([None] until the object is added to a
    connection).  [jar]: the one ZODB connection.  The remaining fields
    are the attributes of the [PersistentKeysDict] instance. *)

(** Modelled from the spec: the Backing Store (the ZODB connection, whose
    code is outside the repository).  [attach] hands out identifiers that
    were never used and is idempotent on attached objects; [resolve] is the
    reverse lookup. *)
Record Jar : Type := {
  next_oid : N;
  registry : gmap N N;              (* oid ↦ id of the object *)
}.

Record State (V : Type) : Type := {
  objs : gmap N (option N);         (* id(obj) ↦ obj._p_oid *)
  jar : Jar;
  _p_jar : option unit;             (* self._p_jar: None, or the connection *)
  _data : gmap (option N) V;        (* self._data, keyed by key._p_oid *)
  _v_data : option (gmap N (N * V)); (* self._v_data, absent until first use *)
}.
Arguments objs {V} s.
Arguments jar {V} s.
Arguments _p_jar {V} s.
Arguments _data {V} s.
Arguments _v_data {V} s.

Section state_updates.
Context {V : Type}.
Implicit Types s : State V.

Definition with_objs s o : State V :=
  {| objs := o; jar := jar s; _p_jar := _p_jar s; _data := _data s; _v_data := _v_data s |}.
Definition with_jar s j : State V :=
  {| objs := objs s; jar := j; _p_jar := _p_jar s; _data := _data s; _v_data := _v_data s |}.
Definition with_p_jar s j : State V :=
  {| objs := objs s; jar := jar s; _p_jar := j; _data := _data s; _v_data := _v_data s |}.
Definition with_data s d : State V :=
  {| objs := objs s; jar := jar s; _p_jar := _p_jar s; _data := d; _v_data := _v_data s |}.
Definition with_v_data s t : State V :=
  {| objs := objs s; jar := jar s; _p_jar := _p_jar s; _data := _data s; _v_data := t |}.

(** The staging partition as a caller sees it: what [self._tmpdata]
    evaluates to. *)
Definition staging s : gmap N (N * V) := default ∅ (_v_data s).

(** [hasattr(key, '_p_oid')] *)
Definition hasattr_p_oid (key : N) : M (State V) bool :=
  gets (λ s, bool_decide (is_Some (objs s !! key))).

(** [key._p_oid] *)
Definition getattr_p_oid (key : N) : M (State V) (option N) := λ s,
  match objs s !! key with
  | Some oid => (Ok oid, s)
  | None => (Raise AttributeError, s)
  end.

(** Modelled from the spec: [jar.add(obj)], the Backing Store's [attach]. *)
Definition jar_add (key : N) : M (State V) unit := λ s,
  match objs s !! key with
  | None => (Raise TypeError, s)
  | Some (Some _) => (Ok (), s)
  | Some None =>
      let o := next_oid (jar s) in
      (Ok (), with_jar (with_objs s (<[key := Some o]> (objs s)))
                {| next_oid := N.succ o; registry := <[o := key]> (registry (jar s)) |})
  end.

(** Modelled from the spec: [jar.get(oid)], the Backing Store's [resolve];
    [j] is the value of [self._p_jar] on which the method is called. *)
Definition jar_get (j : option unit) (oid : option N) : M (State V) N := λ s,
  match j with
  | None => (Raise AttributeError, s)
  | Some _ =>
      match oid ≫= (λ o, registry (jar s) !! o) with
      | Some k => (Ok k, s)
      | None => (Raise KeyError, s)
      end
  end.

(** The container itself is added to the connection. *)
Definition attach_container : M (State V) unit :=
  modify (λ s, with_p_jar s (Some ())).
End state_updates.

(** ** class PersistentKeysDict *)

Module PersistentKeysDict.
Section methods.
Context {order : DictOrder} {V : Type}.
Abbreviation St := (State V).

(** [_getvdata], the getter of the property [_tmpdata] *)
Definition _getvdata : M St (gmap N (N * V)) := λ s,
  match _v_data s with
  | None => (Ok ∅, with_v_data s (Some ∅))
  | Some t => (Ok t, s)
  end.
Definition _tmpdata : M St (gmap N (N * V)) := _getvdata.

(** In-place update of the dictionary [self._v_data] refers to. *)
Definition store_tmpdata (t : gmap N (N * V)) : M St unit :=
  modify (λ s, with_v_data s (Some t)).
Definition store_data (d : gmap (option N) V) : M St unit :=
  modify (λ s, with_data s d).

Definition __init__ (o : gmap N (option N)) (j : Jar) : St :=
  {| objs := o; jar := j; _p_jar := None; _data := ∅; _v_data := None |}.

Definition checkKey (key : N) : M St unit :=
  b ← hasattr_p_oid key;
  if b : bool then mret () else raise TypeError.

Definition __setitem__ (key : N) (value : V) : M St unit :=
  checkKey key ;;
  oid ← getattr_p_oid key;
  j ← gets _p_jar;
  if bool_decide (oid = None) || bool_decide (j = None) then
    t ← _tmpdata;
    store_tmpdata (<[key := (key, value)]> t)
  else
    d ← gets _data;
    store_data (<[oid := value]> d).

(** The handler of [except KeyError: raise KeyError, key] changes the
    argument of the exception only; the embedding has no arguments. *)
Definition __getitem__ (key : N) : M St V :=
  checkKey key ;;
  t ← _tmpdata;
  if bool_decide (is_Some (t !! key)) then
    t' ← _tmpdata;
    match t' !! key with
    | Some kv => mret kv.2
    | None => raise KeyError
    end
  else
    oid ← getattr_p_oid key;
    d ← gets _data;
    match d !! oid with
    | Some v => mret v
    | None => raise KeyError
    end.

Definition __delitem__ (key : N) : M St unit :=
  checkKey key ;;
  t ← _tmpdata;
  if bool_decide (is_Some (t !! key)) then
    t' ← _tmpdata;
    match t' !! key with
    | Some _ => store_tmpdata (delete key t')
    | None => raise KeyError
    end
  else
    oid ← getattr_p_oid key;
    d ← gets _data;
    match d !! oid with
    | Some _ => store_data (delete oid d)
    | None => raise KeyError
    end.

Definition keys : M St (list N) :=
  j ← gets _p_jar;
  d ← gets _data;
  persisted ← comprehension (jar_get j) (iterkeys d);
  t ← _tmpdata;
  mret (persisted ++ (itervalues t).*1).

Definition __contains__ (key : N) : M St bool :=
  checkKey key ;;
  t ← _tmpdata;
  if bool_decide (is_Some (t !! key)) then mret true
  else
    oid ← getattr_p_oid key;
    d ← gets _data;
    mret (bool_decide (is_Some (d !! oid))).

(** The generator is embedded by the list of what it yields. *)
Definition __iter__ : M St (list N) :=
  j ← gets _p_jar;
  d ← gets _data;
  persisted ← comprehension (jar_get j) (iterkeys d);
  t ← _tmpdata;
  mret (persisted ++ (itervalues t).*1).

Definition __len__ : M St nat :=
  d ← gets _data;
  t ← _tmpdata;
  mret (size d + size t).

Definition flush_entry (kv : N * V) : M St unit :=
  oid ← getattr_p_oid kv.1;
  (if bool_decide (oid = None) then jar_add kv.1 else mret ()) ;;
  oid' ← getattr_p_oid kv.1;
  d ← gets _data;
  store_data (<[oid' := kv.2]> d).

(** Returns what [Persistent.__getstate__] pickles: the attributes that
    are not volatile, here [_data]. *)
Definition __getstate__ : M St (gmap (option N) V) :=
  j ← gets _p_jar;
  (if bool_decide (j = None) then raise AssertionError else mret ()) ;;
  t ← _tmpdata;
  for_ (itervalues t) flush_entry ;;
  store_tmpdata ∅ ;;
  gets _data.
End methods.
End PersistentKeysDict.

(** ** class PersistentKeysSet

    [self._data] is a [PersistentKeysDict]; the state of the set is the
    state of that dictionary, whose values are all [None]. *)

Module PersistentKeysSet.
Section methods.
Context {order : DictOrder}.
Abbreviation St := (State unit).

Definition __init__ (o : gmap N (option N)) (j : Jar) : St :=
  PersistentKeysDict.__init__ o j.

Definition add (item : N) : M St unit :=
  b ← PersistentKeysDict.__contains__ item;
  if negb b then PersistentKeysDict.__setitem__ item () else mret ().

Definition __iter__ : M St (list N) := PersistentKeysDict.__iter__.

Definition remove (item : N) : M St unit := PersistentKeysDict.__delitem__ item.

Definition __len__ : M St nat := PersistentKeysDict.__len__.
End methods.
End PersistentKeysSet.

(** ** class PersistentPairKeysDict

    The values kept in [self._data] are plain dictionaries, which the
    methods fetch, mutate in place and store again.  They are objects: the
    underlying dictionary holds references into the heap [dicts], so that
    a mutation is seen through every reference to the same dictionary.

    The secondary half of a key is here a value of [H], a key of the inner
    hash table: the pairs (persistent, hashable) of the docstring.  The
    methods as they take any object for it follow in
    [PersistentPairKeysDictAny]. *)

Record PairState (H W : Type) `{Countable H} : Type := {
  under : State N;                  (* self._data and its world *)
  dicts : gmap N (gmap H W);        (* the inner dictionaries, by identity *)
}.
Arguments under {H W _ _} p.
Arguments dicts {H W _ _} p.

Module PersistentPairKeysDict.
Section methods.
Context {order : DictOrder} {H W : Type} `{Countable H}.
Abbreviation St := (PairState H W).

Definition with_under (p : St) (u : State N) : St :=
  {| under := u; dicts := dicts p |}.
Definition with_dicts (p : St) (ds : gmap N (gmap H W)) : St :=
  {| under := under p; dicts := ds |}.

(** A method call on [self._data] *)
Definition on_data {A} (m : M (State N) A) : M St A := λ p,
  let '(r, u) := m (under p) in (r, with_under p u).

(** The dictionary a reference stands for *)
Definition deref (p : St) (d : N) : gmap H W := default ∅ (dicts p !! d).

(** [{}]: a new, empty dictionary *)
Definition new_dict : M St N := λ p,
  let d := fresh (dom (dicts p)) in
  (Ok d, with_dicts p (<[d := ∅]> (dicts p))).

(** [d[hashable] = value] *)
Definition dict_setitem (d : N) (hashable : H) (value : W) : M St unit :=
  modify (λ p, with_dicts p (<[d := <[hashable := value]> (deref p d)]> (dicts p))).

(** [d[hashable]] *)
Definition dict_getitem (d : N) (hashable : H) : M St W := λ p,
  match deref p d !! hashable with
  | Some w => (Ok w, p)
  | None => (Raise KeyError, p)
  end.

(** [del d[hashable]] *)
Definition dict_delitem (d : N) (hashable : H) : M St unit := λ p,
  match deref p d !! hashable with
  | Some _ => (Ok (), with_dicts p (<[d := delete hashable (deref p d)]> (dicts p)))
  | None => (Raise KeyError, p)
  end.

(** [bool(d)]: a dictionary is true when it is not empty *)
Definition dict_truth (d : N) : M St bool :=
  gets (λ p, bool_decide (deref p d ≠ ∅)).

Definition __init__ (o : gmap N (option N)) (j : Jar) : St :=
  {| under := PersistentKeysDict.__init__ o j; dicts := ∅ |}.

Definition __setitem__ (key : N * H) (value : W) : M St unit :=
  let '(persistent, hashable) := key in
  b ← on_data (PersistentKeysDict.__contains__ persistent);
  (if negb b then
     d0 ← new_dict;
     on_data (PersistentKeysDict.__setitem__ persistent d0)
   else mret ()) ;;
  d ← on_data (PersistentKeysDict.__getitem__ persistent);
  dict_setitem d hashable value ;;
  on_data (PersistentKeysDict.__setitem__ persistent d).

Definition __getitem__ (key : N * H) : M St W :=
  let '(persistent, hashable) := key in
  d ← on_data (PersistentKeysDict.__getitem__ persistent);
  dict_getitem d hashable.

Definition __delitem__ (key : N * H) : M St unit :=
  let '(persistent, hashable) := key in
  d ← on_data (PersistentKeysDict.__getitem__ persistent);
  dict_delitem d hashable ;;
  t ← dict_truth d;
  if t : bool then on_data (PersistentKeysDict.__setitem__ persistent d)
  else on_data (PersistentKeysDict.__delitem__ persistent).

(** The inner dictionary of each primary the underlying dictionary
    iterates over: [data[persistent] for persistent in data] *)
Definition rows : M St (list (N * gmap H W)) :=
  ps ← on_data PersistentKeysDict.__iter__;
  comprehension (λ persistent,
    d ← on_data (PersistentKeysDict.__getitem__ persistent);
    m ← gets (λ p, deref p d);
    mret (persistent, m)) ps.

Definition keys : M St (list (N * H)) :=
  rs ← rows;
  mret (concat ((λ r : N * gmap H W, (r.1 ,.) <$> iterkeys r.2) <$> rs)).

Definition __contains__ (key : N * H) : M St bool :=
  let '(persistent, hashable) := key in
  b ← on_data (PersistentKeysDict.__contains__ persistent);
  if b : bool then
    d ← on_data (PersistentKeysDict.__getitem__ persistent);
    gets (λ p, bool_decide (is_Some (deref p d !! hashable)))
  else mret false.

Definition __len__ : M St nat :=
  rs ← rows;
  mret (foldl (λ count (r : N * gmap H W), count + size r.2) 0 rs).

Definition __iter__ : M St (list (N * H)) :=
  rs ← rows;
  mret (concat ((λ r : N * gmap H W, (r.1 ,.) <$> iterkeys r.2) <$> rs)).

Definition iteritems : M St (list ((N * H) * W)) :=
  rs ← rows;
  mret (concat ((λ r : N * gmap H W,
                   (λ hv : H * W, ((r.1, hv.1), hv.2)) <$> dict_items r.2) <$> rs)).
End methods.
End PersistentPairKeysDict.

(** ** class PersistentPairKeysDict, called with any object

    Python does not hold a caller to the docstring: the secondary half of
    a key can be any object.  The built-in dictionary hashes a key before
    it looks at its table, and [hash] raises [TypeError] for an object that
    cannot be hashed (a list, a dictionary).  The methods that take a key
    are given again with the secondary as the caller passes it; the
    primitives of the inner dictionary hash it where the source reaches
    them. *)

Inductive secondary (H : Type) : Type :=
  | Hashable (h : H)
  | Unhashable.
Arguments Hashable {H} h.
Arguments Unhashable {H}.

Module PersistentPairKeysDictAny.
Section methods.
Context {H W : Type} `{Countable H}.

(** [hash(hashable)] *)
Definition hash (hashable : secondary H) : M (PairState H W) H :=
  match hashable with
  | Hashable h => mret h
  | Unhashable => raise TypeError
  end.

(** [d[hashable] = value] *)
Definition dict_setitem (d : N) (hashable : secondary H) (value : W) :
    M (PairState H W) unit :=
  h ← hash hashable;
  PersistentPairKeysDict.dict_setitem d h value.

(** [d[hashable]] *)
Definition dict_getitem (d : N) (hashable : secondary H) : M (PairState H W) W :=
  h ← hash hashable;
  PersistentPairKeysDict.dict_getitem d h.

(** [del d[hashable]] *)
Definition dict_delitem (d : N) (hashable : secondary H) : M (PairState H W) unit :=
  h ← hash hashable;
  PersistentPairKeysDict.dict_delitem d h.

(** [hashable in d] *)
Definition dict_contains (d : N) (hashable : secondary H) : M (PairState H W) bool :=
  h ← hash hashable;
  gets (λ p, bool_decide (is_Some (PersistentPairKeysDict.deref p d !! h))).

Definition __setitem__ (key : N * secondary H) (value : W) : M (PairState H W) unit :=
  let '(persistent, hashable) := key in
  b ← PersistentPairKeysDict.on_data (PersistentKeysDict.__contains__ persistent);
  (if negb b then
     d0 ← PersistentPairKeysDict.new_dict;
     PersistentPairKeysDict.on_data (PersistentKeysDict.__setitem__ persistent d0)
   else mret ()) ;;
  d ← PersistentPairKeysDict.on_data (PersistentKeysDict.__getitem__ persistent);
  dict_setitem d hashable value ;;
  PersistentPairKeysDict.on_data (PersistentKeysDict.__setitem__ persistent d).

Definition __getitem__ (key : N * secondary H) : M (PairState H W) W :=
  let '(persistent, hashable) := key in
  d ← PersistentPairKeysDict.on_data (PersistentKeysDict.__getitem__ persistent);
  dict_getitem d hashable.

Definition __delitem__ (key : N * secondary H) : M (PairState H W) unit :=
  let '(persistent, hashable) := key in
  d ← PersistentPairKeysDict.on_data (PersistentKeysDict.__getitem__ persistent);
  dict_delitem d hashable ;;
  t ← PersistentPairKeysDict.dict_truth d;
  if t : bool
  then PersistentPairKeysDict.on_data (PersistentKeysDict.__setitem__ persistent d)
  else PersistentPairKeysDict.on_data (PersistentKeysDict.__delitem__ persistent).

Definition __contains__ (key : N * secondary H) : M (PairState H W) bool :=
  let '(persistent, hashable) := key in
  b ← PersistentPairKeysDict.on_data (PersistentKeysDict.__contains__ persistent);
  if b : bool then
    d ← PersistentPairKeysDict.on_data (PersistentKeysDict.__getitem__ persistent);
    dict_contains d hashable
  else mret false.
End methods.
End PersistentPairKeysDictAny.

(** * Vocabulary of the statements *)

Section contents.
Context {V : Type}.
Implicit Types s : State V.

(** What a read of [self._tmpdata] leaves behind: [_v_data] exists. *)
Definition touch s : State V := with_v_data s (Some (staging s)).

(** Same objects, same connection, same two partitions. *)
Definition same_contents s s' : Prop :=
  objs s = objs s' ∧ jar s = jar s' ∧ _p_jar s = _p_jar s' ∧
  _data s = _data s' ∧ staging s = staging s'.

(** The states the methods keep the container in:
    - an identifier that an object carries resolves to that object and to
      no other, and the connection has not handed out identifiers it will
      hand out later;
    - a staging entry sits under the identity of its own key, which has a
      [_p_oid] attribute;
    - the persisted partition is keyed by identifiers the connection knows,
      and is empty while the container has no connection. *)
Record wf s : Prop := {
  wf_registered : ∀ k o, objs s !! k = Some (Some o) → registry (jar s) !! o = Some k;
  wf_resolved : ∀ o k, registry (jar s) !! o = Some k → objs s !! k = Some (Some o);
  wf_fresh : ∀ o k, registry (jar s) !! o = Some k → (o < next_oid (jar s))%N;
  wf_staged : ∀ i k v, staging s !! i = Some (k, v) → i = k ∧ is_Some (objs s !! k);
  wf_persisted : ∀ oid, is_Some (_data s !! oid) →
    _p_jar s ≠ None ∧ ∃ o k, oid = Some o ∧ registry (jar s) !! o = Some k;
}.

(** No staged entry is out of date: while the container has its
    connection, the staged keys are still without identifier, so that a
    store of a staged key goes to staging again. *)
Definition no_stale s : Prop :=
  _p_jar s ≠ None → ∀ i kv, staging s !! i = Some kv → objs s !! kv.1 = Some None.

(** Invariant I1 of the spec: no key is in both partitions. *)
Definition one_partition s : Prop :=
  ∀ k oid, is_Some (staging s !! k) → objs s !! k = Some oid → _data s !! oid = None.

(** The value the container holds for a key: the lookup of [__getitem__]. *)
Definition lookup_key s (key : N) : option V :=
  match staging s !! key with
  | Some kv => Some kv.2
  | None => objs s !! key ≫= λ oid, _data s !! oid
  end.
End contents.

Section pair_contents.
Context {H W : Type} `{Countable H}.
Implicit Types p : PairState H W.

(** Same underlying dictionary, same inner dictionaries. *)
Definition same_pair_contents (p p' : PairState H W) : Prop :=
  same_contents (under p) (under p') ∧ dicts p = dicts p'.

(** Invariant I4 of the spec, with what it rests on: the underlying
    dictionary is well formed and has no out-of-date staged entry; the
    reference it holds for a primary is to a dictionary that exists and
    is not empty; no two primaries hold the same dictionary. *)
Record pair_wf (p : PairState H W) : Prop := {
  pair_under_wf : wf (under p);
  pair_no_stale : no_stale (under p);
  pair_nonempty : ∀ k d, lookup_key (under p) k = Some d →
    ∃ m, dicts p !! d = Some m ∧ m ≠ ∅;
  pair_unshared : ∀ k k' d,
    lookup_key (under p) k = Some d → lookup_key (under p) k' = Some d → k = k';
}.

(** The value the pair dictionary holds for a pair: the lookup of its
    [__getitem__]. *)
Definition pair_lookup p (key : N * H) : option W :=
  lookup_key (under p) key.1 ≫= λ d, PersistentPairKeysDict.deref p d !! key.2.

(** The row of a primary: the primary with the inner dictionary it holds. *)
Definition row_of p (k : N) : N * gmap H W :=
  (k, PersistentPairKeysDict.deref p (default 0%N (lookup_key (under p) k))).
End pair_contents.

(** A computation keeps a relation between the state it starts in and
    the state it stops in, whatever it returns or raises. *)
Definition keeps {S A} (Q : S → S → Prop) (m : M S A) : Prop :=
  ∀ s, Q s (snd (m s)).

(** The calls whose failures are compared with the state they leave. *)
Inductive dict_call (V : Type) : Type :=
  | DictSet (key : N) (value : V)
  | DictGet (key : N)
  | DictDel (key : N).
Arguments DictSet {V} key value.
Arguments DictGet {V} key.
Arguments DictDel {V} key.

Definition run_dict_call {V} (c : dict_call V) : M (State V) (option V) :=
  match c with
  | DictSet key value => PersistentKeysDict.__setitem__ key value ;; mret None
  | DictGet key => v ← PersistentKeysDict.__getitem__ key; mret (Some v)
  | DictDel key => PersistentKeysDict.__delitem__ key ;; mret None
  end.

Inductive pair_call (H W : Type) : Type :=
  | PairSet (key : N * secondary H) (value : W)
  | PairGet (key : N * secondary H)
  | PairDel (key : N * secondary H).
Arguments PairSet {H W} key value.
Arguments PairGet {H W} key.
Arguments PairDel {H W} key.

Definition run_pair_call {H W} `{Countable H} (c : pair_call H W) :
    M (PairState H W) (option W) :=
  match c with
  | PairSet key value => PersistentPairKeysDictAny.__setitem__ key value ;; mret None
  | PairGet key => w ← PersistentPairKeysDictAny.__getitem__ key; mret (Some w)
  | PairDel key => PersistentPairKeysDictAny.__delitem__ key ;; mret None
  end.

(** The spec's atomic failure, for one call in one state: if the call
    raises, the contents are what they were. *)
Definition atomic_failure {H W} `{Countable H}
    (c : pair_call H W) (p : PairState H W) : Prop :=
  ∀ e p', run_pair_call c p = (Raise e, p') → same_pair_contents p p'.

(** The store that hashes too late: the secondary cannot be hashed, and
    the primary has a [_p_oid] attribute and is not in the underlying
    dictionary, so that [__setitem__] has stored a new inner dictionary for
    it when [hash] raises. *)
Definition stores_unhashable_under_new_primary {H W} `{Countable H}
    (c : pair_call H W) (p : PairState H W) : Prop :=
  ∃ persistent value,
    c = PairSet (persistent, Unhashable) value ∧
    fst (PersistentPairKeysDict.on_data
           (PersistentKeysDict.__contains__ persistent) p) = Ok false.

(** ** Concrete worlds

    Two objects with a [_p_oid] attribute, of identity 1 and 2, neither
    added to the connection yet; the connection will hand out 10 next. *)
Definition two_objects : gmap N (option N) := <[1%N := None]> (<[2%N := None]> ∅).
Definition new_jar : Jar := {| next_oid := 10; registry := ∅ |}.

(** A new [PersistentKeysDict], and one already added to the connection. *)
Definition new_dict_state : State string :=
  PersistentKeysDict.__init__ two_objects new_jar.
Definition attached_dict_state : State string :=
  with_p_jar new_dict_state (Some ()).

(** [d[k] = v] for each key of [ks], in this order. *)
Definition insert_all {V} (ks : list N) (v : V) : M (State V) unit :=
  for_ ks (λ k, PersistentKeysDict.__setitem__ k v).

(** Iteration in insertion order, for the keys [ks] inserted into a new
    container in the world [o], [j]: [keys()] yields [ks]. *)
Definition keys_in_insertion_order (order : DictOrder)
    (o : gmap N (option N)) (j : Jar) (ks : list N) : Prop :=
  (insert_all ks "v" ;; PersistentKeysDict.keys) (PersistentKeysDict.__init__ o j)
  = (Ok ks, snd (insert_all ks "v" (PersistentKeysDict.__init__ o j))).

(** An identifier of the persisted partition and the key it resolves to. *)
Definition resolves {V} (s : State V) (oid : option N) (k : N) : Prop :=
  ∃ o, oid = Some o ∧ registry (jar s) !! o = Some k.

(** ** Scenarios

    A key is stored while it has no identifier, is then added to the
    connection by its owner, and is stored again. *)
Definition store_attach_store : M (State string) (string * nat) :=
  PersistentKeysDict.__setitem__ 1%N "v1" ;;
  jar_add 1%N ;;
  PersistentKeysDict.__setitem__ 1%N "v2" ;;
  v ← PersistentKeysDict.__getitem__ 1%N;
  n ← PersistentKeysDict.__len__;
  mret (v, n).

(** The same with a key that has its identifier from the start and a
    container that is added to the connection between the two stores. *)
Definition store_attach_container_store : M (State string) (string * nat) :=
  jar_add 1%N ;;
  PersistentKeysDict.__setitem__ 1%N "v1" ;;
  attach_container ;;
  PersistentKeysDict.__setitem__ 1%N "v2" ;;
  v ← PersistentKeysDict.__getitem__ 1%N;
  n ← PersistentKeysDict.__len__;
  mret (v, n).

(** The state after the first store and the key's attachment. *)
Definition staged_then_attached : State string :=
  snd ((PersistentKeysDict.__setitem__ 1%N "old" ;; jar_add 1%N) attached_dict_state).

(** A new [PersistentPairKeysDict] whose underlying dictionary has been
    added to the connection. *)
Definition attached_pair_state : PairState string nat :=
  snd (PersistentPairKeysDict.on_data attach_container
         (PersistentPairKeysDict.__init__ two_objects new_jar)).

(** A pair is stored under a primary without identifier, the primary is
    added to the connection, the pair is stored again and then deleted.
    The result: the primaries of the underlying dictionary, whether the
    primary is in it, the inner dictionary stored for it, and [len]. *)
Definition pair_store_attach_store_delete (order : DictOrder) :
    M (PairState string nat) (list N * bool * gmap string nat * nat) :=
  PersistentPairKeysDict.__setitem__ (1%N, "a") 1 ;;
  PersistentPairKeysDict.on_data (jar_add 1%N) ;;
  PersistentPairKeysDict.__setitem__ (1%N, "a") 5 ;;
  PersistentPairKeysDict.__delitem__ (1%N, "a") ;;
  primaries ← PersistentPairKeysDict.on_data PersistentKeysDict.__iter__;
  present ← PersistentPairKeysDict.on_data (PersistentKeysDict.__contains__ 1%N);
  d ← PersistentPairKeysDict.on_data (PersistentKeysDict.__getitem__ 1%N);
  inner ← gets (λ p, PersistentPairKeysDict.deref p d);
  n ← PersistentPairKeysDict.__len__;
  mret (primaries, present, inner, n).

(** A container without connection that holds a staged entry, and one with
    a connection that holds two. *)
Definition staged_unattached : State string :=
  snd (PersistentKeysDict.__setitem__ 1%N "x" new_dict_state).
Definition two_staged : State string :=
  snd ((PersistentKeysDict.__setitem__ 1%N "x" ;;
        PersistentKeysDict.__setitem__ 2%N "y") attached_dict_state).

(** A container with a connection, one key flushed into the persisted
    partition and one key staged after that. *)
Definition flushed_and_staged (order : DictOrder) : State string :=
  snd (PersistentKeysDict.__setitem__ 2%N "y"
         (snd (PersistentKeysDict.__getstate__
                 (snd (PersistentKeysDict.__setitem__ 1%N "x" attached_dict_state))))).

(** A new [PersistentKeysSet]. *)
Definition new_set_state : State unit :=
  PersistentKeysSet.__init__ two_objects new_jar.

(** A pair dictionary with a connection that holds one pair, and one
    that holds a second pair under the same primary. *)
Definition one_pair_state : PairState string nat :=
  snd (PersistentPairKeysDict.__setitem__ (1%N, "a") 5 attached_pair_state).
Definition two_pairs_state : PairState string nat :=
  snd (PersistentPairKeysDict.__setitem__ (1%N, "b") 7 one_pair_state).

(** * Properties *)

(** Unfolding of the monad *)
Ltac monad_unfold :=
  unfold mbind, M_bind, mret, M_ret, gets, modify, raise in *.

Section contents_facts.
Context {V : Type}.
Implicit Types s : State V.

Lemma same_contents_refl s : same_contents s s.
Proof. by repeat split. Qed.

Lemma same_contents_touch s : same_contents s (touch s).
Proof. by repeat split. Qed.

Lemma staging_touch s : staging (touch s) = staging s.
Proof. done. Qed.

Lemma touch_touch s : touch (touch s) = touch s.
Proof. done. Qed.

Lemma tmpdata_eq s :
  PersistentKeysDict._tmpdata s = (Ok (staging s), touch s).
Proof.
  unfold PersistentKeysDict._tmpdata, PersistentKeysDict._getvdata, touch, staging.
  destruct s as [o j pj d [t|]]; done.
Qed.
End contents_facts.

(** ** Equations of the methods of [PersistentKeysDict] *)

Section dict_equations.
Context {order : DictOrder} {V : Type}.
Implicit Types (s : State V) (key : N) (value : V).
Import PersistentKeysDict.

Lemma checkKey_eq key s :
  checkKey key s =
    (if objs s !! key is Some _ then Ok () else Raise TypeError, s).
Proof.
  unfold checkKey, hasattr_p_oid. monad_unfold.
  by destruct (objs s !! key).
Qed.

Lemma setitem_eq key value s :
  __setitem__ key value s =
    match objs s !! key with
    | None => (Raise TypeError, s)
    | Some oid =>
        if bool_decide (oid = None) || bool_decide (_p_jar s = None)
        then (Ok (), with_v_data s (Some (<[key := (key, value)]> (staging s))))
        else (Ok (), with_data s (<[oid := value]> (_data s)))
    end.
Proof.
  unfold __setitem__. unfold mbind at 1, M_bind at 1. rewrite checkKey_eq.
  unfold getattr_p_oid, store_tmpdata, store_data. monad_unfold.
  destruct (objs s !! key) as [oid|] eqn:E; [|done].
  destruct (bool_decide (oid = None) || bool_decide (_p_jar s = None)); [|done].
  by rewrite tmpdata_eq.
Qed.

Lemma getitem_eq key s :
  __getitem__ key s =
    match objs s !! key with
    | None => (Raise TypeError, s)
    | Some oid =>
        match staging s !! key with
        | Some kv => (Ok kv.2, touch s)
        | None =>
            match _data s !! oid with
            | Some v => (Ok v, touch s)
            | None => (Raise KeyError, touch s)
            end
        end
    end.
Proof.
  unfold __getitem__. unfold mbind at 1, M_bind at 1. rewrite checkKey_eq.
  destruct (objs s !! key) as [oid|] eqn:E; [|done].
  unfold mbind at 1, M_bind at 1. rewrite tmpdata_eq. cbv beta iota.
  destruct (staging s !! key) as [kv|] eqn:Et.
  - rewrite bool_decide_eq_true_2 by eauto.
    unfold mbind at 1, M_bind at 1. rewrite tmpdata_eq, staging_touch, Et. done.
  - rewrite bool_decide_eq_false_2 by (by intros [? ?]).
    unfold getattr_p_oid. monad_unfold. simpl. rewrite ?E. simpl.
    by destruct (_data s !! oid).
Qed.

Lemma delitem_eq key s :
  __delitem__ key s =
    match objs s !! key with
    | None => (Raise TypeError, s)
    | Some oid =>
        match staging s !! key with
        | Some _ => (Ok (), with_v_data s (Some (delete key (staging s))))
        | None =>
            match _data s !! oid with
            | Some _ => (Ok (), with_data (touch s) (delete oid (_data s)))
            | None => (Raise KeyError, touch s)
            end
        end
    end.
Proof.
  unfold __delitem__. unfold mbind at 1, M_bind at 1. rewrite checkKey_eq.
  destruct (objs s !! key) as [oid|] eqn:E; [|done].
  unfold mbind at 1, M_bind at 1. rewrite tmpdata_eq. cbv beta iota.
  destruct (staging s !! key) as [kv|] eqn:Et.
  - rewrite bool_decide_eq_true_2 by eauto.
    unfold mbind at 1, M_bind at 1. rewrite tmpdata_eq, staging_touch, Et. done.
  - rewrite bool_decide_eq_false_2 by (by intros [? ?]).
    unfold getattr_p_oid, store_data. monad_unfold. simpl. rewrite ?E. simpl.
    by destruct (_data s !! oid).
Qed.

Lemma contains_eq key s :
  __contains__ key s =
    match objs s !! key with
    | None => (Raise TypeError, s)
    | Some oid =>
        (Ok (bool_decide (is_Some (staging s !! key)) ||
             bool_decide (is_Some (_data s !! oid))), touch s)
    end.
Proof.
  unfold __contains__. unfold mbind at 1, M_bind at 1. rewrite checkKey_eq.
  destruct (objs s !! key) as [oid|] eqn:E; [|done].
  unfold mbind at 1, M_bind at 1. rewrite tmpdata_eq. cbv beta iota.
  destruct (bool_decide (is_Some (staging s !! key))); [done|].
  unfold getattr_p_oid. monad_unfold. simpl. rewrite ?E. done.
Qed.

Lemma len_eq s :
  __len__ s = (Ok (size (_data s) + size (staging s)), touch s).
Proof. unfold __len__. monad_unfold. by rewrite tmpdata_eq. Qed.

Lemma getstate_eq s :
  __getstate__ s =
    match _p_jar s with
    | None => (Raise AssertionError, s)
    | Some _ =>
        (for_ (itervalues (staging s)) flush_entry ;;
         store_tmpdata ∅ ;; gets _data) (touch s)
    end.
Proof.
  unfold __getstate__. monad_unfold. destruct (_p_jar s); simpl; [|done].
  by rewrite tmpdata_eq.
Qed.
End dict_equations.

(** ** Failures *)

Section dict_failures.
Context {order : DictOrder} {V : Type}.
Implicit Types (s : State V) (key : N) (value : V).
Import PersistentKeysDict.

(** C4. [__getstate__] (the spec's flush) on a container that has no
    connection fails with [AssertionError] (the spec's IllegalState),
    whatever the container holds, staged entries included; the assertion
    comes before anything is touched. *)
Theorem getstate_unattached_fails s :
  _p_jar s = None → __getstate__ s = (Raise AssertionError, s).
Proof. intros Hj. by rewrite getstate_eq, Hj. Qed.

(** C7. A key without a [_p_oid] attribute makes [__setitem__],
    [__getitem__], [__delitem__] and [__contains__] fail with [TypeError]
    (the spec's InvalidKey), in every state of the container. *)
Theorem key_without_p_oid_rejected s key value :
  objs s !! key = None →
  __setitem__ key value s = (Raise TypeError, s) ∧
  __getitem__ key s = (Raise TypeError, s) ∧
  __delitem__ key s = (Raise TypeError, s) ∧
  __contains__ key s = (Raise TypeError, s).
Proof.
  intros Hk.
  rewrite setitem_eq, getitem_eq, delitem_eq, contains_eq, Hk. done.
Qed.

(** C6. For a key with a [_p_oid] attribute that is in neither partition,
    [__getitem__] and [__delitem__] fail with [KeyError] (the spec's
    KeyNotFound).  The lookup goes to staging first, under the key's
    identity: a staged entry answers whatever the persisted partition holds
    under the key's [_p_oid], and only without one is the persisted
    partition asked. *)
Theorem absent_key_not_found s key oid :
  objs s !! key = Some oid →
  (staging s !! key = None → _data s !! oid = None →
     __getitem__ key s = (Raise KeyError, touch s) ∧
     __delitem__ key s = (Raise KeyError, touch s)) ∧
  (∀ kv, staging s !! key = Some kv →
     __getitem__ key s = (Ok kv.2, touch s) ∧
     __delitem__ key s = (Ok (), with_v_data s (Some (delete key (staging s))))) ∧
  (∀ v, staging s !! key = None → _data s !! oid = Some v →
     __getitem__ key s = (Ok v, touch s) ∧
     __delitem__ key s = (Ok (), with_data (touch s) (delete oid (_data s)))).
Proof.
  intros Hk. rewrite getitem_eq, delitem_eq, Hk.
  split; [|split].
  - by intros -> ->.
  - by intros kv ->.
  - by intros v -> ->.
Qed.
End dict_failures.

Section dict_atomic.
Context {V : Type}.
Implicit Types (s : State V) (key : N) (value : V).
Import PersistentKeysDict.

(** A failing call of [__setitem__], [__getitem__] or [__delitem__] raises
    [TypeError] or [KeyError] and leaves both partitions as they were. *)
Lemma dict_call_fails_unchanged (c : dict_call V) s e s' :
  run_dict_call c s = (Raise e, s') →
  (e = TypeError ∨ e = KeyError) ∧ same_contents s s'.
Proof.
  destruct c as [key value|key|key]; unfold run_dict_call; monad_unfold.
  - rewrite setitem_eq. destruct (objs s !! key) as [oid|] eqn:E.
    + by destruct (_ || _).
    + intros [= <- <-]. auto using same_contents_refl.
  - rewrite getitem_eq. destruct (objs s !! key) as [oid|] eqn:E.
    + destruct (staging s !! key); [done|].
      destruct (_data s !! oid); [done|].
      intros [= <- <-]. auto using same_contents_touch.
    + intros [= <- <-]. auto using same_contents_refl.
  - rewrite delitem_eq. destruct (objs s !! key) as [oid|] eqn:E.
    + destruct (staging s !! key); [done|].
      destruct (_data s !! oid); [done|].
      intros [= <- <-]. auto using same_contents_touch.
    + intros [= <- <-]. auto using same_contents_refl.
Qed.

(** Reading back what was just written: the value comes back when the
    entry went to staging, and when it went to the persisted partition
    while the key had no staged entry. *)
Lemma setitem_getitem_staged s key value oid :
  objs s !! key = Some oid →
  oid = None ∨ _p_jar s = None →
  (__setitem__ key value ;; __getitem__ key) s =
    (Ok value, with_v_data s (Some (<[key := (key, value)]> (staging s)))).
Proof.
  intros Hk Hs. monad_unfold. rewrite setitem_eq, Hk.
  assert (bool_decide (oid = None) || bool_decide (_p_jar s = None) = true) as ->.
  { destruct Hs as [->| ->]; [done|]. by rewrite orb_true_r. }
  rewrite getitem_eq. simpl. rewrite Hk.
  unfold staging at 1. simpl. by rewrite lookup_insert_eq.
Qed.

Lemma setitem_getitem_persisted s key value o :
  objs s !! key = Some (Some o) →
  _p_jar s ≠ None →
  staging s !! key = None →
  (__setitem__ key value ;; __getitem__ key) s =
    (Ok value, touch (with_data s (<[Some o := value]> (_data s)))).
Proof.
  intros Hk Hj Hs. monad_unfold. rewrite setitem_eq, Hk.
  rewrite bool_decide_eq_false_2 by done.
  rewrite bool_decide_eq_false_2 by done. simpl.
  rewrite getitem_eq. simpl. rewrite Hk.
  change (staging (with_data s _)) with (staging s). rewrite Hs.
  by rewrite lookup_insert_eq.
Qed.

(** Presence of a key, and what the methods do on a present key. *)
Lemma setitem_present s key value oid :
  objs s !! key = Some oid →
  ∃ s', __setitem__ key value s = (Ok (), s') ∧ objs s' = objs s ∧
        (is_Some (staging s' !! key) ∨ is_Some (_data s' !! oid)).
Proof.
  intros Hk. rewrite setitem_eq, Hk.
  destruct (_ || _); eexists; (split; [done|]); (split; [done|]).
  - left. unfold staging. simpl. rewrite lookup_insert_eq. eauto.
  - right. simpl. rewrite lookup_insert_eq. eauto.
Qed.

Lemma getitem_present s key oid :
  objs s !! key = Some oid →
  is_Some (staging s !! key) ∨ is_Some (_data s !! oid) →
  ∃ v, __getitem__ key s = (Ok v, touch s).
Proof.
  intros Hk Hin. rewrite getitem_eq, Hk.
  destruct (staging s !! key) as [kv|]; [eauto|].
  destruct Hin as [[? ?]|[v ->]]; [done|eauto].
Qed.

Lemma delitem_present s key oid :
  objs s !! key = Some oid →
  is_Some (staging s !! key) ∨ is_Some (_data s !! oid) →
  ∃ s', __delitem__ key s = (Ok (), s').
Proof.
  intros Hk Hin. rewrite delitem_eq, Hk.
  destruct (staging s !! key) as [kv|]; [eauto|].
  destruct Hin as [[? ?]|[v ->]]; [done|eauto].
Qed.
End dict_atomic.

(** ** The set *)

Section set_facts.
Implicit Types (s : State unit) (item : N).
Import PersistentKeysSet.

(** [add] on an item that is in the set reads and changes nothing. *)
Lemma add_present s item oid :
  objs s !! item = Some oid →
  is_Some (staging s !! item) ∨ is_Some (_data s !! oid) →
  add item s = (Ok (), touch s).
Proof.
  intros Hk Hin. unfold add. monad_unfold.
  rewrite contains_eq, Hk.
  destruct Hin as [Hin|Hin].
  - by rewrite (bool_decide_eq_true_2 _ Hin).
  - rewrite (bool_decide_eq_true_2 _ Hin). by rewrite orb_true_r.
Qed.
End set_facts.

Section set_idempotent.
Implicit Types (s : State unit) (item : N).
Import PersistentKeysSet.

(** C9. [add] is idempotent.  For an item with a [_p_oid] attribute and
    any state of the set: the first [add] succeeds; when the item was
    already in the set it changes nothing; a second [add] right after it
    leaves the state, and therefore [__len__], as the first one left it. *)
Theorem add_idempotent s item :
  is_Some (objs s !! item) →
  ∃ s1, add item s = (Ok (), s1) ∧
        (is_Some (staging s !! item) ∨ (∃ oid, objs s !! item = Some oid ∧ is_Some (_data s !! oid)) →
           same_contents s s1) ∧
        add item s1 = (Ok (), s1) ∧
        (add item ;; __len__) s1 = __len__ s1.
Proof.
  intros [oid Hk].
  assert (∀ s1, add item s1 = (Ok (), s1) → (add item ;; __len__) s1 = __len__ s1) as Hlen.
  { intros s1 E. monad_unfold. by rewrite E. }
  destruct (decide (is_Some (staging s !! item) ∨ is_Some (_data s !! oid))) as [Hin|Hout].
  - exists (touch s). split; [by eapply add_present|].
    split; [intros _; apply same_contents_touch|].
    assert (add item (touch s) = (Ok (), touch s)) as E
      by exact (add_present (touch s) item oid Hk Hin).
    auto.
  - assert (staging s !! item = None ∧ _data s !! oid = None) as [Hs Hd].
    { split; apply eq_None_not_Some; tauto. }
    unfold add at 1. monad_unfold. rewrite contains_eq, Hk, Hs, Hd. simpl.
    rewrite setitem_eq. simpl. rewrite Hk.
    destruct (bool_decide (oid = None) || bool_decide (_p_jar s = None)).
    + eexists. split; [done|]. split.
      { intros [[? ?]|(oid' & ? & [? ?])]; simplify_eq; congruence. }
      match goal with |- add item ?s1 = _ ∧ _ =>
        assert (add item s1 = (Ok (), s1)) as E end.
      { erewrite add_present; [done|exact Hk|].
        left. unfold staging. simpl. rewrite lookup_insert_eq. eauto. }
      auto.
    + eexists. split; [done|]. split.
      { intros [[? ?]|(oid' & ? & [? ?])]; simplify_eq; congruence. }
      match goal with |- add item ?s1 = _ ∧ _ =>
        assert (add item s1 = (Ok (), s1)) as E end.
      { erewrite add_present; [done|exact Hk|].
        right. simpl. rewrite lookup_insert_eq. eauto. }
      auto.
Qed.
End set_idempotent.

(** ** The invariant [wf] *)

Section wf_facts.
Context {V : Type}.
Implicit Types (s : State V) (key : N) (value : V).
Import PersistentKeysDict.

Lemma wf_init (o : gmap N (option N)) (j : Jar) :
  (∀ k oid, o !! k = Some (Some oid) → registry j !! oid = Some k) →
  (∀ oid k, registry j !! oid = Some k → o !! k = Some (Some oid)) →
  (∀ oid k, registry j !! oid = Some k → (oid < next_oid j)%N) →
  wf (V:=V) (__init__ o j).
Proof.
  intros H1 H5 H2. split; simpl; [done|done|done|..].
  - intros i k v. unfold staging. simpl. by rewrite lookup_empty.
  - intros oid. rewrite lookup_empty. by intros [? ?].
Qed.

Lemma wf_touch s : wf s → wf (touch s).
Proof. intros [H1 H5 H2 H3 H4]. by split. Qed.

Lemma wf_same_contents s s' : same_contents s s' → wf s → wf s'.
Proof.
  intros (Ho & Hj & Hp & Hd & Ht) [H1 H5 H2 H3 H4].
  split; rewrite <-?Ho, <-?Hj, <-?Hp, <-?Hd, <-?Ht; done.
Qed.

Lemma wf_setitem s key value s' :
  wf s → __setitem__ key value s = (Ok (), s') → wf s'.
Proof.
  intros [H1 H5 H2 H3 H4]. rewrite setitem_eq.
  destruct (objs s !! key) as [oid|] eqn:Hk; [|done].
  destruct (bool_decide (oid = None)) eqn:Ho; simpl.
  - intros [= <-]. split; simpl; [done|done|done| |done].
    intros i k v. unfold staging. simpl.
    rewrite lookup_insert. case_decide; [|apply H3].
    intros [= <- <-]. eauto.
  - destruct (bool_decide (_p_jar s = None)) eqn:Hj.
    + intros [= <-]. split; simpl; [done|done|done| |done].
      intros i k v. unfold staging. simpl.
      rewrite lookup_insert. case_decide; [|apply H3].
      intros [= <- <-]. eauto.
    + intros [= <-]. split; simpl; [done|done|done|done|].
      apply bool_decide_eq_false in Ho, Hj.
      intros oid'. rewrite lookup_insert. case_decide; [|apply H4].
      subst oid'. intros _. split; [done|].
      destruct oid as [o|]; [|done]. eauto.
Qed.

Lemma wf_setitem_any s key value :
  wf s → wf (snd (__setitem__ key value s)).
Proof.
  intros Hwf. destruct (__setitem__ key value s) as [[[]|e] s'] eqn:E.
  - by eapply wf_setitem.
  - destruct (dict_call_fails_unchanged (DictSet key value) s e s') as [_ Hs].
    { unfold run_dict_call. monad_unfold. by rewrite E. }
    by eapply wf_same_contents.
Qed.

Lemma wf_delitem s key s' :
  wf s → __delitem__ key s = (Ok (), s') → wf s'.
Proof.
  intros [H1 H5 H2 H3 H4]. rewrite delitem_eq.
  destruct (objs s !! key) as [oid|] eqn:Hk; [|done].
  destruct (staging s !! key) as [kv|] eqn:Hs.
  - intros [= <-]. split; simpl; [done|done|done| |done].
    intros i k v. unfold staging at 1. simpl.
    rewrite lookup_delete. case_decide; [done|apply H3].
  - destruct (_data s !! oid) eqn:Hd; [|done].
    intros [= <-]. split; simpl; [done|done|done|done|].
    intros oid'. rewrite lookup_delete. case_decide; [by intros [? ?]|apply H4].
Qed.

Lemma wf_jar_add s key s' :
  wf s → jar_add key s = (Ok (), s') → wf s'.
Proof.
  intros [H1 H5 H2 H3 H4]. unfold jar_add.
  destruct (objs s !! key) as [[o|]|] eqn:Hk; [by intros [= <-]| |done].
  intros [= <-].
  assert (registry (jar s) !! next_oid (jar s) = None) as Hnew.
  { apply eq_None_not_Some. intros [k Hr]. apply H2 in Hr. lia. }
  split; simpl.
  - intros k o. rewrite lookup_insert. case_decide.
    + intros [= <-]. subst k. by rewrite lookup_insert_eq.
    + intros Ho. rewrite lookup_insert_ne; [by apply H1|].
      intros <-. apply H1 in Ho. congruence.
  - intros o k. rewrite lookup_insert. case_decide.
    + intros [= <-]. subst o. apply lookup_insert_eq.
    + intros Hr. pose proof (H5 _ _ Hr) as Ho.
      rewrite lookup_insert_ne; [done|]. congruence.
  - intros o k. rewrite lookup_insert. case_decide; [lia|].
    intros Hr. apply H2 in Hr. lia.
  - intros i k v Hs. destruct (H3 i k v Hs) as [-> [x Hx]]. split; [done|].
    rewrite lookup_insert. case_decide; eauto.
  - intros oid Hd. destruct (H4 oid Hd) as (Hj & o & k & -> & Hr).
    split; [done|]. exists o, k. split; [done|].
    rewrite lookup_insert_ne; [done|]. congruence.
Qed.

Lemma wf_jar_add_any s key : wf s → wf (snd (jar_add key s)).
Proof.
  intros Hwf. destruct (jar_add key s) as [[[]|e] s'] eqn:E.
  - by eapply wf_jar_add.
  - unfold jar_add in E. by destruct (objs s !! key) as [[o|]|]; simplify_eq.
Qed.

(** Adding the container to the connection keeps [wf]. *)
Lemma wf_attach_container s : wf s → wf (with_p_jar s (Some ())).
Proof.
  intros [H1 H5 H2 H3 H4]. split; simpl; [done|done|done|done|].
  intros oid Hd. destruct (H4 oid Hd) as [_ ?]. done.
Qed.

Lemma wf_new_state : wf (V:=V) (__init__ two_objects new_jar).
Proof.
  apply wf_init.
  - intros k oid. unfold two_objects. rewrite !lookup_insert.
    repeat case_decide; by rewrite ?lookup_empty.
  - intros oid k. simpl. by rewrite lookup_empty.
  - intros oid k. simpl. by rewrite lookup_empty.
Qed.

End wf_facts.

(** ** The dictionary as a map

    In states without out-of-date staged entries the two partitions
    behave as one map from keys to values. *)

Section dict_as_map.
Context {V : Type}.
Implicit Types (s : State V) (key : N) (value : V).
Import PersistentKeysDict.

Lemma getitem_lookup key s :
  is_Some (objs s !! key) →
  __getitem__ key s =
    (match lookup_key s key with Some v => Ok v | None => Raise KeyError end, touch s).
Proof.
  intros [oid Hk]. rewrite getitem_eq, Hk. unfold lookup_key. rewrite Hk.
  destruct (staging s !! key); [done|]. simpl. by destruct (_data s !! oid).
Qed.

Lemma contains_lookup key s :
  is_Some (objs s !! key) →
  __contains__ key s = (Ok (bool_decide (is_Some (lookup_key s key))), touch s).
Proof.
  intros [oid Hk]. rewrite contains_eq, Hk. unfold lookup_key. rewrite Hk.
  destruct (staging s !! key) as [kv|]; simpl; [done|].
  by destruct (_data s !! oid).
Qed.

Lemma no_stale_one_partition s : wf s → no_stale s → one_partition s.
Proof.
  intros Hwf Hns k oid [kv Hs] Hk.
  apply eq_None_not_Some. intros Hd.
  destruct (wf_persisted _ Hwf _ Hd) as (Hj & o & k' & -> & Hr).
  destruct kv as [k0 v]. destruct (wf_staged _ Hwf _ _ _ Hs) as [<- _].
  specialize (Hns Hj _ _ Hs). simpl in Hns. congruence.
Qed.

Lemma no_stale_touch s : no_stale s → no_stale (touch s).
Proof. done. Qed.

(** [__setitem__] writes the key and nothing else. *)
Lemma setitem_lookup s key value s' :
  wf s → no_stale s → __setitem__ key value s = (Ok (), s') →
  wf s' ∧ no_stale s' ∧ objs s' = objs s ∧ jar s' = jar s ∧ _p_jar s' = _p_jar s ∧
  lookup_key s' key = Some value ∧
  (∀ k, k ≠ key → lookup_key s' k = lookup_key s k).
Proof.
  intros Hwf Hns E. split; [by eapply wf_setitem|].
  revert E. rewrite setitem_eq.
  destruct (objs s !! key) as [oid|] eqn:Hk; [|done].
  destruct (bool_decide (oid = None) || bool_decide (_p_jar s = None)) eqn:Hb.
  - intros [= <-]. simpl. split; [|repeat split].
    + intros Hj i kv. unfold staging at 1. simpl.
      rewrite lookup_insert. case_decide; [|by apply Hns].
      intros [= <-]. simpl. subst i.
      simpl in Hj.
      apply orb_true_iff in Hb as [Hb|Hb]; apply bool_decide_eq_true in Hb; congruence.
    + unfold lookup_key, staging at 1. simpl. by rewrite lookup_insert_eq.
    + intros k Hne. unfold lookup_key, staging at 1. simpl.
      by rewrite lookup_insert_ne.
  - apply orb_false_iff in Hb as [Ho Hj].
    apply bool_decide_eq_false in Ho, Hj.
    destruct oid as [o|]; [|done].
    assert (staging s !! key = None) as Hs.
    { apply eq_None_not_Some. intros [[k0 v] Hs].
      destruct (wf_staged _ Hwf _ _ _ Hs) as [<- _].
      specialize (Hns Hj _ _ Hs). simpl in Hns. congruence. }
    intros [= <-]. simpl. split; [done|repeat split].
    + unfold lookup_key. change (staging (with_data s _)) with (staging s).
      rewrite Hs. simpl. rewrite Hk. simpl. apply lookup_insert_eq.
    + intros k Hne. unfold lookup_key. change (staging (with_data s _)) with (staging s).
      destruct (staging s !! k); [done|]. simpl.
      destruct (objs s !! k) as [oid'|] eqn:Hk'; [|done]. simpl.
      rewrite lookup_insert_ne; [done|]. intros <-.
      pose proof (wf_registered _ Hwf _ _ Hk) as R1.
      pose proof (wf_registered _ Hwf _ _ Hk') as R2. congruence.
Qed.

(** [__delitem__] removes the key and nothing else. *)
Lemma delitem_lookup s key s' :
  wf s → no_stale s → __delitem__ key s = (Ok (), s') →
  wf s' ∧ no_stale s' ∧ objs s' = objs s ∧ jar s' = jar s ∧ _p_jar s' = _p_jar s ∧
  lookup_key s' key = None ∧
  (∀ k, k ≠ key → lookup_key s' k = lookup_key s k).
Proof.
  intros Hwf Hns E. split; [by eapply wf_delitem|].
  pose proof (no_stale_one_partition s Hwf Hns) as Hone.
  revert E. rewrite delitem_eq.
  destruct (objs s !! key) as [oid|] eqn:Hk; [|done].
  destruct (staging s !! key) as [kv|] eqn:Hs.
  - intros [= <-]. simpl. split; [|repeat split].
    + intros Hj i kv'. unfold staging at 1. simpl.
      rewrite lookup_delete. case_decide; [done|by apply Hns].
    + unfold lookup_key, staging at 1. simpl. rewrite lookup_delete_eq, Hk. simpl.
      apply (Hone key); eauto.
    + intros k Hne. unfold lookup_key, staging at 1. simpl.
      by rewrite lookup_delete_ne.
  - destruct (_data s !! oid) as [v|] eqn:Hd; [|done].
    intros [= <-]. simpl. split; [done|repeat split].
    + unfold lookup_key. change (staging (with_data _ _)) with (staging s).
      rewrite Hs. simpl. rewrite Hk. simpl. apply lookup_delete_eq.
    + intros k Hne. unfold lookup_key. change (staging (with_data _ _)) with (staging s).
      destruct (staging s !! k); [done|]. simpl.
      destruct (objs s !! k) as [oid'|] eqn:Hk'; [|done]. simpl.
      rewrite lookup_delete_ne; [done|]. intros <-.
      destruct (wf_persisted _ Hwf oid) as (_ & o & k0 & -> & _); [eauto|].
      pose proof (wf_registered _ Hwf _ _ Hk) as R1.
      pose proof (wf_registered _ Hwf _ _ Hk') as R2. congruence.
Qed.

(** Storing twice: the second value is read, and the key is counted
    once. *)
Lemma setitem_setitem s key v1 v2 :
  (__setitem__ key v1 ;; __setitem__ key v2) s = __setitem__ key v2 s.
Proof.
  monad_unfold. rewrite !setitem_eq.
  destruct (objs s !! key) as [oid|] eqn:Hk; [|done].
  destruct (bool_decide (oid = None) || bool_decide (_p_jar s = None)) eqn:Hb.
  - rewrite setitem_eq. simpl. rewrite Hk, Hb. unfold staging, with_v_data. simpl.
    by rewrite insert_insert_eq.
  - rewrite setitem_eq. simpl. rewrite Hk, Hb. unfold with_data. simpl.
    by rewrite insert_insert_eq.
Qed.

(** What the environment may do without making a staged entry out of
    date: add to the connection a key that is not staged, and add the
    container while nothing is staged. *)
Lemma no_stale_jar_add s key s' :
  staging s !! key = None → wf s → no_stale s →
  jar_add key s = (Ok (), s') →
  no_stale s' ∧ ∀ k, lookup_key s' k = lookup_key s k.
Proof.
  intros Hs Hwf Hns. unfold jar_add.
  destruct (objs s !! key) as [[o|]|] eqn:Hk; [by intros [= <-]| |done].
  intros [= <-]. split.
  - intros Hj i [k v] Hi. simpl in Hj.
    change (staging (with_jar _ _)) with (staging s) in Hi.
    destruct (wf_staged _ Hwf _ _ _ Hi) as [-> _]. simpl.
    rewrite lookup_insert_ne by congruence. by apply (Hns Hj _ _ Hi).
  - intros k. unfold lookup_key. simpl.
    change (staging (with_jar _ _)) with (staging s).
    destruct (staging s !! k); [done|].
    rewrite lookup_insert. case_decide; [|done]. subst k. rewrite Hk. simpl.
    destruct (_data s !! None) eqn:Hd, (_data s !! Some (next_oid (jar s))) eqn:Hd';
      try done.
    + by destruct (wf_persisted _ Hwf None) as (_ & ? & ? & ? & _).
    + by destruct (wf_persisted _ Hwf None) as (_ & ? & ? & ? & _).
    + destruct (wf_persisted _ Hwf (Some (next_oid (jar s)))) as (_ & o & k & [= <-] & Hr);
        [eauto|].
      apply (wf_fresh _ Hwf) in Hr. lia.
Qed.

Lemma no_stale_attach_container s :
  staging s = ∅ → no_stale (with_p_jar s (Some ())).
Proof.
  intros Hs _ i kv. change (staging (with_p_jar _ _)) with (staging s).
  by rewrite Hs, lookup_empty.
Qed.
End dict_as_map.

(** ** [__getstate__]: the flush *)

Section flush.
Context {order : DictOrder} {V : Type}.
Implicit Types (s : State V) (key : N) (value : V).
Import PersistentKeysDict.

(** One round of the loop: the key ends up with an identifier, its own
    if it had one, and the value is stored under it. *)
Lemma flush_entry_spec s key value x :
  wf s → _p_jar s ≠ None → objs s !! key = Some x →
  ∃ o s', flush_entry (key, value) s = (Ok (), s') ∧
    wf s' ∧ _p_jar s' = _p_jar s ∧ _v_data s' = _v_data s ∧
    objs s' = <[key := Some o]> (objs s) ∧ (∀ o0, x = Some o0 → o = o0) ∧
    _data s' = <[Some o := value]> (_data s).
Proof.
  intros Hwf Hj Hk. unfold flush_entry, getattr_p_oid, store_data. monad_unfold.
  cbn [fst snd]. rewrite Hk. destruct x as [o|]; simpl.
  - rewrite Hk. exists o. eexists. split; [done|].
    destruct Hwf as [H1 H5 H2 H3 H4].
    split; [|repeat split; simpl; try done].
    + split; simpl; [done|done|done|done|].
      intros oid. rewrite lookup_insert. case_decide; [|apply H4].
      intros _. split; [done|]. eauto.
    + by rewrite insert_id.
    + by intros ? [= ->].
  - destruct (jar_add key s) as [r s1] eqn:Ea.
    pose proof Ea as Ea'. unfold jar_add in Ea'. rewrite Hk in Ea'.
    injection Ea' as <- <-. simpl. rewrite lookup_insert_eq.
    exists (next_oid (jar s)). eexists. split; [done|].
    pose proof (wf_jar_add _ _ _ Hwf Ea) as [H1 H5 H2 H3 H4].
    split; [|repeat split; simpl; try done].
    split; simpl; [done|done|done|done|].
    intros oid. rewrite lookup_insert. case_decide; [|apply H4].
    intros _. split; [done|]. exists (next_oid (jar s)), key.
    split; [done|]. simpl. by rewrite lookup_insert_eq.
Qed.

Lemma flush_loop (l : list (N * V)) s :
  wf s → _p_jar s ≠ None → NoDup l.*1 →
  (∀ kv, kv ∈ l → is_Some (objs s !! kv.1)) →
  ∃ s', for_ l flush_entry s = (Ok (), s') ∧
    wf s' ∧ _p_jar s' = _p_jar s ∧ _v_data s' = _v_data s ∧
    (∀ k o, objs s !! k = Some (Some o) → objs s' !! k = Some (Some o)) ∧
    (∀ k, is_Some (objs s !! k) → is_Some (objs s' !! k)) ∧
    (∀ k, (∀ kv, kv ∈ l → kv.1 ≠ k) → objs s' !! k = objs s !! k) ∧
    (∀ kv, kv ∈ l → ∃ o, objs s' !! kv.1 = Some (Some o) ∧ _data s' !! Some o = Some kv.2) ∧
    (∀ oid, (∀ kv, kv ∈ l → objs s' !! kv.1 ≠ Some oid) → _data s' !! oid = _data s !! oid).
Proof.
  revert s. induction l as [|[key value] l IH]; intros s Hwf Hj Hnd Hin.
  - exists s. simpl. do 7 (split; [done|]). split.
    + intros kv Hkv. by apply elem_of_nil in Hkv.
    + done.
  - apply NoDup_cons in Hnd as [Hnotin Hnd].
    destruct (Hin (key, value)) as [x Hk]; [left|]. simpl in Hk.
    destruct (flush_entry_spec s key value x Hwf Hj Hk)
      as (o & s1 & E1 & Hwf1 & Hj1 & Hv1 & Ho1 & Hx & Hd1).
    destruct (IH s1) as (s' & E & Hwf' & Hj' & Hv' & Hmono & Hcap & Hother & Hmoved & Hframe);
      [done|congruence|done|..].
    { intros kv Hkv. rewrite Ho1. rewrite lookup_insert. case_decide; [eauto|].
      apply Hin. by right. }
    exists s'. simpl. monad_unfold. rewrite E1.
    assert (objs s' !! key = Some (Some o)) as Hkey.
    { apply Hmono. rewrite Ho1. apply lookup_insert_eq. }
    assert (∀ kv, kv ∈ l → objs s' !! kv.1 ≠ Some (Some o)) as Hdistinct.
    { intros kv Hkv Ho.
      pose proof (wf_registered _ Hwf' _ _ Ho) as R1.
      pose proof (wf_registered _ Hwf' _ _ Hkey) as R2.
      rewrite R1 in R2. injection R2 as <-.
      apply Hnotin. apply list_elem_of_fmap. by exists kv. }
    split; [done|]. split; [done|]. split; [congruence|]. split; [congruence|].
    split; [|split; [|split; [|split]]].
    + intros k o' Hko. apply Hmono. rewrite Ho1, lookup_insert.
      case_decide; [|done]. subst k. rewrite Hk in Hko.
      injection Hko as ->. by rewrite (Hx o').
    + intros k Hc. apply Hcap. rewrite Ho1, lookup_insert. case_decide; eauto.
    + intros k Hk'. rewrite Hother.
      * rewrite Ho1, lookup_insert_ne; [done|]. apply (Hk' (key, value)). left.
      * intros kv Hkv. apply Hk'. by right.
    + intros kv [->|Hkv]%elem_of_cons; [|by apply Hmoved].
      exists o. split; [done|]. simpl.
      rewrite Hframe by done. rewrite Hd1. apply lookup_insert_eq.
    + intros oid Hoid. rewrite Hframe.
      * rewrite Hd1, lookup_insert_ne; [done|].
        intros <-. apply (Hoid (key, value)); [left|done].
      * intros kv Hkv. apply Hoid. by right.
Qed.

(** The staged entries in the order of the loop. *)
Lemma itervalues_staging s :
  wf s →
  NoDup (itervalues (staging s)).*1 ∧
  (∀ kv, kv ∈ itervalues (staging s) ↔ staging s !! kv.1 = Some kv).
Proof.
  intros Hwf. unfold itervalues.
  assert (∀ x : N * (N * V), x ∈ dict_items (staging s) → x.2.1 = x.1) as Hfst.
  { intros [i [k v]]. rewrite (dict_items_perm (staging s)), elem_of_map_to_list.
    intros Hs. by destruct (wf_staged _ Hwf _ _ _ Hs) as [-> _]. }
  split.
  - assert ((dict_items (staging s)).*2.*1 = (dict_items (staging s)).*1) as ->.
    { rewrite <-list_fmap_compose. apply list_fmap_ext.
      intros i x Hx. apply Hfst. by eapply list_elem_of_lookup_2. }
    rewrite (dict_items_perm (staging s)). apply NoDup_fst_map_to_list.
  - intros [k v]. rewrite list_elem_of_fmap. split.
    + intros ([i kv] & -> & Hx). pose proof (Hfst _ Hx) as Hi. simpl in *.
      rewrite (dict_items_perm (staging s)), elem_of_map_to_list in Hx.
      by subst i.
    + intros Hs. exists (k, (k, v)). split; [done|].
      by rewrite (dict_items_perm (staging s)), elem_of_map_to_list.
Qed.

(** The whole flush: what it returns, the state it leaves, and where
    every staged entry has gone. *)
Lemma getstate_spec s :
  wf s → _p_jar s ≠ None →
  ∃ s', __getstate__ s = (Ok (_data s'), s') ∧
    wf s' ∧ staging s' = ∅ ∧
    (∀ k o, objs s !! k = Some (Some o) → objs s' !! k = Some (Some o)) ∧
    (∀ k, staging s !! k = None → objs s' !! k = objs s !! k) ∧
    (∀ k v, staging s !! k = Some (k, v) →
       ∃ o, objs s' !! k = Some (Some o) ∧ registry (jar s') !! o = Some k ∧
            _data s' !! Some o = Some v) ∧
    (∀ oid, (∀ k, is_Some (staging s !! k) → objs s' !! k ≠ Some oid) →
       _data s' !! oid = _data s !! oid).
Proof.
  intros Hwf Hj.
  destruct (itervalues_staging s Hwf) as [Hnd Hel].
  destruct (flush_loop (itervalues (staging s)) (touch s))
    as (s1 & E & Hwf1 & Hj1 & Hv1 & Hmono & Hcap & Hother & Hmoved & Hframe);
    [by apply wf_touch|done|done|..].
  { intros kv Hkv%Hel. destruct kv as [k v].
    by destruct (wf_staged _ Hwf _ _ _ Hkv) as [_ ?]. }
  exists (with_v_data s1 (Some ∅)).
  rewrite getstate_eq. destruct (_p_jar s) as [[]|]; [|done].
  unfold store_tmpdata. monad_unfold. rewrite E. simpl.
  split; [done|].
  split; [|split; [done|split; [done|split; [|split]]]].
  - destruct Hwf1 as [H1 H5 H2 H3 H4]. split; simpl; [done|done|done| |done].
    intros i k v. unfold staging. simpl. by rewrite lookup_empty.
  - intros k Hk. simpl. apply Hother. intros kv Hkv%Hel <-. congruence.
  - intros k v Hs. destruct (Hmoved (k, v)) as (o & Ho & Hd); [by apply Hel|].
    exists o. simpl in *. split; [done|]. split; [|done].
    by apply (wf_registered _ Hwf1).
  - intros oid Hoid. simpl. apply Hframe.
    intros kv Hkv%Hel. apply Hoid. eauto.
Qed.

(** The flush does not change the value the container holds for any
    key, and leaves no staged entry to go out of date. *)
Lemma getstate_lookup s r s' :
  wf s → __getstate__ s = (Ok r, s') →
  wf s' ∧ no_stale s' ∧ r = _data s' ∧ ∀ k, lookup_key s' k = lookup_key s k.
Proof.
  intros Hwf E.
  destruct (_p_jar s) as [[]|] eqn:Hj; last first.
  { by rewrite getstate_eq, Hj in E. }
  destruct (getstate_spec s Hwf)
    as (s1 & E1 & Hwf1 & Hs1 & Hmono & Hother & Hmoved & Hframe); [congruence|].
  rewrite E1 in E. injection E as <- <-.
  split; [done|]. split; [|split; [done|]].
  { intros _ i kv. by rewrite Hs1, lookup_empty. }
  intros k. unfold lookup_key. rewrite Hs1, lookup_empty.
  destruct (staging s !! k) as [[k0 v]|] eqn:Hs.
  - destruct (wf_staged _ Hwf _ _ _ Hs) as [<- _].
    destruct (Hmoved _ _ Hs) as (o & -> & _ & Hd). done.
  - rewrite (Hother k Hs). destruct (objs s !! k) as [oid|] eqn:Hk; [simpl|done].
    apply Hframe. intros k' [[k0 v] Hs'] Hk'.
    destruct (wf_staged _ Hwf _ _ _ Hs') as [<- _].
    destruct (Hmoved _ _ Hs') as (o & Ho & Hr & _).
    rewrite Ho in Hk'. injection Hk' as <-.
    rewrite <-(Hother k Hs) in Hk.
    pose proof (wf_registered _ Hwf1 _ _ Hk) as Hr'. congruence.
Qed.

Lemma wf_getstate_any s : wf s → wf (snd (__getstate__ s)).
Proof.
  intros Hwf. destruct (_p_jar s) as [[]|] eqn:Hj.
  - destruct (getstate_spec s Hwf) as (s' & -> & Hwf' & _); [congruence|done].
  - by rewrite getstate_eq, Hj.
Qed.

(** C2. [__getstate__] on a container that has a connection: every staged
    key ends up with an identifier that the connection resolves to it, the
    one it had if it had one; the value staged for it is in the persisted
    partition under that identifier; the staging partition is empty.
    Nothing else in the persisted partition moves, and what the method
    returns for pickling is the persisted partition. *)
Theorem getstate_moves_staging s :
  wf s → _p_jar s ≠ None →
  ∃ s', __getstate__ s = (Ok (_data s'), s') ∧
    staging s' = ∅ ∧
    (∀ k o, objs s !! k = Some (Some o) → objs s' !! k = Some (Some o)) ∧
    (∀ k v, staging s !! k = Some (k, v) →
       ∃ o, objs s' !! k = Some (Some o) ∧ registry (jar s') !! o = Some k ∧
            _data s' !! Some o = Some v) ∧
    (∀ oid, (∀ k, is_Some (staging s !! k) → objs s' !! k ≠ Some oid) →
       _data s' !! oid = _data s !! oid).
Proof.
  intros Hwf Hj.
  destruct (getstate_spec s Hwf Hj) as (s' & E & _ & Hs & Hmono & _ & Hmoved & Hframe).
  exists s'. auto.
Qed.
End flush.

(** ** [keys] and [__iter__] *)

Section keys.
Context {order : DictOrder} {V : Type}.
Implicit Types (s : State V) (key : N) (value : V).
Import PersistentKeysDict.

Lemma iterkeys_spec {K} `{Countable K} {A} (m : gmap K A) :
  NoDup (iterkeys m) ∧ ∀ k, k ∈ iterkeys m ↔ is_Some (m !! k).
Proof.
  unfold iterkeys. split.
  - rewrite (dict_items_perm m). apply NoDup_fst_map_to_list.
  - intros k. rewrite (dict_items_perm m), list_elem_of_fmap. split.
    + intros ([k' a] & -> & Hx%elem_of_map_to_list). eauto.
    + intros [a Ha]. exists (k, a). by rewrite elem_of_map_to_list.
Qed.

Lemma comprehension_jar_get (l : list (option N)) s :
  (l ≠ [] → _p_jar s ≠ None) →
  Forall (λ oid, ∃ k, resolves s oid k) l →
  ∃ ks, comprehension (jar_get (_p_jar s)) l s = (Ok ks, s) ∧
        Forall2 (resolves s) l ks.
Proof.
  intros Hj Hl. induction Hl as [|oid l (k & o & -> & Hr) Hl IH].
  - exists []. by split.
  - destruct (_p_jar s) as [[]|] eqn:Ej; [|by destruct Hj].
    destruct IH as (ks & E & Hks); [done|].
    exists (k :: ks). split.
    + simpl. monad_unfold. unfold jar_get at 1. simpl. rewrite Hr, E. done.
    + constructor; [|done]. by exists o.
Qed.

(** What [keys] and [__iter__] return, and in which order. *)
Lemma keys_spec s :
  wf s →
  ∃ persisted staged,
    keys s = (Ok (persisted ++ staged), touch s) ∧
    __iter__ s = keys s ∧
    keys (touch s) = keys s ∧
    Forall2 (resolves s) (iterkeys (_data s)) persisted ∧
    NoDup (iterkeys (_data s)) ∧
    (∀ oid, oid ∈ iterkeys (_data s) ↔ is_Some (_data s !! oid)) ∧
    staged = (itervalues (staging s)).*1 ∧
    NoDup staged ∧
    (∀ k, k ∈ staged ↔ is_Some (staging s !! k)).
Proof.
  intros Hwf.
  destruct (iterkeys_spec (_data s)) as [Hnd Hel].
  destruct (itervalues_staging s Hwf) as [Hnds Hels].
  destruct (comprehension_jar_get (iterkeys (_data s)) s) as (ks & E & Hks).
  { intros Hne. destruct (iterkeys (_data s)) as [|oid l] eqn:El; [done|].
    assert (is_Some (_data s !! oid)) as Hoid by (apply Hel; left).
    by destruct (wf_persisted _ Hwf _ Hoid). }
  { apply Forall_forall. intros oid Hoid%Hel.
    destruct (wf_persisted _ Hwf _ Hoid) as (_ & o & k & -> & Hr).
    exists k, o. done. }
  assert (keys s = (Ok (ks ++ (itervalues (staging s)).*1), touch s)) as Ek.
  { unfold keys. monad_unfold. rewrite E, tmpdata_eq. done. }
  exists ks, (itervalues (staging s)).*1.
  split; [done|]. split; [done|]. split.
  { rewrite Ek. unfold keys. monad_unfold.
    change (_p_jar (touch s)) with (_p_jar s).
    change (_data (touch s)) with (_data s).
    assert (comprehension (jar_get (_p_jar s)) (iterkeys (_data s)) (touch s)
            = (Ok ks, touch s)) as ->.
    { clear -E. revert ks E. generalize (iterkeys (_data s)) as l.
      induction l as [|oid l IH]; intros ks; simpl; monad_unfold.
      - by intros [= <-].
      - unfold jar_get at 1 3. destruct (_p_jar s); [|done].
        change (jar (touch s)) with (jar s).
        destruct (oid ≫= _) as [k|]; [|done].
        destruct (comprehension _ l s) as [[ks'|e] s1] eqn:E1; [|done].
        intros [= <- ->]. by rewrite (IH ks'). }
    by rewrite tmpdata_eq. }
  split; [done|]. split; [done|]. split; [done|]. split; [done|].
  split; [done|].
  intros k. rewrite list_elem_of_fmap. split.
  - intros ([k' v] & -> & Hkv%Hels). eauto.
  - intros [[k' v] Hs]. destruct (wf_staged _ Hwf _ _ _ Hs) as [<- _].
    exists (k, v). split; [done|]. by apply Hels.
Qed.

(** C8, as the code has it.  In a state the methods keep the container
    in, [keys()] returns a list, and [__iter__] yields the same elements:
    first the keys of the persisted partition, each the object that the
    connection resolves the identifier to, once per identifier; then the
    staged keys, each once, in the order in which the staging dictionary
    iterates.  The call changes neither partition, so that it can be
    repeated with the same result. *)
Theorem keys_persisted_then_staged s :
  wf s →
  ∃ persisted staged,
    keys s = (Ok (persisted ++ staged), touch s) ∧
    __iter__ s = keys s ∧
    keys (touch s) = keys s ∧
    Forall2 (resolves s) (iterkeys (_data s)) persisted ∧
    NoDup (iterkeys (_data s)) ∧
    (∀ oid, oid ∈ iterkeys (_data s) ↔ is_Some (_data s !! oid)) ∧
    staged = (itervalues (staging s)).*1 ∧
    NoDup staged ∧
    (∀ k, k ∈ staged ↔ is_Some (staging s !! k)).
Proof. apply keys_spec. Qed.
End keys.

(** ** The pair dictionary *)

Section pair_atomic.
Context {H W : Type} `{Countable H}.
Implicit Types (p : PairState H W) (key : N * H) (value : W).
Import PersistentPairKeysDict.

Lemma same_pair_contents_under p u :
  same_contents (under p) u → same_pair_contents p (with_under p u).
Proof. by split. Qed.

Lemma pair_setitem_fails key value p e p' :
  __setitem__ key value p = (Raise e, p') →
  e = TypeError ∧ same_pair_contents p p'.
Proof.
  destruct key as [persistent hashable]. unfold __setitem__, on_data.
  unfold mbind at 1, M_bind at 1. rewrite contains_eq.
  destruct (objs (under p) !! persistent) as [oid|] eqn:Hk; last first.
  { intros [= <- <-]. split; [done|]. apply same_pair_contents_under, same_contents_refl. }
  intros Hfail. exfalso. revert Hfail.
  unfold new_dict, dict_setitem. monad_unfold.
  destruct (bool_decide (is_Some (staging (under p) !! persistent))
            || bool_decide (is_Some (_data (under p) !! oid))) eqn:Hb;
    cbn [negb under with_under dicts with_dicts].
  - destruct (getitem_present (touch (under p)) persistent oid) as (d & ->); [done|..].
    { apply orb_true_iff in Hb as [Hb|Hb]; apply bool_decide_eq_true in Hb; auto. }
    cbn [under with_under dicts with_dicts].
    destruct (setitem_present (touch (touch (under p))) persistent d oid)
      as (s2 & -> & _); [done|]. done.
  - destruct (setitem_present (touch (under p)) persistent
                (fresh (dom (dicts p))) oid) as (s2 & -> & Ho & Hin); [done|].
    cbn [under with_under dicts with_dicts].
    destruct (getitem_present s2 persistent oid) as (d & ->);
      [rewrite Ho; exact Hk|done|].
    cbn [under with_under dicts with_dicts].
    destruct (setitem_present (touch s2) persistent d oid)
      as (s3 & -> & _); [change (objs (touch s2)) with (objs s2); rewrite Ho; exact Hk|].
    done.
Qed.

Lemma pair_getitem_fails key p e p' :
  __getitem__ key p = (Raise e, p') →
  (e = TypeError ∨ e = KeyError) ∧ same_pair_contents p p'.
Proof.
  destruct key as [persistent hashable]. unfold __getitem__, on_data, dict_getitem.
  monad_unfold.
  destruct (PersistentKeysDict.__getitem__ persistent (under p)) as [[d|e'] u] eqn:E.
  - rewrite getitem_eq in E.
    assert (u = touch (under p)) as ->.
    { repeat case_match; congruence. }
    unfold deref. cbn [under with_under dicts with_dicts].
    destruct (default ∅ (dicts p !! d) !! hashable); [done|].
    intros [= <- <-]. split; [auto|]. apply same_pair_contents_under, same_contents_touch.
  - intros [= <- <-].
    destruct (dict_call_fails_unchanged (DictGet persistent) (under p) e' u) as [He Hs].
    { unfold run_dict_call. monad_unfold. by rewrite E. }
    split; [done|]. by apply same_pair_contents_under.
Qed.

Lemma pair_delitem_fails key p e p' :
  __delitem__ key p = (Raise e, p') →
  (e = TypeError ∨ e = KeyError) ∧ same_pair_contents p p'.
Proof.
  destruct key as [persistent hashable].
  unfold __delitem__, on_data, dict_delitem, dict_truth. monad_unfold.
  destruct (PersistentKeysDict.__getitem__ persistent (under p)) as [[d|e'] u] eqn:E.
  - rewrite getitem_eq in E.
    destruct (objs (under p) !! persistent) as [oid|] eqn:Hk; [|done].
    assert (u = touch (under p) ∧
            (is_Some (staging (under p) !! persistent) ∨ is_Some (_data (under p) !! oid)))
      as [-> Hin].
    { repeat case_match; simplify_eq; eauto. }
    unfold deref. cbn [under with_under dicts with_dicts].
    destruct (default ∅ (dicts p !! d) !! hashable).
    + cbn [under with_under dicts with_dicts]. intros Hfail. exfalso. revert Hfail.
      destruct (bool_decide _); cbn [under with_under dicts with_dicts].
      * destruct (setitem_present (touch (under p)) persistent d oid)
          as (s2 & -> & _); [done|]. done.
      * destruct (delitem_present (touch (under p)) persistent oid)
          as (s2 & ->); [done|done|]. done.
    + intros [= <- <-]. split; [auto|].
      apply same_pair_contents_under, same_contents_touch.
  - intros [= <- <-].
    destruct (dict_call_fails_unchanged (DictGet persistent) (under p) e' u) as [He Hs].
    { unfold run_dict_call. monad_unfold. by rewrite E. }
    split; [done|]. by apply same_pair_contents_under.
Qed.

(** On a secondary that can be hashed the methods are those of
    [PersistentPairKeysDict]. *)
Lemma setitem_hashable (k : N) (h : H) value :
  PersistentPairKeysDictAny.__setitem__ (k, Hashable h) value = __setitem__ (k, h) value.
Proof. reflexivity. Qed.

Lemma getitem_hashable (k : N) (h : H) :
  PersistentPairKeysDictAny.__getitem__ (k, Hashable h) = __getitem__ (W:=W) (k, h).
Proof. reflexivity. Qed.

Lemma delitem_hashable (k : N) (h : H) :
  PersistentPairKeysDictAny.__delitem__ (k, Hashable h) = __delitem__ (W:=W) (k, h).
Proof. reflexivity. Qed.

Lemma contains_hashable (k : N) (h : H) :
  PersistentPairKeysDictAny.__contains__ (k, Hashable h) = __contains__ (W:=W) (k, h).
Proof. reflexivity. Qed.

(** A store whose secondary cannot be hashed: [TypeError] in every state.
    Under a primary without [_p_oid] attribute or one the container holds,
    nothing has been written by then; under a new primary, the new inner
    dictionary has been made and stored. *)
Lemma setitem_unhashable (k : N) value p :
  ∃ p', PersistentPairKeysDictAny.__setitem__ (k, Unhashable) value p
          = (Raise TypeError, p') ∧
    match fst (on_data (PersistentKeysDict.__contains__ k) p) with
    | Ok false =>
        dicts p' = <[fresh (dom (dicts p)) := ∅]> (dicts p) ∧
        fst (on_data (PersistentKeysDict.__contains__ k) p') = Ok true
    | _ => same_pair_contents p p'
    end.
Proof.
  unfold PersistentPairKeysDictAny.__setitem__, on_data.
  unfold mbind at 1, M_bind at 1. rewrite contains_eq.
  destruct (objs (under p) !! k) as [oid|] eqn:Hk; last first.
  { eexists. split; [done|]. cbn [fst]. apply same_pair_contents_under, same_contents_refl. }
  unfold new_dict, PersistentPairKeysDictAny.dict_setitem,
    PersistentPairKeysDictAny.hash. monad_unfold.
  destruct (bool_decide (is_Some (staging (under p) !! k))
            || bool_decide (is_Some (_data (under p) !! oid))) eqn:Hb;
    cbn [fst negb under with_under dicts with_dicts].
  - destruct (getitem_present (touch (under p)) k oid) as (d & ->); [done|..].
    { apply orb_true_iff in Hb as [Hb|Hb]; apply bool_decide_eq_true in Hb; auto. }
    cbn [under with_under dicts with_dicts].
    eexists. split; [done|].
    exact (same_pair_contents_under p _ (same_contents_touch (under p))).
  - destruct (setitem_present (touch (under p)) k
                (fresh (dom (dicts p))) oid) as (s2 & -> & Ho & Hin); [done|].
    cbn [under with_under dicts with_dicts].
    destruct (getitem_present s2 k oid) as (d & ->);
      [rewrite Ho; exact Hk|done|].
    cbn [under with_under dicts with_dicts].
    eexists. split; [done|]. split; [done|].
    cbn [under with_under dicts with_dicts].
    rewrite contains_eq. change (objs (touch s2)) with (objs s2).
    change (objs (touch (under p))) with (objs (under p)) in Ho.
    rewrite Ho, Hk. cbn [fst]. f_equal.
    change (staging (touch s2)) with (staging s2).
    change (_data (touch s2)) with (_data s2).
    apply orb_true_iff.
    destruct Hin as [Hin|Hin]; [left|right]; by apply bool_decide_eq_true.
Qed.

(** A new inner dictionary is a change of the contents. *)
Lemma new_dict_changes_contents p p' :
  dicts p' = <[fresh (dom (dicts p)) := ∅]> (dicts p) → ¬ same_pair_contents p p'.
Proof.
  intros E [_ Hd]. rewrite E in Hd.
  apply (f_equal (λ ds, ds !! fresh (dom (dicts p)))) in Hd.
  rewrite lookup_insert_eq in Hd.
  apply (is_fresh (dom (dicts p))), elem_of_dom. by rewrite Hd.
Qed.

Lemma any_setitem_fails (key : N * secondary H) value p e p' :
  PersistentPairKeysDictAny.__setitem__ key value p = (Raise e, p') →
  e = TypeError ∧
  (same_pair_contents p p' ∨
   key.2 = Unhashable ∧
   fst (on_data (PersistentKeysDict.__contains__ key.1) p) = Ok false).
Proof.
  destruct key as [k [h|]].
  - rewrite setitem_hashable. intros E.
    apply pair_setitem_fails in E as [-> ?]. auto.
  - destruct (setitem_unhashable k value p) as (p1 & -> & Hp1).
    intros [= <- <-]. split; [done|]. cbn [fst snd].
    destruct (fst (on_data (PersistentKeysDict.__contains__ k) p)) as [[]|]; auto.
Qed.

Lemma any_getitem_fails (key : N * secondary H) p e p' :
  PersistentPairKeysDictAny.__getitem__ key p = (Raise e, p') →
  (e = TypeError ∨ e = KeyError) ∧ same_pair_contents p p'.
Proof.
  destruct key as [k [h|]].
  - rewrite getitem_hashable. apply pair_getitem_fails.
  - unfold PersistentPairKeysDictAny.__getitem__, on_data,
      PersistentPairKeysDictAny.dict_getitem, PersistentPairKeysDictAny.hash.
    monad_unfold.
    destruct (PersistentKeysDict.__getitem__ k (under p)) as [[d|e'] u] eqn:E.
    + rewrite getitem_eq in E.
      assert (u = touch (under p)) as ->.
      { repeat case_match; congruence. }
      intros [= <- <-]. split; [auto|].
      apply same_pair_contents_under, same_contents_touch.
    + intros [= <- <-].
      destruct (dict_call_fails_unchanged (DictGet k) (under p) e' u) as [He Hs].
      { unfold run_dict_call. monad_unfold. by rewrite E. }
      split; [done|]. by apply same_pair_contents_under.
Qed.

Lemma any_delitem_fails (key : N * secondary H) p e p' :
  PersistentPairKeysDictAny.__delitem__ key p = (Raise e, p') →
  (e = TypeError ∨ e = KeyError) ∧ same_pair_contents p p'.
Proof.
  destruct key as [k [h|]].
  - rewrite delitem_hashable. apply pair_delitem_fails.
  - unfold PersistentPairKeysDictAny.__delitem__, on_data,
      PersistentPairKeysDictAny.dict_delitem, PersistentPairKeysDictAny.hash.
    monad_unfold.
    destruct (PersistentKeysDict.__getitem__ k (under p)) as [[d|e'] u] eqn:E.
    + rewrite getitem_eq in E.
      assert (u = touch (under p)) as ->.
      { repeat case_match; congruence. }
      intros [= <- <-]. split; [auto|].
      apply same_pair_contents_under, same_contents_touch.
    + intros [= <- <-].
      destruct (dict_call_fails_unchanged (DictGet k) (under p) e' u) as [He Hs].
      { unfold run_dict_call. monad_unfold. by rewrite E. }
      split; [done|]. by apply same_pair_contents_under.
Qed.

(** C10, amended.  When [__setitem__], [__getitem__] or [__delitem__] of
    [PersistentKeysDict] or of [PersistentPairKeysDict] raises, the
    exception is [TypeError] or [KeyError], and the objects, the
    connection, both partitions and every inner dictionary are what they
    were before the call, unless the call is a store into the pair
    dictionary whose secondary cannot be hashed and whose primary has a
    [_p_oid] attribute and is not in the container.  The secondary of the
    pair dictionary is any object, hashable or not. *)
Theorem failing_call_changes_nothing :
  (∀ V (c : dict_call V) (s s' : State V) e,
     run_dict_call c s = (Raise e, s') →
     (e = TypeError ∨ e = KeyError) ∧ same_contents s s') ∧
  (∀ (c : pair_call H W) (p p' : PairState H W) e,
     run_pair_call c p = (Raise e, p') →
     (e = TypeError ∨ e = KeyError) ∧
     (same_pair_contents p p' ∨ stores_unhashable_under_new_primary c p)).
Proof.
  split.
  - intros V c s s' e. apply dict_call_fails_unchanged.
  - intros [key value|key|key] p p' e; unfold run_pair_call; monad_unfold.
    + destruct (PersistentPairKeysDictAny.__setitem__ key value p)
        as [[[]|e'] p1] eqn:E; [done|].
      intros [= <- <-]. apply any_setitem_fails in E as [-> [?|[Hu Hc]]]; [auto|].
      split; [auto|]. right. destruct key as [k x]. simpl in Hu, Hc. subst x.
      by exists k, value.
    + destruct (PersistentPairKeysDictAny.__getitem__ key p) as [[w|e'] p1] eqn:E; [done|].
      intros [= <- <-]. apply any_getitem_fails in E as [? ?]. auto.
    + destruct (PersistentPairKeysDictAny.__delitem__ key p) as [[[]|e'] p1] eqn:E; [done|].
      intros [= <- <-]. apply any_delitem_fails in E as [? ?]. auto.
Qed.
End pair_atomic.

(** ** Invariant I4 of the pair dictionary *)

Section pair_invariant.
Context {order : DictOrder} {H W : Type} `{Countable H}.
Implicit Types (p : PairState H W) (key : N * H) (value : W).
Import PersistentPairKeysDict.

Lemma on_data_eq {A} (m : M (State N) A) p r u :
  m (under p) = (r, u) → on_data m p = (r, with_under p u).
Proof. unfold on_data. by intros ->. Qed.

Lemma pair_wf_init (o : gmap N (option N)) (j : Jar) :
  (∀ k oid, o !! k = Some (Some oid) → registry j !! oid = Some k) →
  (∀ oid k, registry j !! oid = Some k → o !! k = Some (Some oid)) →
  (∀ oid k, registry j !! oid = Some k → (oid < next_oid j)%N) →
  pair_wf (H:=H) (W:=W) (__init__ o j).
Proof.
  intros H1 H2 H3. split; simpl.
  - by apply wf_init.
  - intros _ i kv. unfold staging. simpl. by rewrite lookup_empty.
  - intros k d. unfold lookup_key, staging. simpl. rewrite lookup_empty.
    destruct (o !! k); simpl; by rewrite ?lookup_empty.
  - intros k k' d. unfold lookup_key, staging. simpl. rewrite lookup_empty.
    destruct (o !! k); simpl; by rewrite ?lookup_empty.
Qed.

(** [__setitem__] keeps the invariant; the pair is stored, under the
    dictionary the primary had if it had one. *)
Lemma pair_setitem_wf key value p p' :
  pair_wf p → __setitem__ key value p = (Ok (), p') →
  pair_wf p' ∧
  ∃ d, lookup_key (under p') key.1 = Some d ∧
       deref p' d !! key.2 = Some value ∧
       (∀ k, k ≠ key.1 → lookup_key (under p') k = lookup_key (under p) k) ∧
       (∀ d', d' ≠ d → dicts p' !! d' = dicts p !! d').
Proof.
  destruct key as [k h]. intros [Hwf Hns Hne Hun].
  unfold __setitem__. unfold mbind at 1, M_bind at 1.
  destruct (objs (under p) !! k) as [oid|] eqn:Hk; last first.
  { erewrite on_data_eq by (rewrite contains_eq, Hk; done). done. }
  erewrite on_data_eq by (by apply contains_lookup).
  assert (wf (touch (under p))) as Hwf1 by (by apply wf_touch).
  destruct (lookup_key (under p) k) as [d|] eqn:Hl.
  - rewrite bool_decide_eq_true_2 by eauto. cbn [negb].
    unfold mbind at 1, M_bind at 1. unfold mret at 1, M_ret at 1.
    unfold mbind at 1, M_bind at 1.
    erewrite on_data_eq; last first.
    { cbn [under with_under]. apply getitem_lookup. eauto. }
    change (lookup_key (touch (under p)) k) with (lookup_key (under p) k).
    rewrite Hl. unfold dict_setitem. monad_unfold. cbn [under with_under dicts with_dicts].
    destruct (setitem_present (touch (touch (under p))) k d oid) as (u' & E & _); [done|].
    erewrite on_data_eq by (cbn [under with_under dicts with_dicts]; exact E).
    intros [= <-].
    destruct (setitem_lookup _ _ _ _ Hwf1 Hns E) as (Hwf' & Hns' & Ho' & Hj' & Hp' & Hlk & Hlo).
    assert (∀ k0, lookup_key u' k0 = lookup_key (under p) k0) as Hsame.
    { intros k0. destruct (decide (k0 = k)) as [->|Hne0]; [congruence|].
      by rewrite Hlo. }
    destruct (Hne k d Hl) as (m & Hm & Hmne).
    split; [split|]; cbn [under with_under dicts with_dicts].
    + done.
    + done.
    + intros k0 d0. rewrite Hsame. intros Hl0.
      destruct (decide (d0 = d)) as [->|Hd].
      * rewrite lookup_insert_eq. eexists. split; [done|]. apply insert_non_empty.
      * rewrite lookup_insert_ne by done. by eapply Hne.
    + intros k0 k0' d0. rewrite !Hsame. apply Hun.
    + exists d. split; [by rewrite Hsame|]. split; [|split].
      * unfold deref at 1. cbn [under dicts with_under with_dicts fst snd].
        rewrite lookup_insert_eq. simpl. apply lookup_insert_eq.
      * intros k0 _. apply Hsame.
      * intros d' Hd'. by rewrite lookup_insert_ne.
  - rewrite bool_decide_eq_false_2 by (by intros [? ?]). cbn [negb].
    set (d0 := fresh (dom (dicts p))).
    assert (dicts p !! d0 = None) as Hfresh.
    { apply not_elem_of_dom. apply is_fresh. }
    unfold new_dict. unfold mbind at 1 2, M_bind at 1 2.
    unfold mbind at 1, M_bind at 1.
    cbn [under with_under dicts with_dicts]. fold d0.
    destruct (setitem_present (touch (under p)) k d0 oid) as (u1 & E1 & _); [done|].
    erewrite on_data_eq by (cbn [under with_under dicts with_dicts]; exact E1).
    destruct (setitem_lookup _ _ _ _ Hwf1 Hns E1)
      as (Hwf2 & Hns2 & Ho2 & Hj2 & Hp2 & Hlk2 & Hlo2).
    unfold mbind at 1, M_bind at 1.
    erewrite on_data_eq; last first.
    { cbn [under with_under]. apply getitem_lookup. rewrite Ho2. eauto. }
    rewrite Hlk2. unfold dict_setitem. monad_unfold.
    cbn [under with_under dicts with_dicts].
    assert (wf (touch u1)) as Hwf3 by (by apply wf_touch).
    destruct (setitem_present (touch u1) k d0 oid) as (u' & E & _).
    { change (objs (touch u1)) with (objs u1). by rewrite Ho2. }
    erewrite on_data_eq by (cbn [under with_under dicts with_dicts]; exact E).
    intros [= <-].
    destruct (setitem_lookup _ _ _ _ Hwf3 Hns2 E)
      as (Hwf' & Hns' & Ho' & Hj' & Hp' & Hlk & Hlo).
    change (lookup_key (touch u1)) with (lookup_key u1) in Hlo.
    change (lookup_key (touch (under p))) with (lookup_key (under p)) in Hlo2.
    assert (∀ k0 d', k0 ≠ k → lookup_key u' k0 = Some d' → d' ≠ d0) as Hold.
    { intros k0 d' Hne0. rewrite Hlo, Hlo2 by done. intros Hl0 ->.
      destruct (Hne _ _ Hl0) as (m & Hm & _). congruence. }
    split; [split|]; cbn [under with_under dicts with_dicts].
    + done.
    + done.
    + intros k0 d'. destruct (decide (k0 = k)) as [->|Hne0].
      * rewrite Hlk. intros [= <-]. rewrite lookup_insert_eq.
        eexists. split; [done|]. apply insert_non_empty.
      * intros Hl0. pose proof (Hold _ _ Hne0 Hl0) as Hd'.
        rewrite !lookup_insert_ne by done.
        rewrite Hlo, Hlo2 in Hl0 by done. by eapply Hne.
    + intros k0 k0' d'.
      destruct (decide (k0 = k)) as [->|Hne0], (decide (k0' = k)) as [->|Hne0']; [done|..].
      * rewrite Hlk. intros [= <-] Hl0. by destruct (Hold _ _ Hne0' Hl0).
      * rewrite Hlk. intros Hl0 [= <-]. by destruct (Hold _ _ Hne0 Hl0).
      * rewrite !Hlo, !Hlo2 by done. apply Hun.
    + exists d0. split; [done|]. split; [|split].
      * unfold deref at 1. cbn [under dicts with_under with_dicts fst snd].
        rewrite lookup_insert_eq. simpl. apply lookup_insert_eq.
      * intros k0 Hne0. simpl in Hne0. by rewrite Hlo, Hlo2.
      * intros d' Hd'. by rewrite !lookup_insert_ne.
Qed.

(** [__delitem__] keeps the invariant; the primary goes with its last
    pair, and otherwise keeps its dictionary without the pair. *)
Lemma pair_delitem_wf key p p' :
  pair_wf p → __delitem__ key p = (Ok (), p') →
  pair_wf p' ∧
  ∃ d, lookup_key (under p) key.1 = Some d ∧
       is_Some (deref p d !! key.2) ∧
       (if decide (delete key.2 (deref p d) = ∅)
        then lookup_key (under p') key.1 = None
        else lookup_key (under p') key.1 = Some d ∧
             deref p' d = delete key.2 (deref p d)) ∧
       (∀ k, k ≠ key.1 → lookup_key (under p') k = lookup_key (under p) k) ∧
       (∀ d', d' ≠ d → dicts p' !! d' = dicts p !! d').
Proof.
  destruct key as [k h]. intros [Hwf Hns Hne Hun].
  unfold __delitem__. unfold mbind at 1, M_bind at 1.
  destruct (objs (under p) !! k) as [oid|] eqn:Hk; last first.
  { erewrite on_data_eq by (rewrite getitem_eq, Hk; done). done. }
  erewrite on_data_eq by (apply getitem_lookup; eauto).
  assert (wf (touch (under p))) as Hwf1 by (by apply wf_touch).
  destruct (lookup_key (under p) k) as [d|] eqn:Hl; [|done].
  destruct (Hne k d Hl) as (m & Hm & Hmne).
  assert (deref p d = m) as Hderef by (unfold deref; by rewrite Hm).
  unfold mbind at 1, M_bind at 1. unfold dict_delitem at 1.
  unfold deref at 1 2. cbn [under with_under dicts with_dicts]. rewrite Hm.
  change (default ∅ (Some m)) with m.
  destruct (m !! h) as [w|] eqn:Hh; [|done].
  unfold dict_truth. monad_unfold. unfold deref at 1.
  cbn [under with_under dicts with_dicts].
  cbn [fst snd].
  destruct (bool_decide _) eqn:Hb.
  - apply bool_decide_eq_true in Hb. rewrite lookup_insert_eq in Hb.
    change (delete h m ≠ ∅) in Hb.
    destruct (setitem_present (touch (under p)) k d oid) as (u' & E & _); [done|].
    erewrite on_data_eq by (cbn [under with_under dicts with_dicts]; exact E).
    intros [= <-].
    destruct (setitem_lookup _ _ _ _ Hwf1 Hns E) as (Hwf' & Hns' & Ho' & Hj' & Hp' & Hlk & Hlo).
    assert (∀ k0, lookup_key u' k0 = lookup_key (under p) k0) as Hsame.
    { intros k0. destruct (decide (k0 = k)) as [->|Hne0]; [congruence|].
      by rewrite Hlo. }
    split; [split|]; cbn [under with_under dicts with_dicts].
    + done.
    + done.
    + intros k0 d0. rewrite Hsame. intros Hl0.
      destruct (decide (d0 = d)) as [->|Hd].
      * rewrite lookup_insert_eq. eauto.
      * rewrite lookup_insert_ne by done. by eapply Hne.
    + intros k0 k0' d0. rewrite !Hsame. apply Hun.
    + exists d. rewrite Hderef. split; [done|]. split; [eauto|]. split; [|split].
      * rewrite decide_False by done.
        split; [by rewrite Hsame|]. unfold deref.
        cbn [under with_under dicts with_dicts]. by rewrite lookup_insert_eq.
      * intros k0 _. apply Hsame.
      * intros d' Hd'. by rewrite lookup_insert_ne.
  - apply bool_decide_eq_false in Hb. rewrite lookup_insert_eq in Hb.
    assert (delete h m = ∅) as Hempty.
    { destruct (decide (delete h m = ∅)); [done|]. by destruct Hb. }
    destruct (delitem_present (touch (under p)) k oid) as (u' & E); [done|..].
    { change (staging (touch (under p))) with (staging (under p)).
      change (_data (touch (under p))) with (_data (under p)).
      unfold lookup_key in Hl. rewrite Hk in Hl. simpl in Hl.
      destruct (staging (under p) !! k); eauto. }
    erewrite on_data_eq by (cbn [under with_under dicts with_dicts]; exact E).
    intros [= <-].
    destruct (delitem_lookup _ _ _ Hwf1 Hns E) as (Hwf' & Hns' & Ho' & Hj' & Hp' & Hlk & Hlo).
    change (lookup_key (touch (under p))) with (lookup_key (under p)) in Hlo.
    assert (∀ k0 d', lookup_key u' k0 = Some d' → k0 ≠ k ∧ d' ≠ d) as Hold.
    { intros k0 d' Hl0. destruct (decide (k0 = k)) as [->|Hne0]; [congruence|].
      split; [done|]. intros ->. rewrite Hlo in Hl0 by done.
      apply Hne0. by eapply Hun. }
    split; [split|]; cbn [under with_under dicts with_dicts].
    + done.
    + done.
    + intros k0 d' Hl0. destruct (Hold _ _ Hl0) as [Hne0 Hd'].
      rewrite lookup_insert_ne by done. rewrite Hlo in Hl0 by done. by eapply Hne.
    + intros k0 k0' d' Hl0 Hl0'.
      destruct (Hold _ _ Hl0) as [Hne0 _], (Hold _ _ Hl0') as [Hne0' _].
      rewrite Hlo in Hl0, Hl0' by done. by eapply Hun.
    + exists d. rewrite Hderef. split; [done|]. split; [eauto|]. split; [|split].
      * by rewrite decide_True.
      * intros k0 Hne0. by apply Hlo.
      * intros d' Hd'. by rewrite lookup_insert_ne.
Qed.

(** The flush of the underlying dictionary keeps the invariant. *)
Lemma pair_getstate_wf p r p' :
  pair_wf p →
  on_data PersistentKeysDict.__getstate__ p = (Ok r, p') →
  pair_wf p'.
Proof.
  intros [Hwf Hns Hne Hun]. unfold on_data.
  destruct (PersistentKeysDict.__getstate__ (under p)) as [r' u] eqn:E.
  intros [= -> <-].
  destruct (getstate_lookup _ _ _ Hwf E) as (Hwf' & Hns' & _ & Hsame).
  split; cbn [under with_under dicts with_dicts]; [done|done|..].
  - intros k d. rewrite Hsame. apply Hne.
  - intros k k' d. rewrite !Hsame. apply Hun.
Qed.

(** What the underlying dictionary iterates over: the keys it holds a
    value for. *)
Lemma iter_lookup {V} (s : State V) ks s' :
  wf s → no_stale s →
  PersistentKeysDict.__iter__ s = (Ok ks, s') →
  ∀ k, k ∈ ks ↔ is_Some (lookup_key s k).
Proof.
  intros Hwf Hns E k.
  destruct (keys_spec s Hwf)
    as (persisted & staged & Ek & Ei & _ & Hres & _ & Hdom & _ & _ & Hst).
  rewrite Ei, Ek in E. injection E as <- <-.
  rewrite elem_of_app, Hst. unfold lookup_key. split.
  - intros [Hp|[kv ->]]; [|eauto].
    apply list_elem_of_lookup in Hp as [i Hi].
    destruct (Forall2_lookup_r _ _ _ _ _ Hres Hi) as (oid & Hoid & o & -> & Hr).
    apply list_elem_of_lookup_2, Hdom in Hoid.
    destruct (wf_persisted _ Hwf _ Hoid) as (Hj & _).
    pose proof (wf_resolved _ Hwf _ _ Hr) as Hk.
    destruct (staging s !! k) as [kv|] eqn:Hs; [eauto|].
    by rewrite Hk.
  - destruct (staging s !! k) as [kv|] eqn:Hs; [eauto|].
    destruct (objs s !! k) as [oid|] eqn:Hk; simpl; [|by intros [? ?]].
    intros Hd. left.
    destruct (wf_persisted _ Hwf _ Hd) as (_ & o & k' & -> & Hr).
    pose proof (wf_registered _ Hwf _ _ Hk) as Hr'.
    apply Hdom, list_elem_of_lookup in Hd as [i Hi].
    destruct (Forall2_lookup_l _ _ _ _ _ Hres Hi) as (k0 & Hk0 & o0 & [= <-] & Hr0).
    apply list_elem_of_lookup. exists i. congruence.
Qed.

(** Invariant I4: every primary the underlying dictionary iterates over
    has a dictionary that is not empty. *)
Lemma pair_primaries_nonempty p ks p1 :
  pair_wf p →
  on_data PersistentKeysDict.__iter__ p = (Ok ks, p1) →
  ∀ k, k ∈ ks → ∃ d m, lookup_key (under p) k = Some d ∧
                        dicts p !! d = Some m ∧ m ≠ ∅.
Proof.
  intros [Hwf Hns Hne Hun]. unfold on_data.
  destruct (PersistentKeysDict.__iter__ (under p)) as [r u] eqn:E.
  intros [= -> <-] k Hk.
  apply (iter_lookup _ _ _ Hwf Hns E) in Hk as [d Hd].
  destruct (Hne _ _ Hd) as (m & ? & ?). eauto.
Qed.

(** After the last pair under a primary is deleted, the primary is not
    iterated any more. *)
Lemma pair_delitem_last key w p p' ks p1 :
  pair_wf p →
  (∀ d, lookup_key (under p) key.1 = Some d → deref p d = {[key.2 := w]}) →
  __delitem__ key p = (Ok (), p') →
  on_data PersistentKeysDict.__iter__ p' = (Ok ks, p1) →
  key.1 ∉ ks.
Proof.
  intros Hp Hlast Ed. destruct (pair_delitem_wf _ _ _ Hp Ed)
    as ([Hwf' Hns' _ _] & d & Hl & _ & Hcase & _).
  rewrite (Hlast d Hl), delete_singleton_eq in Hcase.
  rewrite decide_True in Hcase by done.
  unfold on_data. destruct (PersistentKeysDict.__iter__ (under p')) as [r u] eqn:E.
  intros [= -> <-] Hin.
  apply (iter_lookup _ _ _ Hwf' Hns' E) in Hin as [? ?]. congruence.
Qed.
End pair_invariant.

(** ** The entry that [__setitem__] leaves behind *)

Section stale_entry.
Import PersistentKeysDict.

(** The state in which the stores below go wrong is one the methods
    and the connection lead to; what it lacks is [no_stale]. *)
Lemma staged_then_attached_wf :
  wf staged_then_attached ∧ ¬ no_stale staged_then_attached.
Proof.
  split.
  - assert (staged_then_attached =
      snd (jar_add 1%N (snd (__setitem__ 1%N "old" attached_dict_state))))
      as -> by (by vm_compute).
    apply wf_jar_add_any, wf_setitem_any, wf_attach_container, wf_new_state.
  - intros Hns. specialize (Hns ltac:(by vm_compute) 1%N (1%N, "old") ltac:(by vm_compute)).
    by vm_compute in Hns.
Qed.

(** C1. The code does not keep a key in one partition.  A key stored
    while it has no identifier is staged; once it has an identifier,
    storing it again writes the persisted partition and leaves the staged
    entry, which [__getitem__] prefers: the old value comes back and
    [__len__] counts the key twice.  The same happens when it is the
    container that is added to the connection between the two stores. *)
Theorem setitem_leaves_stale_entry :
  fst (store_attach_store attached_dict_state) = Ok ("v1", 2) ∧
  staging (snd (store_attach_store attached_dict_state)) !! 1%N = Some (1%N, "v1") ∧
  objs (snd (store_attach_store attached_dict_state)) !! 1%N = Some (Some 10%N) ∧
  _data (snd (store_attach_store attached_dict_state)) !! Some 10%N = Some "v2" ∧
  fst (store_attach_container_store new_dict_state) = Ok ("v1", 2).
Proof. vm_compute. done. Qed.

(** C3. In a state reached by storing a key and adding it to the
    connection afterwards, key and container both have their connection,
    and yet the value read right after a store is the old one. *)
Theorem setitem_getitem_stale :
  objs staged_then_attached !! 1%N = Some (Some 10%N) ∧
  _p_jar staged_then_attached = Some () ∧
  fst ((__setitem__ 1%N "new" ;; __getitem__ 1%N) staged_then_attached) = Ok "old".
Proof. vm_compute. done. Qed.

(** C8, as the spec words it, fails: with a dictionary that iterates in
    the order of its slots, the keys 2 and 1 inserted in this order come
    out as 1, 2. *)
Lemma keys_not_in_insertion_order :
  fst ((insert_all [2%N; 1%N] "v" ;; keys (order:=slot_order)) new_dict_state)
    = Ok [1%N; 2%N] ∧
  ¬ keys_in_insertion_order slot_order two_objects new_jar [2%N; 1%N].
Proof.
  split; [by vm_compute|].
  unfold keys_in_insertion_order. vm_compute. by intros [=].
Qed.

(** C10, as the spec words it, fails: a store whose secondary is a list,
    under a primary that the container does not hold, raises [TypeError]
    when the new inner dictionary has been made and stored.  The primary
    is in the underlying dictionary afterwards, with an empty inner
    dictionary. *)
Lemma unhashable_store_not_atomic :
  fst (run_pair_call (PairSet (2%N, Unhashable) 9) one_pair_state) = Raise TypeError ∧
  ¬ atomic_failure (PairSet (2%N, Unhashable) 9) one_pair_state ∧
  fst (PersistentPairKeysDict.on_data (__contains__ 2%N) one_pair_state) = Ok false ∧
  fst (PersistentPairKeysDict.on_data (__contains__ 2%N)
         (snd (run_pair_call (PairSet (2%N, Unhashable) 9) one_pair_state))) = Ok true ∧
  fst (PersistentPairKeysDict.__contains__ (2%N, "a")
         (snd (run_pair_call (PairSet (2%N, Unhashable) 9) one_pair_state))) = Ok false ∧
  dicts (snd (run_pair_call (PairSet (2%N, Unhashable) 9) one_pair_state)) !! 1%N
    = Some ∅.
Proof.
  split; [by vm_compute|]. split; [|by vm_compute].
  intros Hs.
  destruct (Hs TypeError
              (snd (run_pair_call (PairSet (2%N, Unhashable) 9) one_pair_state))
              ltac:(by vm_compute)) as [_ Hd].
  apply (f_equal (λ ds, ds !! 1%N)) in Hd. by vm_compute in Hd.
Qed.

(** C5. The pair dictionary can keep a primary with an empty inner
    dictionary.  After the last pair under the primary is deleted, the
    primary is still iterated by the underlying dictionary and found in
    it, the dictionary stored for it is empty, and [len] is 0. *)
Theorem pair_delitem_leaves_empty_dict :
  fst (pair_store_attach_store_delete slot_order attached_pair_state)
    = Ok ([1%N], true, ∅, 0).
Proof. by vm_compute. Qed.
End stale_entry.

(** ** The statements at concrete states *)

Section instances.
Import PersistentKeysDict.

Lemma wf_two_staged : wf two_staged.
Proof.
  assert (two_staged =
    snd (__setitem__ 2%N "y" (snd (__setitem__ 1%N "x" attached_dict_state))))
    as -> by (by vm_compute).
  do 2 apply wf_setitem_any.
  apply wf_attach_container, wf_new_state.
Qed.

Lemma getstate_unattached_fails_witness :
  _p_jar staged_unattached = None ∧
  __getstate__ (order:=slot_order) staged_unattached
    = (Raise AssertionError, staged_unattached).
Proof.
  split; [reflexivity|].
  apply (getstate_unattached_fails staged_unattached). reflexivity.
Defined.

Lemma key_without_p_oid_rejected_witness :
  objs new_dict_state !! 3%N = None ∧
  __setitem__ 3%N "x" new_dict_state = (Raise TypeError, new_dict_state) ∧
  __getitem__ 3%N new_dict_state = (Raise TypeError, new_dict_state) ∧
  __delitem__ 3%N new_dict_state = (Raise TypeError, new_dict_state) ∧
  __contains__ 3%N new_dict_state = (Raise TypeError, new_dict_state).
Proof.
  split; [reflexivity|].
  apply (key_without_p_oid_rejected new_dict_state 3%N "x").
  reflexivity.
Defined.

Lemma absent_key_not_found_witness :
  objs new_dict_state !! 1%N = Some None ∧
  __getitem__ 1%N new_dict_state = (Raise KeyError, touch new_dict_state) ∧
  __delitem__ 1%N new_dict_state = (Raise KeyError, touch new_dict_state).
Proof.
  split; [reflexivity|].
  apply (absent_key_not_found new_dict_state 1%N None);
    reflexivity.
Defined.

Lemma add_idempotent_witness :
  is_Some (objs new_set_state !! 1%N) ∧
  ∃ s1, PersistentKeysSet.add 1%N new_set_state = (Ok (), s1) ∧
        PersistentKeysSet.add 1%N s1 = (Ok (), s1) ∧
        (PersistentKeysSet.add 1%N ;; PersistentKeysSet.__len__) s1
          = PersistentKeysSet.__len__ s1.
Proof.
  assert (is_Some (objs new_set_state !! 1%N)) as Hk by (by eexists).
  split; [exact Hk|].
  destruct (add_idempotent new_set_state 1%N Hk) as (s1 & E1 & _ & E2 & E3).
  exists s1. auto.
Defined.

Lemma failing_call_changes_nothing_witness :
  (fst (run_dict_call (DictDel 2%N) staged_unattached) = Raise KeyError ∧
   same_contents staged_unattached
     (snd (run_dict_call (DictDel 2%N) staged_unattached))) ∧
  (fst (run_pair_call (PairSet (1%N, Unhashable) 9) one_pair_state) = Raise TypeError ∧
   same_pair_contents one_pair_state
     (snd (run_pair_call (PairSet (1%N, Unhashable) 9) one_pair_state))) ∧
  (fst (run_pair_call (PairSet (3%N, Hashable "b") 9) one_pair_state) = Raise TypeError ∧
   same_pair_contents one_pair_state
     (snd (run_pair_call (PairSet (3%N, Hashable "b") 9) one_pair_state))) ∧
  (fst (run_pair_call (PairDel (1%N, Hashable "z")) one_pair_state) = Raise KeyError ∧
   same_pair_contents one_pair_state
     (snd (run_pair_call (PairDel (1%N, Hashable "z")) one_pair_state))).
Proof.
  destruct (failing_call_changes_nothing (H:=string) (W:=nat)) as [Hd Hp].
  split; [|split; [|split]]; (split; [by vm_compute|]).
  - apply (Hd string (DictDel 2%N) staged_unattached _ KeyError). by vm_compute.
  - destruct (Hp (PairSet (1%N, Unhashable) 9) one_pair_state
                (snd (run_pair_call (PairSet (1%N, Unhashable) 9) one_pair_state))
                TypeError ltac:(by vm_compute))
      as [_ [Hs|(k & v & Hc & Hin)]]; [exact Hs|].
    injection Hc as <- _. by vm_compute in Hin.
  - destruct (Hp (PairSet (3%N, Hashable "b") 9) one_pair_state
                (snd (run_pair_call (PairSet (3%N, Hashable "b") 9) one_pair_state))
                TypeError ltac:(by vm_compute))
      as [_ [Hs|(k & v & Hc & Hin)]]; [exact Hs|]. discriminate Hc.
  - destruct (Hp (PairDel (1%N, Hashable "z")) one_pair_state
                (snd (run_pair_call (PairDel (1%N, Hashable "z")) one_pair_state))
                KeyError ltac:(by vm_compute))
      as [_ [Hs|(k & v & Hc & Hin)]]; [exact Hs|]. discriminate Hc.
Defined.

Lemma getstate_moves_staging_witness :
  wf two_staged ∧ _p_jar two_staged ≠ None ∧
  ∃ s', __getstate__ (order:=slot_order) two_staged = (Ok (_data s'), s') ∧
        staging s' = ∅ ∧
        (∃ o, objs s' !! 1%N = Some (Some o) ∧ _data s' !! Some o = Some "x") ∧
        (∃ o, objs s' !! 2%N = Some (Some o) ∧ _data s' !! Some o = Some "y").
Proof.
  split; [exact wf_two_staged|]. split; [discriminate|].
  destruct (getstate_moves_staging (order:=slot_order) two_staged wf_two_staged)
    as (s' & E & Hs & _ & Hmoved & _); [discriminate|].
  exists s'. split; [exact E|]. split; [exact Hs|]. split.
  - destruct (Hmoved 1%N "x") as (o & ? & ? & ?); [reflexivity|eauto].
  - destruct (Hmoved 2%N "y") as (o & ? & ? & ?); [reflexivity|eauto].
Defined.

Lemma wf_flushed_and_staged : wf (flushed_and_staged slot_order).
Proof.
  apply wf_setitem_any, wf_getstate_any, wf_setitem_any.
  apply wf_attach_container, wf_new_state.
Qed.

Lemma keys_persisted_then_staged_witness :
  wf (flushed_and_staged slot_order) ∧
  ∃ persisted staged,
    keys (order:=slot_order) (flushed_and_staged slot_order)
      = (Ok (persisted ++ staged), touch (flushed_and_staged slot_order)) ∧
    Forall2 (resolves (flushed_and_staged slot_order))
      (iterkeys (order:=slot_order) (_data (flushed_and_staged slot_order))) persisted ∧
    NoDup staged ∧
    (∀ k, k ∈ staged ↔ is_Some (staging (flushed_and_staged slot_order) !! k)).
Proof.
  split; [exact wf_flushed_and_staged|].
  destruct (keys_persisted_then_staged (order:=slot_order) _ wf_flushed_and_staged)
    as (persisted & staged & E & _ & _ & Hres & _ & _ & _ & Hnd & Hel).
  exists persisted, staged. auto.
Defined.

(** There the persisted key 1 comes before the staged key 2. *)
Lemma keys_flushed_and_staged :
  fst (keys (order:=slot_order) (flushed_and_staged slot_order)) = Ok [1%N; 2%N].
Proof. by vm_compute. Qed.
End instances.

(** * Further properties of [PersistentKeysDict] *)

Section dict_reads.
Context {order : DictOrder} {V : Type}.
Implicit Types (s : State V) (key : N) (value : V).
Import PersistentKeysDict.

(** Resolving identifiers reads the connection and writes nothing. *)
Lemma comprehension_jar_get_state (j : option unit) (l : list (option N)) s :
  snd (comprehension (jar_get j) l s) = s.
Proof.
  induction l as [|oid l IH]; [done|]. simpl. monad_unfold.
  unfold jar_get at 1. destruct j; [|done].
  destruct (oid ≫= _); [|done].
  destruct (comprehension _ l s) as [[ks|e] s1]; simpl in *; congruence.
Qed.

Lemma keys_state s : snd (keys s) = s ∨ snd (keys s) = touch s.
Proof.
  unfold keys. monad_unfold.
  pose proof (comprehension_jar_get_state (_p_jar s) (iterkeys (_data s)) s) as E.
  destruct (comprehension _ _ s) as [[ks|e] s1]; simpl in E; subst s1.
  - right. by rewrite tmpdata_eq.
  - by left.
Qed.

(** X1. [__contains__] and [__getitem__] agree in every state: for a key
    with a [_p_oid] attribute, [key in d] is true exactly when [d[key]]
    returns a value, and false exactly when it raises [KeyError]. *)
Theorem contains_iff_getitem s key :
  is_Some (objs s !! key) →
  (fst (__contains__ key s) = Ok true ↔ ∃ v, fst (__getitem__ key s) = Ok v) ∧
  (fst (__contains__ key s) = Ok false ↔ fst (__getitem__ key s) = Raise KeyError).
Proof.
  intros Hk. rewrite contains_lookup, getitem_lookup by done. simpl.
  destruct (lookup_key s key) as [v|]; simpl.
  - split; split; try done; eauto.
  - split; split; try done. by intros [? ?].
Qed.

(** X2. The reading methods write neither partition: whatever
    [__getitem__], [__contains__], [__len__], [keys] and [__iter__]
    return or raise, the objects, the connection and both partitions are
    afterwards what they were. *)
Theorem reads_change_nothing s key :
  same_contents s (snd (__getitem__ key s)) ∧
  same_contents s (snd (__contains__ key s)) ∧
  same_contents s (snd (__len__ s)) ∧
  same_contents s (snd (keys s)) ∧
  same_contents s (snd (__iter__ s)).
Proof.
  rewrite getitem_eq, contains_eq, len_eq.
  assert (same_contents s (snd (keys s))) as Hkeys.
  { destruct (keys_state s) as [-> | ->];
      auto using same_contents_refl, same_contents_touch. }
  split; [|split; [|split; [|split]]]; try exact Hkeys;
    repeat case_match; simpl; auto using same_contents_refl, same_contents_touch.
Qed.

(** [keys] in terms of the value held for a key. *)
Lemma keys_lookup s :
  wf s →
  ∃ l, keys s = (Ok l, touch s) ∧ __iter__ s = keys s ∧
       length l = size (_data s) + size (staging s) ∧
       ∀ k, k ∈ l ↔ is_Some (lookup_key s k).
Proof.
  intros Hwf.
  destruct (keys_spec s Hwf)
    as (persisted & staged & Ek & Ei & _ & Hres & _ & Hdom & -> & _ & Hst).
  exists (persisted ++ (itervalues (staging s)).*1).
  split; [done|]. split; [done|]. split.
  - rewrite length_app, <-(Forall2_length _ _ _ Hres).
    unfold iterkeys, itervalues. rewrite !length_fmap.
    by rewrite !dict_items_perm, !length_map_to_list.
  - intros k. rewrite elem_of_app, Hst. unfold lookup_key. split.
    + intros [Hp|[kv ->]]; [|eauto].
      apply list_elem_of_lookup in Hp as [i Hi].
      destruct (Forall2_lookup_r _ _ _ _ _ Hres Hi) as (oid & Hoid & o & -> & Hr).
      apply list_elem_of_lookup_2, Hdom in Hoid.
      pose proof (wf_resolved _ Hwf _ _ Hr) as Hk.
      destruct (staging s !! k) as [kv|] eqn:Hs; [eauto|]. by rewrite Hk.
    + destruct (staging s !! k) as [kv|] eqn:Hs; [eauto|].
      destruct (objs s !! k) as [oid|] eqn:Hk; simpl; [|by intros [? ?]].
      intros Hd. left.
      destruct (wf_persisted _ Hwf _ Hd) as (_ & o & k' & -> & Hr).
      pose proof (wf_registered _ Hwf _ _ Hk) as Hr'.
      apply Hdom, list_elem_of_lookup in Hd as [i Hi].
      destruct (Forall2_lookup_l _ _ _ _ _ Hres Hi) as (k0 & Hk0 & o0 & [= <-] & Hr0).
      apply list_elem_of_lookup. exists i. congruence.
Qed.

(** X3. [len(d)] is the number of keys that [d.keys()] returns, and
    [keys()] does return, with or without connection, in every state the
    methods keep the container in. *)
Theorem len_is_length_of_keys s :
  wf s →
  ∃ l, fst (keys s) = Ok l ∧ fst (__iter__ s) = Ok l ∧
       fst (__len__ s) = Ok (length l).
Proof.
  intros Hwf. destruct (keys_lookup s Hwf) as (l & E & Ei & Hlen & _).
  exists l. rewrite Ei, E, len_eq. simpl. by rewrite Hlen.
Qed.
End dict_reads.

Section dict_writes.
Context {order : DictOrder} {V : Type}.
Implicit Types (s : State V) (key : N) (value : V).
Import PersistentKeysDict.

Lemma Forall2_NoDup {A B} (R : A → B → Prop) (l : list A) (l' : list B) :
  (∀ x x' y, R x y → R x' y → x = x') →
  Forall2 R l l' → NoDup l → NoDup l'.
Proof.
  intros Hinj HR. induction HR as [|x y l l' Hxy HR IH]; [intros; constructor|].
  intros [Hx Hnd]%NoDup_cons. apply NoDup_cons. split; [|by apply IH].
  intros Hy. apply list_elem_of_lookup in Hy as [i Hi].
  destruct (Forall2_lookup_r _ _ _ _ _ HR Hi) as (x' & Hx' & Hx'y).
  apply Hx. rewrite (Hinj _ _ _ Hxy Hx'y). by eapply list_elem_of_lookup_2.
Qed.

Lemma size_delete_S {K A} `{Countable K} (m : gmap K A) i x :
  m !! i = Some x → size m = S (size (delete i m)).
Proof.
  intros Hi. rewrite <-(insert_delete_id m i x) at 1 by done.
  apply map_size_insert_None, lookup_delete_eq.
Qed.

Lemma getitem_result s key :
  fst (__getitem__ key s) =
    match objs s !! key with
    | None => Raise TypeError
    | Some _ => match lookup_key s key with Some v => Ok v | None => Raise KeyError end
    end.
Proof.
  destruct (objs s !! key) as [oid|] eqn:Hk.
  - by rewrite getitem_lookup by eauto.
  - by rewrite getitem_eq, Hk.
Qed.

Lemma keys_NoDup s l s' :
  wf s → no_stale s → keys s = (Ok l, s') → NoDup l.
Proof.
  intros Hwf Hns E.
  destruct (keys_spec s Hwf)
    as (persisted & staged & Ek & _ & _ & Hres & Hnd & Hdom & _ & Hnds & Hst).
  rewrite Ek in E. injection E as <- <-.
  apply NoDup_app. split; [|split; [|done]].
  - eapply Forall2_NoDup; [|exact Hres|exact Hnd].
    intros oid oid' k (o & -> & Hr) (o' & -> & Hr').
    pose proof (wf_resolved _ Hwf _ _ Hr). pose proof (wf_resolved _ Hwf _ _ Hr').
    congruence.
  - intros k Hp [kv Hs]%Hst.
    apply list_elem_of_lookup in Hp as [i Hi].
    destruct (Forall2_lookup_r _ _ _ _ _ Hres Hi) as (oid & Hoid & o & -> & Hr).
    apply list_elem_of_lookup_2, Hdom in Hoid.
    destruct (wf_persisted _ Hwf _ Hoid) as (Hj & _).
    destruct kv as [k0 v]. destruct (wf_staged _ Hwf _ _ _ Hs) as [<- _].
    specialize (Hns Hj _ _ Hs). simpl in Hns.
    pose proof (wf_resolved _ Hwf _ _ Hr). congruence.
Qed.

Lemma setitem_size s key value s' :
  wf s → no_stale s → __setitem__ key value s = (Ok (), s') →
  size (_data s') + size (staging s') =
    size (_data s) + size (staging s) +
    (if lookup_key s key is Some _ then 0 else 1).
Proof.
  intros Hwf Hns. rewrite setitem_eq.
  destruct (objs s !! key) as [oid|] eqn:Hk; [|done].
  destruct (bool_decide (oid = None) || bool_decide (_p_jar s = None)) eqn:Hb.
  - intros [= <-]. simpl. unfold staging at 1. simpl.
    rewrite map_size_insert. unfold lookup_key. rewrite Hk. simpl.
    destruct (staging s !! key) as [kv|] eqn:Hs; simpl; [lia|].
    assert (_data s !! oid = None) as ->; [|lia].
    apply eq_None_not_Some. intros Hd.
    destruct (wf_persisted _ Hwf _ Hd) as (Hj & o & k & -> & _).
    apply orb_true_iff in Hb as [Hb|Hb]; by apply bool_decide_eq_true in Hb.
  - apply orb_false_iff in Hb as [Ho Hj].
    apply bool_decide_eq_false in Ho, Hj.
    assert (staging s !! key = None) as Hs.
    { apply eq_None_not_Some. intros [[k0 v] Hs].
      destruct (wf_staged _ Hwf _ _ _ Hs) as [<- _].
      specialize (Hns Hj _ _ Hs). simpl in Hns. congruence. }
    intros [= <-]. simpl. change (staging (with_data _ _)) with (staging s).
    rewrite map_size_insert. unfold lookup_key. rewrite Hs, Hk. simpl.
    destruct (_data s !! oid); simpl; lia.
Qed.

Lemma delitem_size s key s' :
  wf s → no_stale s → __delitem__ key s = (Ok (), s') →
  size (_data s) + size (staging s) = S (size (_data s') + size (staging s')).
Proof.
  intros Hwf Hns. rewrite delitem_eq.
  destruct (objs s !! key) as [oid|] eqn:Hk; [|done].
  destruct (staging s !! key) as [kv|] eqn:Hs.
  - intros [= <-].
    change (staging (with_v_data s (Some (delete key (staging s)))))
      with (delete key (staging s)). simpl.
    rewrite (size_delete_S (staging s) key kv) by done. lia.
  - destruct (_data s !! oid) as [v|] eqn:Hd; [|done].
    intros [= <-]. simpl. change (staging (with_data _ _)) with (staging s).
    rewrite (size_delete_S (_data s) oid v) by done. lia.
Qed.

(** X4. In a state without out-of-date staged entries, [keys()] has
    every key once, and a key is in the list exactly when [key in d] is
    true. *)
Theorem keys_each_key_once s :
  wf s → no_stale s →
  ∃ l, fst (keys s) = Ok l ∧ NoDup l ∧
       ∀ k, k ∈ l ↔ fst (__contains__ k s) = Ok true.
Proof.
  intros Hwf Hns. destruct (keys_lookup s Hwf) as (l & E & _ & _ & Hin).
  exists l. rewrite E. split; [done|]. split; [by eapply keys_NoDup|].
  intros k. rewrite Hin. rewrite contains_eq. unfold lookup_key.
  destruct (objs s !! k) as [oid|] eqn:Hk; simpl.
  - destruct (staging s !! k) as [kv|]; simpl.
    + split; [done|eauto].
    + destruct (_data s !! oid); simpl; split; try done; eauto; by intros [? ?].
  - destruct (staging s !! k) as [[k0 v]|] eqn:Hs.
    + destruct (wf_staged _ Hwf _ _ _ Hs) as [<- [? ?]]. congruence.
    + split; [by intros [? ?]|done].
Qed.

(** X5. In a state without out-of-date staged entries, [d[key] = value]
    on a key with a [_p_oid] attribute succeeds, [d[key]] then returns
    [value], every other key reads as before, and [len(d)] grows by one if
    the key was not in [d] and stays otherwise. *)
Theorem setitem_sets_one_key s key value :
  wf s → no_stale s → is_Some (objs s !! key) →
  ∃ s', __setitem__ key value s = (Ok (), s') ∧ wf s' ∧ no_stale s' ∧
    fst (__getitem__ key s') = Ok value ∧
    (∀ k, k ≠ key → fst (__getitem__ k s') = fst (__getitem__ k s)) ∧
    (fst (__contains__ key s) = Ok true → fst (__len__ s') = fst (__len__ s)) ∧
    (fst (__contains__ key s) = Ok false →
       ∃ n, fst (__len__ s) = Ok n ∧ fst (__len__ s') = Ok (S n)).
Proof.
  intros Hwf Hns [oid Hk].
  destruct (setitem_present s key value oid Hk) as (s' & E & Ho & _).
  destruct (setitem_lookup _ _ _ _ Hwf Hns E) as (Hwf' & Hns' & _ & _ & _ & Hl & Hlo).
  pose proof (setitem_size _ _ _ _ Hwf Hns E) as Hsz.
  exists s'. split; [done|]. split; [done|]. split; [done|].
  split; [|split; [|split]].
  - rewrite getitem_lookup by (rewrite Ho; eauto). by rewrite Hl.
  - intros k Hne. by rewrite !getitem_result, Ho, Hlo.
  - rewrite contains_lookup by eauto. simpl. intros [= Hb].
    apply bool_decide_eq_true in Hb as [v Hv]. rewrite Hv in Hsz.
    rewrite !len_eq. simpl. f_equal. lia.
  - rewrite contains_lookup by eauto. simpl. intros [= Hb].
    apply bool_decide_eq_false in Hb.
    destruct (lookup_key s key) eqn:Hv; [by destruct Hb|].
    eexists. rewrite !len_eq. simpl. split; [done|]. f_equal. lia.
Qed.

(** X6. In a state without out-of-date staged entries, [del d[key]] on
    a key that is in [d] succeeds; afterwards the key is not in [d],
    [d[key]] raises [KeyError], every other key reads as before, and
    [len(d)] is one less. *)
Theorem delitem_removes_one_key s key :
  wf s → no_stale s → fst (__contains__ key s) = Ok true →
  ∃ s', __delitem__ key s = (Ok (), s') ∧ wf s' ∧ no_stale s' ∧
    fst (__contains__ key s') = Ok false ∧
    fst (__getitem__ key s') = Raise KeyError ∧
    (∀ k, k ≠ key → fst (__getitem__ k s') = fst (__getitem__ k s)) ∧
    ∃ n, fst (__len__ s') = Ok n ∧ fst (__len__ s) = Ok (S n).
Proof.
  intros Hwf Hns Hc.
  destruct (objs s !! key) as [oid|] eqn:Hk; last first.
  { by rewrite contains_eq, Hk in Hc. }
  rewrite contains_eq, Hk in Hc. simpl in Hc. injection Hc as Hc.
  destruct (delitem_present s key oid Hk) as (s' & E).
  { apply orb_true_iff in Hc as [Hc|Hc]; apply bool_decide_eq_true in Hc; auto. }
  destruct (delitem_lookup _ _ _ Hwf Hns E) as (Hwf' & Hns' & Ho & _ & _ & Hl & Hlo).
  pose proof (delitem_size _ _ _ Hwf Hns E) as Hsz.
  exists s'. split; [done|]. split; [done|]. split; [done|].
  split; [|split; [|split]].
  - rewrite contains_lookup by (rewrite Ho; eauto). by rewrite Hl.
  - rewrite getitem_lookup by (rewrite Ho; eauto). by rewrite Hl.
  - intros k Hne. by rewrite !getitem_result, Ho, Hlo.
  - eexists. rewrite !len_eq. simpl. split; [done|]. by rewrite Hsz.
Qed.
End dict_writes.

Section flush_more.
Context {order : DictOrder} {V : Type}.
Implicit Types (s : State V) (key : N) (value : V).
Import PersistentKeysDict.

Lemma itervalues_empty {K A} `{Countable K} : itervalues (∅ : gmap K A) = [].
Proof.
  unfold itervalues.
  assert (dict_items (∅ : gmap K A) = []) as ->; [|done].
  apply Permutation_nil_r. by rewrite dict_items_perm, map_to_list_empty.
Qed.

(** What every round of a loop keeps, the loop keeps. *)
Lemma for_invariant {S A} (P : S → Prop) (body : A → M S unit) (l : list A) (t : S) :
  (∀ x (t0 : S), P t0 → P (snd (body x t0))) → P t → P (snd (for_ l body t)).
Proof.
  intros Hbody. revert t. induction l as [|x l IH]; intros t Ht; [done|].
  simpl. monad_unfold. specialize (Hbody x t Ht).
  destruct (body x t) as [[[]|e] t1]; simpl in *; [by apply IH|done].
Qed.

Lemma flush_entry_p_jar (kv : N * V) s :
  _p_jar (snd (flush_entry kv s)) = _p_jar s.
Proof.
  unfold flush_entry, getattr_p_oid, store_data, jar_add. monad_unfold.
  repeat (case_match; simplify_eq; simpl; try done).
Qed.

Lemma getstate_p_jar s : _p_jar (snd (__getstate__ s)) = _p_jar s.
Proof.
  rewrite getstate_eq. destruct (_p_jar s) as [[]|] eqn:Hj; [|done].
  unfold store_tmpdata. monad_unfold.
  pose proof (for_invariant (λ s0, _p_jar s0 = Some ()) flush_entry
                (itervalues (staging s)) (touch s)) as Hinv.
  destruct (for_ _ _ _) as [[[]|e] s1]; simpl in *; apply Hinv; try done;
    intros x s0 Hs0; by rewrite flush_entry_p_jar.
Qed.

Lemma getstate_v_data s r s' :
  __getstate__ s = (Ok r, s') → _v_data s' = Some ∅.
Proof.
  rewrite getstate_eq. destruct (_p_jar s); [|done].
  unfold store_tmpdata. monad_unfold.
  destruct (for_ _ _ _) as [[[]|e] s1]; [|done]. by intros [= _ <-].
Qed.

(** A flush with nothing staged returns the persisted partition and
    leaves the state. *)
Lemma getstate_nothing_staged s :
  _p_jar s ≠ None → _v_data s = Some ∅ → __getstate__ s = (Ok (_data s), s).
Proof.
  intros Hj Hv. rewrite getstate_eq. destruct (_p_jar s); [|done].
  unfold staging, store_tmpdata. rewrite Hv. simpl. rewrite itervalues_empty.
  monad_unfold. simpl. f_equal. destruct s. simpl in *. by subst.
Qed.

Lemma getstate_objs s r s' k :
  wf s → __getstate__ s = (Ok r, s') →
  is_Some (objs s' !! k) ↔ is_Some (objs s !! k).
Proof.
  intros Hwf E.
  destruct (_p_jar s) as [[]|] eqn:Hj; [|by rewrite getstate_eq, Hj in E].
  destruct (getstate_spec s Hwf) as (s1 & E1 & _ & _ & _ & Hother & Hmoved & _);
    [congruence|].
  rewrite E1 in E. injection E as <- <-.
  destruct (staging s !! k) as [[k0 v]|] eqn:Hs.
  - destruct (wf_staged _ Hwf _ _ _ Hs) as [<- Hc].
    destruct (Hmoved _ _ Hs) as (o & -> & _). split; eauto.
  - by rewrite Hother.
Qed.

Lemma getstate_getitem s r s' k :
  wf s → __getstate__ s = (Ok r, s') →
  fst (__getitem__ k s') = fst (__getitem__ k s).
Proof.
  intros Hwf E.
  destruct (getstate_lookup _ _ _ Hwf E) as (_ & _ & _ & Hsame).
  rewrite !getitem_result, Hsame.
  pose proof (getstate_objs s _ s' k Hwf E) as Hc.
  destruct (objs s' !! k), (objs s !! k); try done.
  - by destruct Hc as [[? ?] _]; eauto.
  - by destruct Hc as [_ [? ?]]; eauto.
Qed.

(** X7. The flush is invisible to a reader.  In a state without
    out-of-date staged entries and with a connection, [__getstate__]
    succeeds; afterwards every key reads as before and [len(d)] is what it
    was; a second flush returns the same state for pickling and changes
    nothing. *)
Theorem getstate_keeps_values s :
  wf s → no_stale s → _p_jar s ≠ None →
  ∃ snapshot s', __getstate__ s = (Ok snapshot, s') ∧
    (∀ k, fst (__getitem__ k s') = fst (__getitem__ k s)) ∧
    fst (__len__ s') = fst (__len__ s) ∧
    __getstate__ s' = (Ok snapshot, s').
Proof.
  intros Hwf Hns Hj.
  destruct (getstate_spec s Hwf Hj) as (s' & E & _).
  destruct (getstate_lookup _ _ _ Hwf E) as (Hwf' & Hns' & _ & Hsame).
  exists (_data s'), s'. split; [done|]. split; [|split].
  - intros k. by eapply getstate_getitem.
  - destruct (keys_lookup s Hwf) as (l & El & _ & Hlen & Hin).
    destruct (keys_lookup s' Hwf') as (l' & El' & _ & Hlen' & Hin').
    rewrite !len_eq. simpl. f_equal. rewrite <-Hlen, <-Hlen'.
    apply Permutation_length, NoDup_Permutation.
    + exact (keys_NoDup s' l' _ Hwf' Hns' El').
    + exact (keys_NoDup s l _ Hwf Hns El).
    + intros k. by rewrite Hin, Hin', Hsame.
  - apply getstate_nothing_staged.
    + pose proof (getstate_p_jar s) as Hp. rewrite E in Hp. simpl in Hp. congruence.
    + by eapply getstate_v_data.
Qed.

(** X8. What the flush returns for pickling holds every value of the
    container: a value that [d[key]] returned before the flush is in the
    returned state under the identifier that the key has afterwards, and
    the connection resolves that identifier to the key. *)
Theorem getstate_snapshot_complete s snapshot s' key value :
  wf s → __getstate__ s = (Ok snapshot, s') →
  fst (__getitem__ key s) = Ok value →
  ∃ o, objs s' !! key = Some (Some o) ∧
       registry (jar s') !! o = Some key ∧
       snapshot !! Some o = Some value.
Proof.
  intros Hwf E Hget.
  destruct (getstate_lookup _ _ _ Hwf E) as (Hwf' & _ & -> & Hsame).
  rewrite getitem_result in Hget.
  destruct (objs s !! key) as [oid0|]; [|done].
  destruct (lookup_key s key) as [v|] eqn:Hl; [|done]. injection Hget as ->.
  rewrite <-Hsame in Hl. unfold lookup_key in Hl.
  assert (staging s' = ∅) as Hs.
  { unfold staging. by rewrite (getstate_v_data _ _ _ E). }
  rewrite Hs, lookup_empty in Hl.
  destruct (objs s' !! key) as [oid|] eqn:Hk; [|done]. simpl in Hl.
  destruct (wf_persisted _ Hwf' oid) as (_ & o & k & -> & _); [eauto|].
  exists o. split; [done|]. split; [|done]. by apply (wf_registered _ Hwf').
Qed.
End flush_more.

Section new_container.
Context {order : DictOrder} {V : Type}.
Import PersistentKeysDict.

Lemma iterkeys_empty {K A} `{Countable K} : iterkeys (∅ : gmap K A) = [].
Proof.
  unfold iterkeys.
  assert (dict_items (∅ : gmap K A) = []) as ->; [|done].
  apply Permutation_nil_r. by rewrite dict_items_perm, map_to_list_empty.
Qed.

(** X9. A new [PersistentKeysDict] is empty in any world: [len] is 0,
    [keys()] and iteration return nothing, and do so although the
    container has no connection to resolve identifiers with; no key is in
    it, and [d[key]] raises [KeyError] for a key with a [_p_oid]
    attribute and [TypeError] for one without. *)
Theorem init_is_empty (o : gmap N (option N)) (j : Jar) (key : N) :
  fst (__len__ (__init__ (V:=V) o j)) = Ok 0 ∧
  fst (keys (__init__ (V:=V) o j)) = Ok [] ∧
  fst (__iter__ (__init__ (V:=V) o j)) = Ok [] ∧
  fst (__contains__ key (__init__ (V:=V) o j))
    = (if o !! key is Some _ then Ok false else Raise TypeError) ∧
  fst (__getitem__ key (__init__ (V:=V) o j))
    = (if o !! key is Some _ then Raise KeyError else Raise TypeError).
Proof.
  assert (keys (__init__ (V:=V) o j) = (Ok [], touch (__init__ o j))) as Ek.
  { unfold keys. monad_unfold. cbn [_data _p_jar __init__].
    rewrite iterkeys_empty. cbn [comprehension]. monad_unfold.
    rewrite tmpdata_eq. unfold staging at 1. cbn [_v_data __init__ default].
    by rewrite itervalues_empty. }
  assert (__iter__ (__init__ (V:=V) o j) = keys (__init__ (V:=V) o j)) as -> by done.
  rewrite Ek, len_eq, contains_eq, getitem_eq.
  unfold staging. simpl. rewrite !map_size_empty.
  split; [done|]. split; [done|]. split; [done|].
  destruct (o !! key) as [oid|]; simpl; [|done].
  by rewrite !lookup_empty.
Qed.
End new_container.

(** * Further properties of [PersistentKeysSet] *)

Section set_more.
Context {order : DictOrder}.
Implicit Types (s : State unit) (item : N).
Import PersistentKeysSet.

Lemma contains_result {V} (s : State V) key :
  fst (PersistentKeysDict.__contains__ key s) =
    match objs s !! key with
    | None => Raise TypeError
    | Some _ => Ok (bool_decide (is_Some (lookup_key s key)))
    end.
Proof.
  destruct (objs s !! key) as [oid|] eqn:Hk.
  - by rewrite contains_lookup by eauto.
  - by rewrite contains_eq, Hk.
Qed.

(** X10. After [add(item)] the item is in the set: for an item with a
    [_p_oid] attribute, in every state the methods keep the set in,
    [add] succeeds, [item in] the underlying dictionary is true, and
    iterating the set yields the item. *)
Theorem add_then_member s item :
  wf s → is_Some (objs s !! item) →
  ∃ s1, add item s = (Ok (), s1) ∧ wf s1 ∧
        fst (PersistentKeysDict.__contains__ item s1) = Ok true ∧
        ∃ l, fst (__iter__ s1) = Ok l ∧ item ∈ l.
Proof.
  intros Hwf [oid Hk].
  assert (∃ s1, add item s = (Ok (), s1) ∧ wf s1 ∧ objs s1 = objs s ∧
                is_Some (lookup_key s1 item)) as (s1 & E & Hwf1 & Ho & Hl).
  { unfold add. monad_unfold. rewrite contains_lookup by eauto.
    destruct (lookup_key s item) as [v|] eqn:Hl; simpl.
    - exists (touch s). split; [done|]. split; [by apply wf_touch|].
      split; [done|]. change (lookup_key (touch s) item) with (lookup_key s item).
      rewrite Hl. eauto.
    - destruct (setitem_present (touch s) item () oid Hk) as (s1 & E1 & Ho & Hin).
      rewrite E1. exists s1. split; [done|].
      split; [eapply wf_setitem; [|exact E1]; by apply wf_touch|].
      split; [done|]. unfold lookup_key.
      destruct (staging s1 !! item) as [kv|]; [eauto|].
      rewrite Ho. change (objs (touch s)) with (objs s). rewrite Hk. simpl.
      by destruct Hin as [[? ?]|?]. }
  exists s1. split; [done|]. split; [done|]. split.
  - rewrite contains_result, Ho, Hk. by rewrite bool_decide_eq_true_2.
  - destruct (keys_lookup s1 Hwf1) as (l & El & Ei & _ & Hin).
    exists l. unfold __iter__. rewrite Ei, El. split; [done|]. by apply Hin.
Qed.

(** X11. [remove] undoes [add].  In a state without out-of-date staged
    entries, for an item that is not in the set, [add(item)] followed by
    [remove(item)] succeeds and leaves the membership of every item and
    the length as they were; a further [remove(item)] raises
    [KeyError]. *)
Theorem add_remove_restores s item :
  wf s → no_stale s →
  fst (PersistentKeysDict.__contains__ item s) = Ok false →
  ∃ s2, (add item ;; remove item) s = (Ok (), s2) ∧
    (∀ k, fst (PersistentKeysDict.__contains__ k s2)
          = fst (PersistentKeysDict.__contains__ k s)) ∧
    fst (__len__ s2) = fst (__len__ s) ∧
    fst (remove item s2) = Raise KeyError.
Proof.
  intros Hwf Hns Hc. rewrite contains_result in Hc.
  destruct (objs s !! item) as [oid|] eqn:Hk; [|done].
  injection Hc as Hc. apply bool_decide_eq_false in Hc.
  assert (lookup_key s item = None) as Hl by (by apply eq_None_not_Some).
  unfold add, remove, __len__. monad_unfold.
  rewrite contains_lookup by eauto. rewrite Hl. simpl.
  destruct (setitem_present (touch s) item () oid Hk) as (s1 & E1 & _).
  rewrite E1.
  destruct (setitem_lookup _ _ _ _ (wf_touch _ Hwf) (no_stale_touch _ Hns) E1)
    as (Hwf1 & Hns1 & Ho1 & _ & _ & Hl1 & Hlo1).
  pose proof (setitem_size _ _ _ _ (wf_touch _ Hwf) (no_stale_touch _ Hns) E1) as Hsz1.
  change (lookup_key (touch s) item) with (lookup_key s item) in Hsz1.
  rewrite Hl in Hsz1.
  assert (objs s1 !! item = Some oid) as Hk1 by (by rewrite Ho1).
  destruct (delitem_present s1 item oid Hk1) as (s2 & E2).
  { unfold lookup_key in Hl1. rewrite Hk1 in Hl1. simpl in Hl1.
    destruct (staging s1 !! item); [eauto|]. right. eauto. }
  rewrite E2.
  destruct (delitem_lookup _ _ _ Hwf1 Hns1 E2) as (Hwf2 & Hns2 & Ho2 & _ & _ & Hl2 & Hlo2).
  pose proof (delitem_size _ _ _ Hwf1 Hns1 E2) as Hsz2.
  exists s2. split; [done|]. split; [|split].
  - intros k. rewrite !contains_result, Ho2, Ho1.
    change (objs (touch s)) with (objs s).
    destruct (decide (k = item)) as [->|Hne].
    + by rewrite Hl2, Hl.
    + by rewrite Hlo2, Hlo1.
  - rewrite !len_eq. simpl. f_equal.
    change (_data (touch s)) with (_data s) in Hsz1.
    change (staging (touch s)) with (staging s) in Hsz1. lia.
  - rewrite delitem_eq, Ho2, Hk1. unfold lookup_key in Hl2.
    rewrite Ho2, Hk1 in Hl2. simpl in Hl2.
    destruct (staging s2 !! item); [done|]. by rewrite Hl2.
Qed.
End set_more.

(** * Further properties of [PersistentPairKeysDict] *)

Section pair_more.
Context {order : DictOrder} {H W : Type} `{Countable H}.
Implicit Types (p : PairState H W) (key : N * H) (value : W).
Import PersistentPairKeysDict.

(** Writing a key that holds nothing, or that holds the value written. *)
Lemma setitem_lookup_same {V} (s : State V) k d oid s' :
  objs s !! k = Some oid →
  lookup_key s k = None ∨ lookup_key s k = Some d →
  PersistentKeysDict.__setitem__ k d s = (Ok (), s') →
  lookup_key s' k = Some d ∧ objs s' = objs s.
Proof.
  intros Hk Hl. rewrite setitem_eq, Hk.
  destruct (bool_decide (oid = None) || bool_decide (_p_jar s = None)).
  - intros [= <-]. split; [|done]. unfold lookup_key, staging at 1. simpl.
    by rewrite lookup_insert_eq.
  - intros [= <-]. split; [|done]. revert Hl. unfold lookup_key.
    change (staging (with_data _ _)) with (staging s).
    destruct (staging s !! k) as [kv|]; [by intros [?|?]|].
    intros _. simpl. rewrite Hk. simpl. apply lookup_insert_eq.
Qed.

Lemma pair_getitem_eq key p :
  is_Some (objs (under p) !! key.1) →
  __getitem__ key p =
    (match pair_lookup p key with Some w => Ok w | None => Raise KeyError end,
     with_under p (touch (under p))).
Proof.
  destruct key as [k h]. intros Hk. unfold __getitem__, pair_lookup.
  unfold mbind at 1, M_bind at 1.
  erewrite on_data_eq by (by apply getitem_lookup). simpl.
  destruct (lookup_key (under p) k) as [d|]; [|done]. simpl.
  unfold dict_getitem, deref. simpl. by destruct (default ∅ (dicts p !! d) !! h).
Qed.

Lemma pair_getitem_result key p :
  fst (__getitem__ key p) =
    match objs (under p) !! key.1 with
    | None => Raise TypeError
    | Some _ => match pair_lookup p key with Some w => Ok w | None => Raise KeyError end
    end.
Proof.
  destruct (objs (under p) !! key.1) as [oid|] eqn:Hk.
  - by rewrite pair_getitem_eq by eauto.
  - destruct key as [k h]. unfold __getitem__. unfold mbind, M_bind.
    erewrite on_data_eq by (rewrite getitem_eq; simpl in Hk; rewrite Hk; done).
    done.
Qed.

Lemma pair_contains_result key p :
  fst (__contains__ key p) =
    match objs (under p) !! key.1 with
    | None => Raise TypeError
    | Some _ => Ok (bool_decide (is_Some (pair_lookup p key)))
    end.
Proof.
  destruct key as [k h]. unfold __contains__, pair_lookup. simpl.
  unfold mbind at 1, M_bind at 1.
  destruct (objs (under p) !! k) as [oid|] eqn:Hk; last first.
  { erewrite on_data_eq by (rewrite contains_eq, Hk; done). done. }
  erewrite on_data_eq by (apply contains_lookup; eauto).
  destruct (lookup_key (under p) k) as [d|] eqn:Hl; simpl; [|done].
  unfold mbind, M_bind.
  erewrite on_data_eq by (apply getitem_lookup; simpl; eauto).
  change (lookup_key (under (with_under p (touch (under p)))) k)
    with (lookup_key (under p) k). rewrite Hl. simpl. done.
Qed.

(** What [__setitem__] does in any state: it succeeds for a primary with
    a [_p_oid] attribute, and the primary then holds a dictionary, the
    one it held or a new one, with the pair in it. *)
Lemma pair_setitem_run k h value p oid :
  objs (under p) !! k = Some oid →
  ∃ d u',
    __setitem__ (k, h) value p
      = (Ok (), {| under := u'; dicts := <[d := <[h := value]> (deref p d)]> (dicts p) |}) ∧
    lookup_key u' k = Some d ∧ objs u' = objs (under p) ∧
    (lookup_key (under p) k = Some d ∨
     lookup_key (under p) k = None ∧ dicts p !! d = None).
Proof.
  intros Hk. unfold __setitem__. unfold mbind at 1, M_bind at 1.
  erewrite on_data_eq by (apply contains_lookup; eauto).
  destruct (lookup_key (under p) k) as [d|] eqn:Hl.
  - rewrite bool_decide_eq_true_2 by eauto. cbn [negb].
    unfold mbind at 1, M_bind at 1. unfold mret at 1, M_ret at 1.
    unfold mbind at 1, M_bind at 1.
    erewrite on_data_eq; last first.
    { cbn [under with_under]. apply getitem_lookup. eauto. }
    change (lookup_key (touch (under p)) k) with (lookup_key (under p) k).
    rewrite Hl. unfold dict_setitem. monad_unfold. cbn [under with_under dicts with_dicts].
    destruct (setitem_present (touch (touch (under p))) k d oid) as (u' & E & _); [done|].
    erewrite on_data_eq by (cbn [under with_under dicts with_dicts]; exact E).
    destruct (setitem_lookup_same (touch (touch (under p))) k d oid u')
      as [Hl' Ho']; [done|by right|done|].
    exists d, u'. split; [done|]. split; [done|]. split; [done|]. by left.
  - rewrite bool_decide_eq_false_2 by (by intros [? ?]). cbn [negb].
    set (d0 := fresh (dom (dicts p))).
    assert (dicts p !! d0 = None) as Hfresh.
    { apply not_elem_of_dom. apply is_fresh. }
    unfold new_dict. unfold mbind at 1 2, M_bind at 1 2.
    unfold mbind at 1, M_bind at 1.
    cbn [under with_under dicts with_dicts]. fold d0.
    destruct (setitem_present (touch (under p)) k d0 oid) as (u1 & E1 & _); [done|].
    erewrite on_data_eq by (cbn [under with_under dicts with_dicts]; exact E1).
    destruct (setitem_lookup_same (touch (under p)) k d0 oid u1)
      as [Hl1 Ho1]; [done|by left|done|].
    unfold mbind at 1, M_bind at 1.
    erewrite on_data_eq; last first.
    { cbn [under with_under]. apply getitem_lookup. rewrite Ho1. eauto. }
    rewrite Hl1. unfold dict_setitem. monad_unfold.
    cbn [under with_under dicts with_dicts].
    destruct (setitem_present (touch u1) k d0 oid) as (u' & E & _).
    { change (objs (touch u1)) with (objs u1). by rewrite Ho1. }
    erewrite on_data_eq by (cbn [under with_under dicts with_dicts]; exact E).
    destruct (setitem_lookup_same (touch u1) k d0 oid u') as [Hl' Ho'];
      [change (objs (touch u1)) with (objs u1); by rewrite Ho1|by right|done|].
    exists d0, u'. split; [|split; [done|split; [|by right]]]; last first.
    { rewrite Ho'. exact Ho1. }
    unfold with_under, with_dicts, deref. simpl.
    rewrite lookup_insert_eq, Hfresh. simpl. by rewrite insert_insert_eq.
Qed.

(** X12. [P[(p, h)] = v] followed by [P[(p, h)]] returns [v], in every
    state: for a primary with a [_p_oid] attribute the store succeeds,
    the pair is then in [P] and is read back with the value stored. *)
Theorem pair_setitem_getitem key value p :
  is_Some (objs (under p) !! key.1) →
  ∃ p', __setitem__ key value p = (Ok (), p') ∧
        fst (__getitem__ key p') = Ok value ∧
        fst (__contains__ key p') = Ok true.
Proof.
  destruct key as [k h]. intros [oid Hk]. simpl in Hk.
  destruct (pair_setitem_run k h value p oid Hk) as (d & u' & E & Hl & Ho & _).
  eexists. split; [exact E|].
  rewrite pair_getitem_result, pair_contains_result. simpl. rewrite Ho, Hk.
  unfold pair_lookup, deref. simpl. rewrite Hl. simpl.
  rewrite lookup_insert_eq. simpl. rewrite lookup_insert_eq. done.
Qed.

(** X13. [__contains__] and [__getitem__] of the pair dictionary agree
    in every state: for a primary with a [_p_oid] attribute,
    [(p, h) in P] is true exactly when [P[(p, h)]] returns a value and
    false exactly when it raises [KeyError], a primary that is not in [P]
    included; for a primary without the attribute both raise
    [TypeError]. *)
Theorem pair_contains_iff_getitem key p :
  (is_Some (objs (under p) !! key.1) →
     (fst (__contains__ key p) = Ok true ↔ ∃ w, fst (__getitem__ key p) = Ok w) ∧
     (fst (__contains__ key p) = Ok false ↔ fst (__getitem__ key p) = Raise KeyError)) ∧
  (objs (under p) !! key.1 = None →
     fst (__contains__ key p) = Raise TypeError ∧
     fst (__getitem__ key p) = Raise TypeError).
Proof.
  rewrite pair_contains_result, pair_getitem_result. split.
  - intros [oid ->]. destruct (pair_lookup p key) as [w|]; simpl.
    + split; split; try done; eauto.
    + split; split; try done. by intros [? ?].
  - by intros ->.
Qed.

Lemma delitem_objs {V} (s : State V) k :
  objs (snd (PersistentKeysDict.__delitem__ k s)) = objs s.
Proof. rewrite delitem_eq. by repeat case_match. Qed.

(** [__delitem__] succeeds on a pair that is in the dictionary. *)
Lemma pair_delitem_ok key p w :
  is_Some (objs (under p) !! key.1) → pair_lookup p key = Some w →
  ∃ p', __delitem__ key p = (Ok (), p') ∧ objs (under p') = objs (under p).
Proof.
  destruct key as [k h]. intros [oid Hk]. unfold pair_lookup. simpl in *.
  destruct (lookup_key (under p) k) as [d|] eqn:Hl; [simpl|done]. intros Hw.
  unfold __delitem__. unfold mbind at 1, M_bind at 1.
  erewrite on_data_eq by (apply getitem_lookup; eauto). rewrite Hl.
  unfold mbind at 1, M_bind at 1. unfold dict_delitem at 1.
  change (deref (with_under p (touch (under p))) d) with (deref p d). rewrite Hw.
  unfold dict_truth. monad_unfold. cbn [under with_under dicts with_dicts].
  destruct (bool_decide _).
  - destruct (setitem_present (touch (under p)) k d oid) as (u' & E & Ho & _); [done|].
    erewrite on_data_eq by (cbn [under with_under dicts with_dicts]; exact E).
    eexists. split; [done|]. exact Ho.
  - destruct (delitem_present (touch (under p)) k oid) as (u' & E); [done|..].
    { change (staging (touch (under p))) with (staging (under p)).
      change (_data (touch (under p))) with (_data (under p)).
      unfold lookup_key in Hl. rewrite Hk in Hl. simpl in Hl.
      destruct (staging (under p) !! k); eauto. }
    erewrite on_data_eq by (cbn [under with_under dicts with_dicts]; exact E).
    eexists. split; [done|]. simpl.
    pose proof (delitem_objs (touch (under p)) k) as Ho. by rewrite E in Ho.
Qed.

(** The pairs after a store: the pair stored, and the others as before. *)
Lemma pair_setitem_lookup key value p :
  pair_wf p → is_Some (objs (under p) !! key.1) →
  ∃ p', __setitem__ key value p = (Ok (), p') ∧ pair_wf p' ∧
    objs (under p') = objs (under p) ∧
    ∀ key', pair_lookup p' key' =
            if decide (key' = key) then Some value else pair_lookup p key'.
Proof.
  destruct key as [k h]. intros Hp [oid Hk]. simpl in Hk.
  destruct (pair_setitem_run k h value p oid Hk) as (d & u' & E & Hl & Ho & Hd).
  destruct (pair_setitem_wf _ _ _ _ Hp E) as (Hp' & d1 & Hl1 & _ & Hlo & _).
  simpl in Hl1, Hlo.
  eexists. split; [exact E|]. split; [done|]. split; [done|].
  intros [k' h']. unfold pair_lookup, deref. simpl.
  destruct (decide (k' = k)) as [->|Hkne].
  - rewrite Hl. simpl. rewrite lookup_insert_eq. simpl.
    destruct (decide (h' = h)) as [->|Hhne].
    + rewrite decide_True by done. apply lookup_insert_eq.
    + rewrite decide_False by congruence. rewrite lookup_insert_ne by done.
      destruct Hd as [-> | [-> ->]]; [done|]. simpl. by rewrite lookup_empty.
  - rewrite decide_False by congruence. rewrite (Hlo k' Hkne).
    destruct (lookup_key (under p) k') as [d'|] eqn:Hl'; [simpl|done].
    rewrite lookup_insert_ne; [done|]. intros <-.
    apply Hkne. apply (pair_unshared _ Hp' k' k d); simpl; [|done].
    by rewrite (Hlo k' Hkne).
Qed.

(** The pairs after a delete: the others, as before. *)
Lemma pair_delitem_lookup key p w :
  pair_wf p → is_Some (objs (under p) !! key.1) → pair_lookup p key = Some w →
  ∃ p', __delitem__ key p = (Ok (), p') ∧ pair_wf p' ∧
    objs (under p') = objs (under p) ∧
    ∀ key', pair_lookup p' key' =
            if decide (key' = key) then None else pair_lookup p key'.
Proof.
  destruct key as [k h]. intros Hp Hk Hw.
  destruct (pair_delitem_ok (k, h) p w) as (p' & E & Ho); [done|done|].
  destruct (pair_delitem_wf _ _ _ Hp E) as (Hp' & d & Hl & _ & Hcase & Hlo & Hdo).
  simpl in Hl, Hcase, Hlo.
  exists p'. split; [done|]. split; [done|]. split; [done|].
  intros [k' h']. destruct (decide (k' = k)) as [->|Hkne].
  - unfold pair_lookup. simpl. rewrite Hl. simpl.
    destruct (decide (delete h (deref p d) = ∅)) as [Hempty|Hrest].
    + rewrite Hcase. simpl. case_decide; [done|].
      rewrite <-(lookup_delete_ne (deref p d) h h') by congruence.
      by rewrite Hempty, lookup_empty.
    + destruct Hcase as [Hl' Hd']. rewrite Hl'. simpl. rewrite Hd'.
      case_decide as Hh.
      * injection Hh as ->. apply lookup_delete_eq.
      * apply lookup_delete_ne. congruence.
  - rewrite decide_False by congruence.
    unfold pair_lookup. simpl. rewrite (Hlo k' Hkne).
    destruct (lookup_key (under p) k') as [d'|] eqn:Hl'; [simpl|done].
    unfold deref. rewrite Hdo; [done|]. intros ->.
    apply Hkne. by apply (pair_unshared _ Hp k' k d).
Qed.

(** X14. In a state where the invariant of the pair dictionary holds,
    [P[(p, h)] = v] stores one pair: it succeeds for a primary with a
    [_p_oid] attribute, keeps the invariant, [P[(p, h)]] then returns
    [v], and every other pair reads as before. *)
Theorem pair_setitem_sets_one_pair key value p :
  pair_wf p → is_Some (objs (under p) !! key.1) →
  ∃ p', __setitem__ key value p = (Ok (), p') ∧ pair_wf p' ∧
    fst (__getitem__ key p') = Ok value ∧
    ∀ key', key' ≠ key → fst (__getitem__ key' p') = fst (__getitem__ key' p).
Proof.
  intros Hp Hk.
  destruct (pair_setitem_lookup key value p Hp Hk) as (p' & E & Hp' & Ho & Hl).
  exists p'. split; [done|]. split; [done|]. split.
  - rewrite pair_getitem_result, Ho, Hl, decide_True by done.
    by destruct Hk as [? ->].
  - intros key' Hne. by rewrite !pair_getitem_result, Ho, Hl, decide_False.
Qed.

(** X15. In a state where the invariant of the pair dictionary holds,
    [del P[(p, h)]] on a pair that is in [P] removes that pair: it
    succeeds, keeps the invariant, the pair is not in [P] afterwards and
    [P[(p, h)]] raises [KeyError], and every other pair reads as
    before. *)
Theorem pair_delitem_removes_one_pair key p :
  pair_wf p → fst (__contains__ key p) = Ok true →
  ∃ p', __delitem__ key p = (Ok (), p') ∧ pair_wf p' ∧
    fst (__contains__ key p') = Ok false ∧
    fst (__getitem__ key p') = Raise KeyError ∧
    ∀ key', key' ≠ key → fst (__getitem__ key' p') = fst (__getitem__ key' p).
Proof.
  intros Hp Hc. rewrite pair_contains_result in Hc.
  destruct (objs (under p) !! key.1) as [oid|] eqn:Hk; [|done].
  injection Hc as Hc. apply bool_decide_eq_true in Hc as [w Hw].
  destruct (pair_delitem_lookup key p w) as (p' & E & Hp' & Ho & Hl); [done|eauto|done|].
  exists p'. split; [done|]. split; [done|].
  rewrite pair_contains_result, pair_getitem_result, Ho, Hk, Hl, decide_True by done.
  split; [done|]. split; [done|].
  intros key' Hne. by rewrite !pair_getitem_result, Ho, Hl, decide_False.
Qed.

(** *** Iteration over the pairs *)

Lemma with_under_id p : with_under p (under p) = p.
Proof. by destruct p. Qed.

Lemma rows_body_run p ks :
  touch (under p) = under p →
  Forall (λ k, is_Some (lookup_key (under p) k)) ks →
  wf (under p) →
  comprehension (λ persistent,
      d ← on_data (PersistentKeysDict.__getitem__ persistent);
      m ← gets (λ p0, deref p0 d);
      mret (persistent, m)) ks p
  = (Ok (row_of p <$> ks), p).
Proof.
  intros Ht Hks Hwf. induction Hks as [|k ks [d Hl] Hks IH]; [done|].
  cbn [comprehension]. unfold mbind at 1, M_bind at 1.
  unfold mbind at 1, M_bind at 1.
  assert (is_Some (objs (under p) !! k)) as Hk.
  { unfold lookup_key in Hl. destruct (staging (under p) !! k) as [[k0 v]|] eqn:Hs.
    - by destruct (wf_staged _ Hwf _ _ _ Hs) as [<- ?].
    - destruct (objs (under p) !! k); [eauto|done]. }
  erewrite on_data_eq by (by apply getitem_lookup).
  rewrite Hl, Ht, with_under_id. monad_unfold. rewrite IH.
  rewrite fmap_cons.
  change (row_of p k) with (k, deref p (default 0%N (lookup_key (under p) k))).
  by rewrite Hl.
Qed.

(** The rows that the iterating methods work on. *)
Lemma rows_spec p :
  wf (under p) →
  ∃ ks, rows p = (Ok (row_of p <$> ks), with_under p (touch (under p))) ∧
        (∀ k, k ∈ ks ↔ is_Some (lookup_key (under p) k)) ∧
        (no_stale (under p) → NoDup ks).
Proof.
  intros Hwf. destruct (keys_lookup (under p) Hwf) as (ks & Ek & Ei & _ & Hin).
  exists ks. split; [|split; [done|]].
  - unfold rows. unfold mbind at 1, M_bind at 1.
    erewrite on_data_eq by (rewrite Ei; exact Ek). cbv beta iota.
    rewrite (rows_body_run (with_under p (touch (under p))) ks); [done|done| |].
    + apply Forall_forall. intros k Hk. by apply Hin.
    + by apply wf_touch.
  - intros Hns. by eapply keys_NoDup.
Qed.

Lemma length_iterkeys {K A} `{Countable K} (m : gmap K A) :
  length (iterkeys m) = size m.
Proof.
  unfold iterkeys. by rewrite length_fmap, dict_items_perm, length_map_to_list.
Qed.

Lemma length_pairs_of_rows (rs : list (N * gmap H W)) (n : nat) :
  foldl (λ count (r : N * gmap H W), count + size r.2) n rs =
  n + length (concat ((λ r : N * gmap H W, (r.1 ,.) <$> iterkeys r.2) <$> rs)).
Proof.
  revert n. induction rs as [|r rs IH]; intros n; [simpl; lia|].
  rewrite fmap_cons. cbn [foldl concat].
  rewrite IH, length_app, length_fmap, length_iterkeys. lia.
Qed.

Lemma items_of_rows_keys (rs : list (N * gmap H W)) :
  (concat ((λ r : N * gmap H W,
      (λ hv : H * W, ((r.1, hv.1), hv.2)) <$> dict_items r.2) <$> rs)).*1 =
  concat ((λ r : N * gmap H W, (r.1 ,.) <$> iterkeys r.2) <$> rs).
Proof.
  induction rs as [|r rs IH]; [done|].
  rewrite !fmap_cons. cbn [concat]. rewrite fmap_app, IH. f_equal.
  unfold iterkeys. rewrite <-!list_fmap_compose. by apply list_fmap_ext.
Qed.

(** X16. The iterating methods agree, in every state the methods keep
    the underlying dictionary in: [keys()] returns a list, [__iter__]
    yields the same pairs, [len(P)] is the length of that list, and the
    keys of [iteritems()] are that list. *)
Theorem pair_keys_len_items_agree p :
  wf (under p) →
  ∃ l items,
    fst (keys p) = Ok l ∧ fst (__iter__ p) = Ok l ∧
    fst (__len__ p) = Ok (length l) ∧
    fst (iteritems p) = Ok items ∧ items.*1 = l.
Proof.
  intros Hwf. destruct (rows_spec p Hwf) as (ks & E & _).
  unfold keys, __iter__, __len__, iteritems. monad_unfold. rewrite E. simpl.
  eexists _, _. split; [done|]. split; [done|]. split; [|split; [done|]].
  - by rewrite length_pairs_of_rows.
  - apply items_of_rows_keys.
Qed.

Lemma lookup_capable {V} (s : State V) k :
  wf s → is_Some (lookup_key s k) → is_Some (objs s !! k).
Proof.
  intros Hwf. unfold lookup_key.
  destruct (staging s !! k) as [[k0 v]|] eqn:Hs.
  - by destruct (wf_staged _ Hwf _ _ _ Hs) as [<- ?].
  - destruct (objs s !! k); [eauto|]. by intros [? ?].
Qed.

Lemma elem_of_pairs_of_rows p ks key :
  key ∈ concat ((λ r : N * gmap H W, (r.1 ,.) <$> iterkeys r.2) <$> (row_of p <$> ks))
  ↔ key.1 ∈ ks ∧ key.2 ∈ iterkeys (row_of p key.1).2.
Proof.
  destruct key as [k0 h0]. cbn [fst snd]. induction ks as [|k ks IH].
  - simpl. split; [by intros ?%elem_of_nil|by intros [?%elem_of_nil _]].
  - rewrite !fmap_cons. cbn [concat]. rewrite elem_of_app, IH, elem_of_cons.
    rewrite list_elem_of_fmap. split.
    + intros [(h & [= -> ->] & Hh)|[? ?]]; [|by auto]. auto.
    + intros [[->|?] Hh]; [|by auto]. left. by exists h0.
Qed.

Lemma elem_of_items_of_rows p ks key w :
  (key, w) ∈ concat ((λ r : N * gmap H W,
      (λ hv : H * W, ((r.1, hv.1), hv.2)) <$> dict_items r.2) <$> (row_of p <$> ks))
  ↔ key.1 ∈ ks ∧ (row_of p key.1).2 !! key.2 = Some w.
Proof.
  destruct key as [k0 h0]. cbn [fst snd]. induction ks as [|k ks IH].
  - simpl. split; [by intros ?%elem_of_nil|by intros [?%elem_of_nil _]].
  - rewrite !fmap_cons. cbn [concat]. rewrite elem_of_app, IH, elem_of_cons.
    rewrite list_elem_of_fmap. split.
    + intros [([h w'] & [= -> -> ->] & Hh)|[? ?]]; [|by auto]. simpl in *.
      rewrite dict_items_perm, elem_of_map_to_list in Hh. auto.
    + intros [[->|?] Hh]; [|by auto]. left. exists (h0, w).
      split; [done|]. by rewrite dict_items_perm, elem_of_map_to_list.
Qed.

Lemma NoDup_pairs_of_rows p ks :
  NoDup ks →
  NoDup (concat ((λ r : N * gmap H W, (r.1 ,.) <$> iterkeys r.2) <$> (row_of p <$> ks))).
Proof.
  induction 1 as [|k ks Hk Hnd IH]; [constructor|].
  rewrite !fmap_cons. cbn [concat]. apply NoDup_app. split; [|split; [|done]].
  - apply NoDup_fmap_2; [by intros ?? [=]|]. apply iterkeys_spec.
  - intros key (h & -> & _)%list_elem_of_fmap [Hin _]%elem_of_pairs_of_rows.
    by apply Hk.
Qed.

(** What the iterating methods return, in terms of the pairs held. *)
Lemma pair_keys_lookup p :
  wf (under p) →
  ∃ l items,
    fst (keys p) = Ok l ∧ fst (iteritems p) = Ok items ∧
    fst (__len__ p) = Ok (length l) ∧
    (∀ key, key ∈ l ↔ is_Some (pair_lookup p key)) ∧
    (∀ key w, (key, w) ∈ items ↔ pair_lookup p key = Some w) ∧
    (no_stale (under p) → NoDup l).
Proof.
  intros Hwf. destruct (rows_spec p Hwf) as (ks & E & Hin & Hnd).
  unfold keys, __len__, iteritems. monad_unfold. rewrite E. simpl.
  eexists _, _. split; [done|]. split; [done|].
  split; [by rewrite length_pairs_of_rows|]. split; [|split].
  - intros [k h]. rewrite elem_of_pairs_of_rows, Hin. simpl.
    unfold pair_lookup, row_of. simpl. rewrite (proj2 (iterkeys_spec _)).
    destruct (lookup_key (under p) k) as [d|]; simpl.
    + split; [by intros [_ ?]|eauto].
    + split; [by intros [[? ?] _]|by intros [? ?]].
  - intros [k h] w. rewrite elem_of_items_of_rows, Hin. simpl.
    unfold pair_lookup, row_of. simpl.
    destruct (lookup_key (under p) k) as [d|]; simpl.
    + split; [by intros [_ ?]|eauto].
    + split; [by intros [[? ?] _]|done].
  - intros Hns. apply NoDup_pairs_of_rows. auto.
Qed.

(** X17. In a state where the invariant of the pair dictionary holds,
    [keys()] has every pair once; a pair is in the list exactly when
    [(p, h) in P] is true, and [iteritems()] pairs it with the value that
    [P[(p, h)]] returns. *)
Theorem pair_keys_each_pair_once p :
  pair_wf p →
  ∃ l items,
    fst (keys p) = Ok l ∧ NoDup l ∧
    (∀ key, key ∈ l ↔ fst (__contains__ key p) = Ok true) ∧
    fst (iteritems p) = Ok items ∧
    (∀ key w, (key, w) ∈ items ↔ fst (__getitem__ key p) = Ok w).
Proof.
  intros [Hwf Hns _ _].
  destruct (pair_keys_lookup p Hwf) as (l & items & Ek & Ei & _ & Hl & Hit & Hnd).
  exists l, items. split; [done|]. split; [auto|]. split; [|split; [done|]].
  - intros key. rewrite Hl, pair_contains_result.
    destruct (objs (under p) !! key.1) as [oid|] eqn:Hk.
    + split; [intros ?; by rewrite bool_decide_eq_true_2|].
      intros [= Hb]. by apply bool_decide_eq_true in Hb.
    + split; [|done]. intros [w Hw]. unfold pair_lookup in Hw.
      destruct (lookup_key (under p) key.1) as [d|] eqn:Hd; [|done].
      destruct (lookup_capable (under p) key.1 Hwf) as [? ?]; [eauto|congruence].
  - intros key w. rewrite Hit, pair_getitem_result.
    destruct (objs (under p) !! key.1) as [oid|] eqn:Hk.
    + destruct (pair_lookup p key); split; congruence.
    + split; [|done]. intros Hw. unfold pair_lookup in Hw.
      destruct (lookup_key (under p) key.1) as [d|] eqn:Hd; [|done].
      destruct (lookup_capable (under p) key.1 Hwf) as [? ?]; [eauto|congruence].
Qed.

(** X18. In a state where the invariant of the pair dictionary holds,
    [len(P)] counts pairs when one is stored: a store of a pair that is
    not in [P] makes it one more, a store of a pair that is in [P] leaves
    it. *)
Theorem pair_setitem_len key value p :
  pair_wf p → is_Some (objs (under p) !! key.1) →
  ∃ n p', fst (__len__ p) = Ok n ∧
    __setitem__ key value p = (Ok (), p') ∧
    (fst (__contains__ key p) = Ok true → fst (__len__ p') = Ok n) ∧
    (fst (__contains__ key p) = Ok false → fst (__len__ p') = Ok (S n)).
Proof.
  intros Hp Hk.
  destruct (pair_setitem_lookup key value p Hp Hk) as (p' & E & Hp' & Ho & Hl).
  destruct (pair_keys_lookup p (pair_under_wf _ Hp))
    as (l & _ & _ & _ & Elen & Hin & _ & Hnd).
  destruct (pair_keys_lookup p' (pair_under_wf _ Hp'))
    as (l' & _ & _ & _ & Elen' & Hin' & _ & Hnd').
  specialize (Hnd (pair_no_stale _ Hp)). specialize (Hnd' (pair_no_stale _ Hp')).
  exists (length l), p'. split; [done|]. split; [done|].
  rewrite !pair_contains_result. destruct Hk as [oid Hk]. rewrite Hk, Elen'.
  split.
  - intros [= Hb]. apply bool_decide_eq_true in Hb. f_equal.
    apply Permutation_length, NoDup_Permutation; [done|done|].
    intros x. rewrite Hin', Hin, Hl.
    destruct (decide (x = key)) as [->|Hne]; [|done]. split; eauto.
  - intros [= Hb]. apply bool_decide_eq_false in Hb. f_equal.
    change (S (length l)) with (length (key :: l)).
    apply Permutation_length, NoDup_Permutation; [done| |].
    + apply NoDup_cons. split; [by rewrite Hin|done].
    + intros x. rewrite elem_of_cons, Hin', Hin, Hl.
      destruct (decide (x = key)) as [->|Hne]; [split; eauto|].
      split; [auto|]. by intros [?|?].
Qed.

(** X19. In a state where the invariant of the pair dictionary holds,
    a delete of a pair that is in [P] makes [len(P)] one less. *)
Theorem pair_delitem_len key p :
  pair_wf p → fst (__contains__ key p) = Ok true →
  ∃ n p', __delitem__ key p = (Ok (), p') ∧
    fst (__len__ p') = Ok n ∧ fst (__len__ p) = Ok (S n).
Proof.
  intros Hp Hc. rewrite pair_contains_result in Hc.
  destruct (objs (under p) !! key.1) as [oid|] eqn:Hk; [|done].
  injection Hc as Hc. apply bool_decide_eq_true in Hc as [w Hw].
  destruct (pair_delitem_lookup key p w) as (p' & E & Hp' & Ho & Hl); [done|eauto|done|].
  destruct (pair_keys_lookup p (pair_under_wf _ Hp))
    as (l & _ & _ & _ & Elen & Hin & _ & Hnd).
  destruct (pair_keys_lookup p' (pair_under_wf _ Hp'))
    as (l' & _ & _ & _ & Elen' & Hin' & _ & Hnd').
  specialize (Hnd (pair_no_stale _ Hp)). specialize (Hnd' (pair_no_stale _ Hp')).
  exists (length l'), p'. split; [done|]. split; [done|].
  rewrite Elen. f_equal. change (S (length l')) with (length (key :: l')).
  apply Permutation_length, NoDup_Permutation; [done| |].
  - apply NoDup_cons. split; [|done]. rewrite Hin', Hl, decide_True by done.
    by intros [? ?].
  - intros x. rewrite elem_of_cons, Hin', Hin, Hl.
    destruct (decide (x = key)) as [->|Hne]; [split; eauto|].
    split; [auto|]. by intros [?|?].
Qed.

(** *** The reading methods write nothing *)

Lemma same_contents_trans {V} (s1 s2 s3 : State V) :
  same_contents s1 s2 → same_contents s2 s3 → same_contents s1 s3.
Proof.
  intros (? & ? & ? & ? & ?) (? & ? & ? & ? & ?). repeat split; congruence.
Qed.

Lemma same_pair_contents_trans p1 p2 p3 :
  same_pair_contents p1 p2 → same_pair_contents p2 p3 → same_pair_contents p1 p3.
Proof.
  intros [? ?] [? ?]. split; [by eapply same_contents_trans|congruence].
Qed.

Lemma same_pair_contents_refl p : same_pair_contents p p.
Proof. split; [apply same_contents_refl|done]. Qed.

Lemma keeps_bind {A B} (m : M (PairState H W) A) (f : A → M (PairState H W) B) :
  keeps same_pair_contents m → (∀ a, keeps same_pair_contents (f a)) →
  keeps same_pair_contents (m ≫= f).
Proof.
  intros Hm Hf p. specialize (Hm p). unfold mbind, M_bind.
  destruct (m p) as [[a|e] p1]; simpl in *; [|done].
  eapply same_pair_contents_trans; [exact Hm|apply Hf].
Qed.

Lemma keeps_pure {A} (f : PairState H W → A) : keeps same_pair_contents (gets f).
Proof. intros p. apply same_pair_contents_refl. Qed.

Lemma keeps_ret {A} (a : A) :
  keeps same_pair_contents (mret a : M (PairState H W) A).
Proof. intros p. apply same_pair_contents_refl. Qed.

Lemma keeps_on_data {A} (m : M (State N) A) :
  (∀ u, same_contents u (snd (m u))) →
  keeps (S:=PairState H W) same_pair_contents (on_data m).
Proof.
  intros Hm p. unfold on_data. specialize (Hm (under p)).
  destruct (m (under p)) as [r u]. by split.
Qed.

Lemma keeps_comprehension {A B} (f : A → M (PairState H W) B) (l : list A) :
  (∀ a, keeps same_pair_contents (f a)) →
  keeps same_pair_contents (comprehension f l).
Proof.
  intros Hf. induction l as [|a l IH]; [apply keeps_ret|].
  cbn [comprehension]. apply keeps_bind; [done|]. intros b.
  apply keeps_bind; [done|]. intros bs. apply keeps_ret.
Qed.

Lemma getitem_same_contents {V} k (u : State V) :
  same_contents u (snd (PersistentKeysDict.__getitem__ k u)).
Proof.
  rewrite getitem_eq.
  repeat case_match; auto using same_contents_refl, same_contents_touch.
Qed.

Lemma contains_same_contents {V} k (u : State V) :
  same_contents u (snd (PersistentKeysDict.__contains__ k u)).
Proof.
  rewrite contains_eq.
  repeat case_match; auto using same_contents_refl, same_contents_touch.
Qed.

Lemma iter_same_contents {V} (u : State V) :
  same_contents u (snd (PersistentKeysDict.__iter__ u)).
Proof.
  change (PersistentKeysDict.__iter__ u) with (PersistentKeysDict.keys u).
  destruct (keys_state u) as [-> | ->];
    auto using same_contents_refl, same_contents_touch.
Qed.

Lemma keeps_rows : keeps (S:=PairState H W) same_pair_contents rows.
Proof.
  unfold rows. apply keeps_bind.
  - apply keeps_on_data, iter_same_contents.
  - intros ks. apply keeps_comprehension. intros k. apply keeps_bind.
    + apply keeps_on_data, getitem_same_contents.
    + intros d. apply keeps_bind; [apply keeps_pure|]. intros m. apply keeps_ret.
Qed.

(** X20. The reading methods of the pair dictionary write nothing:
    whatever [__getitem__], [__contains__], [keys], [__len__], [__iter__]
    and [iteritems] return or raise, the underlying dictionary and every
    inner dictionary are afterwards what they were. *)
Theorem pair_reads_change_nothing key p :
  same_pair_contents p (snd (__getitem__ key p)) ∧
  same_pair_contents p (snd (__contains__ key p)) ∧
  same_pair_contents p (snd (keys p)) ∧
  same_pair_contents p (snd (__len__ p)) ∧
  same_pair_contents p (snd (__iter__ p)) ∧
  same_pair_contents p (snd (iteritems p)).
Proof.
  destruct key as [k h].
  split; [|split; [|split; [|split; [|split]]]].
  - apply keeps_bind; [apply keeps_on_data, getitem_same_contents|].
    intros d p1. unfold dict_getitem. case_match; apply same_pair_contents_refl.
  - apply keeps_bind; [apply keeps_on_data, contains_same_contents|].
    intros [|]; [|apply keeps_ret].
    apply keeps_bind; [apply keeps_on_data, getitem_same_contents|].
    intros d. apply keeps_pure.
  - apply keeps_bind; [apply keeps_rows|]. intros rs. apply keeps_ret.
  - apply keeps_bind; [apply keeps_rows|]. intros rs. apply keeps_ret.
  - apply keeps_bind; [apply keeps_rows|]. intros rs. apply keeps_ret.
  - apply keeps_bind; [apply keeps_rows|]. intros rs. apply keeps_ret.
Qed.

(** *** Invariant I4 *)

(** X21. The invariant of the pair dictionary is kept by
    [__setitem__], by [__delitem__] and by the flush of the underlying
    dictionary, and while it holds every primary that the underlying
    dictionary iterates over has a pair in [P]. *)
Theorem pair_invariant_kept p :
  pair_wf p →
  (∀ key value p', __setitem__ key value p = (Ok (), p') → pair_wf p') ∧
  (∀ key p', __delitem__ key p = (Ok (), p') → pair_wf p') ∧
  (∀ r p', on_data PersistentKeysDict.__getstate__ p = (Ok r, p') → pair_wf p') ∧
  (∀ ks p1, on_data PersistentKeysDict.__iter__ p = (Ok ks, p1) →
     ∀ k, k ∈ ks → ∃ h w, fst (__getitem__ (k, h) p) = Ok w).
Proof.
  intros Hp. split; [|split; [|split]].
  - intros key value p' E. by destruct (pair_setitem_wf _ _ _ _ Hp E).
  - intros key p' E. by destruct (pair_delitem_wf _ _ _ Hp E).
  - intros r p' E. by eapply pair_getstate_wf.
  - intros ks p1 E k Hk.
    destruct (pair_primaries_nonempty _ _ _ Hp E k Hk) as (d & m & Hl & Hd & Hm).
    destruct (map_choose m Hm) as (h & w & Hw).
    exists h, w. rewrite pair_getitem_result. simpl.
    destruct (lookup_capable (under p) k (pair_under_wf _ Hp)) as [oid ->]; [eauto|].
    unfold pair_lookup, deref. simpl. rewrite Hl. simpl. rewrite Hd. simpl.
    by rewrite Hw.
Qed.

(** X22. In a state where the invariant holds, a delete takes the
    primary out of the underlying dictionary exactly when it deletes the
    primary's last pair: the primary is no longer found in [P._data]
    afterwards if no other pair was stored under it, and is still found
    there if one was. *)
Theorem pair_delitem_last_pair key p :
  pair_wf p → fst (__contains__ key p) = Ok true →
  ∃ p', __delitem__ key p = (Ok (), p') ∧
    ((∀ h, h ≠ key.2 → fst (__contains__ (key.1, h) p) = Ok false) →
       fst (PersistentKeysDict.__contains__ key.1 (under p')) = Ok false) ∧
    (∀ h, h ≠ key.2 → fst (__contains__ (key.1, h) p) = Ok true →
       fst (PersistentKeysDict.__contains__ key.1 (under p')) = Ok true).
Proof.
  destruct key as [k h]. intros Hp Hc. rewrite pair_contains_result in Hc.
  simpl in Hc. destruct (objs (under p) !! k) as [oid|] eqn:Hk; [|done].
  injection Hc as Hc. apply bool_decide_eq_true in Hc as [w Hw].
  destruct (pair_delitem_ok (k, h) p w) as (p' & E & Ho); [simpl; eauto|done|].
  destruct (pair_delitem_wf _ _ _ Hp E) as (Hp' & d & Hl & _ & Hcase & _).
  simpl in Hl, Hcase.
  exists p'. split; [done|]. cbn [fst snd].
  rewrite contains_result, Ho, Hk. split.
  - intros Hothers.
    assert (delete h (deref p d) = ∅) as Hempty.
    { apply map_eq. intros h'. rewrite lookup_empty.
      destruct (decide (h' = h)) as [->|Hne]; [apply lookup_delete_eq|].
      rewrite lookup_delete_ne by done. specialize (Hothers h' Hne).
      rewrite pair_contains_result in Hothers. simpl in Hothers.
      rewrite Hk in Hothers. injection Hothers as Hb.
      apply bool_decide_eq_false in Hb. unfold pair_lookup in Hb. simpl in Hb.
      rewrite Hl in Hb. simpl in Hb. by apply eq_None_not_Some. }
    rewrite decide_True in Hcase by done. rewrite Hcase.
    by rewrite bool_decide_eq_false_2 by (by intros [? ?]).
  - intros h' Hne Hc'. rewrite pair_contains_result in Hc'. simpl in Hc'.
    rewrite Hk in Hc'. injection Hc' as Hb. apply bool_decide_eq_true in Hb.
    unfold pair_lookup in Hb. simpl in Hb. rewrite Hl in Hb. simpl in Hb.
    rewrite decide_False in Hcase.
    + destruct Hcase as [-> _]. by rewrite bool_decide_eq_true_2 by eauto.
    + intros Hempty. destruct Hb as [w' Hw'].
      rewrite <-(lookup_delete_ne _ h h') in Hw' by done.
      by rewrite Hempty, lookup_empty in Hw'.
Qed.
End pair_more.

(** * A secondary that cannot be hashed *)

Section unhashable_secondary.
Context {H W : Type} `{Countable H}.
Implicit Types (p : PairState H W) (value : W).
Import PersistentPairKeysDict.

(** X24. [P[(p, x)] = v] with a secondary [x] that cannot be hashed, under
    a primary that has a [_p_oid] attribute and is not in the container,
    raises [TypeError] after the new inner dictionary has been stored:
    the contents have changed, the primary is in the underlying
    dictionary with an empty inner dictionary, no pair under it is in the
    container, and the invariant of the pair dictionary is lost. *)
Theorem unhashable_store_leaves_empty_dict (k : N) value p :
  fst (on_data (PersistentKeysDict.__contains__ k) p) = Ok false →
  ∃ p', PersistentPairKeysDictAny.__setitem__ (k, Unhashable) value p
          = (Raise TypeError, p') ∧
    ¬ same_pair_contents p p' ∧
    fst (on_data (PersistentKeysDict.__contains__ k) p') = Ok true ∧
    (∃ d, lookup_key (under p') k = Some d ∧ dicts p' !! d = Some ∅) ∧
    (∀ h, fst (__contains__ (k, h) p') = Ok false) ∧
    ¬ pair_wf p'.
Proof.
  intros Hc.
  assert (∃ oid, objs (under p) !! k = Some oid) as [oid Hk].
  { revert Hc. unfold on_data. rewrite contains_eq.
    destruct (objs (under p) !! k); [eauto|done]. }
  assert (lookup_key (under p) k = None) as Hl.
  { revert Hc. erewrite on_data_eq by (apply contains_lookup; eauto).
    cbn [fst]. intros [= Hb]. apply bool_decide_eq_false in Hb.
    destruct (lookup_key (under p) k); [|done]. destruct Hb. eauto. }
  set (d0 := fresh (dom (dicts p))).
  destruct (setitem_present (touch (under p)) k d0 oid) as (u1 & E1 & _); [done|].
  destruct (setitem_lookup_same (touch (under p)) k d0 oid u1)
    as [Hl1 Ho1]; [done|by left|done|].
  change (objs (touch (under p))) with (objs (under p)) in Ho1.
  exists {| under := touch u1; dicts := <[d0 := ∅]> (dicts p) |}.
  assert (lookup_key (touch u1) k = Some d0) as Hl2 by exact Hl1.
  split; [|split; [|split; [|split; [|split]]]].
  - unfold PersistentPairKeysDictAny.__setitem__. unfold mbind at 1, M_bind at 1.
    erewrite on_data_eq by (apply contains_lookup; eauto).
    rewrite Hl, bool_decide_eq_false_2 by (by intros [? ?]). cbn [negb].
    unfold new_dict. unfold mbind at 1 2, M_bind at 1 2.
    unfold mbind at 1, M_bind at 1.
    cbn [under with_under dicts with_dicts]. fold d0.
    erewrite on_data_eq by (cbn [under with_under dicts with_dicts]; exact E1).
    unfold mbind at 1, M_bind at 1.
    erewrite on_data_eq; last first.
    { cbn [under with_under]. apply getitem_lookup. rewrite Ho1. eauto. }
    by rewrite Hl1.
  - by apply new_dict_changes_contents.
  - erewrite on_data_eq; last first.
    { cbn [under]. apply contains_lookup.
      change (objs (touch u1)) with (objs u1). rewrite Ho1. eauto. }
    cbn [fst]. by rewrite Hl2, bool_decide_eq_true_2 by eauto.
  - exists d0. split; [exact Hl2|]. cbn [dicts]. apply lookup_insert_eq.
  - intros h. rewrite pair_contains_result. cbn [under fst].
    change (objs (touch u1)) with (objs u1). rewrite Ho1, Hk.
    f_equal. apply bool_decide_eq_false_2. unfold pair_lookup. cbn [under fst snd].
    rewrite Hl2. simpl. unfold deref. cbn [dicts].
    rewrite lookup_insert_eq. simpl. rewrite lookup_empty. by intros [? ?].
  - intros Hwf. destruct (pair_nonempty _ Hwf k d0 Hl2) as (m & Hm & Hne).
    cbn [dicts] in Hm. rewrite lookup_insert_eq in Hm. by injection Hm as <-.
Qed.
End unhashable_secondary.

(** * Registration with the connection *)

Section registration.
Context {V : Type}.
Implicit Types (s : State V) (key : N) (value : V).
Import PersistentKeysDict.

(** X23. Storing and deleting never register a key: after
    [__setitem__] and after [__delitem__], whatever they return or raise,
    every object has the [_p_oid] it had and the connection is as it was.
    While the container has no connection a store goes to staging and
    leaves the persisted partition alone. *)
Theorem writes_never_register s key value :
  (objs (snd (__setitem__ key value s)) = objs s ∧
   jar (snd (__setitem__ key value s)) = jar s ∧
   _p_jar (snd (__setitem__ key value s)) = _p_jar s) ∧
  (objs (snd (__delitem__ key s)) = objs s ∧
   jar (snd (__delitem__ key s)) = jar s ∧
   _p_jar (snd (__delitem__ key s)) = _p_jar s) ∧
  (_p_jar s = None → is_Some (objs s !! key) →
     fst (__setitem__ key value s) = Ok () ∧
     _data (snd (__setitem__ key value s)) = _data s ∧
     staging (snd (__setitem__ key value s)) = <[key := (key, value)]> (staging s)).
Proof.
  rewrite setitem_eq, delitem_eq. split; [|split].
  - by repeat case_match.
  - by repeat case_match.
  - intros Hj [oid Hk]. rewrite Hk, Hj. by rewrite orb_true_r.
Qed.
End registration.

(** * The further properties at concrete states *)

Section more_instances.
Import PersistentKeysDict.

Lemma no_stale_same_contents {V} (s s' : State V) :
  same_contents s s' → no_stale s → no_stale s'.
Proof.
  intros (Ho & _ & Hp & _ & Ht) Hns. unfold no_stale.
  rewrite <-Ho, <-Hp, <-Ht. exact Hns.
Qed.

Lemma no_stale_setitem_any {V} (s : State V) key value :
  wf s → no_stale s → no_stale (snd (__setitem__ key value s)).
Proof.
  intros Hwf Hns. destruct (__setitem__ key value s) as [[[]|e] s'] eqn:E.
  - by destruct (setitem_lookup _ _ _ _ Hwf Hns E) as (_ & ? & _).
  - destruct (dict_call_fails_unchanged (DictSet key value) s e s') as [_ Hs].
    { unfold run_dict_call. monad_unfold. by rewrite E. }
    by eapply no_stale_same_contents.
Qed.

Lemma no_stale_two_staged : no_stale two_staged.
Proof.
  assert (two_staged =
    snd (__setitem__ 2%N "y" (snd (__setitem__ 1%N "x" attached_dict_state))))
    as -> by (by vm_compute).
  apply no_stale_setitem_any;
    [apply wf_setitem_any, wf_attach_container, wf_new_state|].
  apply no_stale_setitem_any; [apply wf_attach_container, wf_new_state|].
  by apply no_stale_attach_container.
Qed.

Lemma no_stale_new_set_state : no_stale new_set_state.
Proof. by intros Hj. Qed.

Lemma pair_wf_attached_pair_state : pair_wf attached_pair_state.
Proof.
  pose proof (pair_wf_init (H:=string) (W:=nat) two_objects new_jar) as Hp.
  destruct Hp as [Hwf Hns Hne Hun].
  - intros k oid. unfold two_objects. rewrite !lookup_insert.
    repeat case_decide; by rewrite ?lookup_empty.
  - intros oid k. simpl. by rewrite lookup_empty.
  - intros oid k. simpl. by rewrite lookup_empty.
  - split.
    + by apply wf_attach_container.
    + by apply no_stale_attach_container.
    + exact Hne.
    + exact Hun.
Qed.

Lemma pair_wf_one_pair_state : pair_wf one_pair_state.
Proof.
  unfold one_pair_state.
  destruct (PersistentPairKeysDict.__setitem__ (1%N, "a") 5 attached_pair_state)
    as [[[]|e] p'] eqn:E; [|by vm_compute in E].
  by destruct (pair_setitem_wf _ _ _ _ pair_wf_attached_pair_state E).
Qed.

Lemma pair_wf_two_pairs_state : pair_wf two_pairs_state.
Proof.
  unfold two_pairs_state.
  destruct (PersistentPairKeysDict.__setitem__ (1%N, "b") 7 one_pair_state)
    as [[[]|e] p'] eqn:E; [|by vm_compute in E].
  by destruct (pair_setitem_wf _ _ _ _ pair_wf_one_pair_state E).
Qed.

Lemma contains_iff_getitem_witness :
  is_Some (objs two_staged !! 1%N) ∧
  fst (__contains__ 1%N two_staged) = Ok true ∧
  ∃ v, fst (__getitem__ 1%N two_staged) = Ok v.
Proof.
  assert (is_Some (objs two_staged !! 1%N)) as Hk by (by eexists).
  split; [exact Hk|]. split; [reflexivity|].
  apply (proj1 (proj1 (contains_iff_getitem two_staged 1%N Hk))). reflexivity.
Defined.

Lemma len_is_length_of_keys_witness :
  wf two_staged ∧
  ∃ l, fst (keys (order:=slot_order) two_staged) = Ok l ∧
       fst (__len__ two_staged) = Ok (length l).
Proof.
  split; [exact wf_two_staged|].
  destruct (len_is_length_of_keys (order:=slot_order) two_staged wf_two_staged)
    as (l & E & _ & El).
  exists l. auto.
Defined.

Lemma keys_each_key_once_witness :
  wf two_staged ∧ no_stale two_staged ∧
  ∃ l, fst (keys (order:=slot_order) two_staged) = Ok l ∧ NoDup l ∧
       (1%N ∈ l ↔ fst (__contains__ 1%N two_staged) = Ok true).
Proof.
  split; [exact wf_two_staged|]. split; [exact no_stale_two_staged|].
  destruct (keys_each_key_once (order:=slot_order) two_staged
              wf_two_staged no_stale_two_staged) as (l & E & Hnd & Hin).
  exists l. auto.
Defined.

Lemma setitem_sets_one_key_witness :
  wf two_staged ∧ no_stale two_staged ∧ is_Some (objs two_staged !! 1%N) ∧
  ∃ s', __setitem__ 1%N "z" two_staged = (Ok (), s') ∧
        fst (__getitem__ 1%N s') = Ok "z" ∧
        fst (__getitem__ 2%N s') = fst (__getitem__ 2%N two_staged) ∧
        fst (__len__ s') = fst (__len__ two_staged).
Proof.
  assert (is_Some (objs two_staged !! 1%N)) as Hk by (by eexists).
  split; [exact wf_two_staged|]. split; [exact no_stale_two_staged|].
  split; [exact Hk|].
  destruct (setitem_sets_one_key two_staged 1%N "z"
              wf_two_staged no_stale_two_staged Hk)
    as (s' & E & _ & _ & Hg & Hframe & Hsame & _).
  exists s'. split; [exact E|]. split; [exact Hg|]. split.
  - apply Hframe. discriminate.
  - apply Hsame. reflexivity.
Defined.

Lemma delitem_removes_one_key_witness :
  wf two_staged ∧ no_stale two_staged ∧
  fst (__contains__ 1%N two_staged) = Ok true ∧
  ∃ s', __delitem__ 1%N two_staged = (Ok (), s') ∧
        fst (__contains__ 1%N s') = Ok false ∧
        fst (__getitem__ 2%N s') = fst (__getitem__ 2%N two_staged) ∧
        ∃ n, fst (__len__ s') = Ok n ∧ fst (__len__ two_staged) = Ok (S n).
Proof.
  split; [exact wf_two_staged|]. split; [exact no_stale_two_staged|].
  split; [reflexivity|].
  destruct (delitem_removes_one_key two_staged 1%N
              wf_two_staged no_stale_two_staged eq_refl)
    as (s' & E & _ & _ & Hc & _ & Hframe & Hlen).
  exists s'. split; [exact E|]. split; [exact Hc|]. split; [|exact Hlen].
  apply Hframe. discriminate.
Defined.

Lemma getstate_keeps_values_witness :
  wf two_staged ∧ no_stale two_staged ∧ _p_jar two_staged ≠ None ∧
  ∃ snapshot s', __getstate__ (order:=slot_order) two_staged = (Ok snapshot, s') ∧
    fst (__getitem__ 1%N s') = fst (__getitem__ 1%N two_staged) ∧
    fst (__len__ s') = fst (__len__ two_staged) ∧
    __getstate__ (order:=slot_order) s' = (Ok snapshot, s').
Proof.
  split; [exact wf_two_staged|]. split; [exact no_stale_two_staged|].
  split; [discriminate|].
  destruct (getstate_keeps_values (order:=slot_order) two_staged
              wf_two_staged no_stale_two_staged)
    as (snapshot & s' & E & Hg & Hl & E'); [discriminate|].
  exists snapshot, s'. auto.
Defined.

Lemma getstate_snapshot_complete_witness :
  wf two_staged ∧
  fst (__getitem__ 1%N two_staged) = Ok "x" ∧
  ∃ snapshot s' o,
    __getstate__ (order:=slot_order) two_staged = (Ok snapshot, s') ∧
    objs s' !! 1%N = Some (Some o) ∧ snapshot !! Some o = Some "x".
Proof.
  split; [exact wf_two_staged|]. split; [reflexivity|].
  destruct (__getstate__ (order:=slot_order) two_staged) as [[snapshot|e] s'] eqn:E;
    [|by vm_compute in E].
  destruct (getstate_snapshot_complete (order:=slot_order)
              two_staged snapshot s' 1%N "x" wf_two_staged E eq_refl)
    as (o & Ho & _ & Hs).
  exists snapshot, s', o. auto.
Defined.

Lemma add_then_member_witness :
  wf new_set_state ∧ is_Some (objs new_set_state !! 1%N) ∧
  ∃ s1, PersistentKeysSet.add 1%N new_set_state = (Ok (), s1) ∧
        fst (__contains__ 1%N s1) = Ok true ∧
        ∃ l, fst (PersistentKeysSet.__iter__ (order:=slot_order) s1) = Ok l ∧ 1%N ∈ l.
Proof.
  assert (is_Some (objs new_set_state !! 1%N)) as Hk by (by eexists).
  split; [exact wf_new_state|]. split; [exact Hk|].
  destruct (add_then_member (order:=slot_order) new_set_state 1%N wf_new_state Hk)
    as (s1 & E & _ & Hc & Hl).
  exists s1. auto.
Defined.

Lemma add_remove_restores_witness :
  wf new_set_state ∧ no_stale new_set_state ∧
  fst (__contains__ 1%N new_set_state) = Ok false ∧
  ∃ s2, (PersistentKeysSet.add 1%N ;; PersistentKeysSet.remove 1%N) new_set_state
          = (Ok (), s2) ∧
        fst (PersistentKeysSet.__len__ s2) = fst (PersistentKeysSet.__len__ new_set_state) ∧
        fst (PersistentKeysSet.remove 1%N s2) = Raise KeyError.
Proof.
  split; [exact wf_new_state|]. split; [exact no_stale_new_set_state|].
  split; [reflexivity|].
  destruct (add_remove_restores new_set_state 1%N
              wf_new_state no_stale_new_set_state eq_refl)
    as (s2 & E & _ & Hl & Hr).
  exists s2. auto.
Defined.

Lemma writes_never_register_witness :
  _p_jar new_dict_state = None ∧ is_Some (objs new_dict_state !! 1%N) ∧
  fst (__setitem__ 1%N "x" new_dict_state) = Ok () ∧
  _data (snd (__setitem__ 1%N "x" new_dict_state)) = _data new_dict_state ∧
  jar (snd (__setitem__ 1%N "x" new_dict_state)) = jar new_dict_state.
Proof.
  assert (is_Some (objs new_dict_state !! 1%N)) as Hk by (by eexists).
  split; [reflexivity|]. split; [exact Hk|].
  destruct (writes_never_register new_dict_state 1%N "x")
    as ((_ & Hj & _) & _ & Hstaged).
  destruct (Hstaged eq_refl Hk) as (Hok & Hd & _). auto.
Defined.

Lemma pair_setitem_getitem_witness :
  is_Some (objs (under attached_pair_state) !! 1%N) ∧
  ∃ p', PersistentPairKeysDict.__setitem__ (1%N, "a") 5 attached_pair_state = (Ok (), p') ∧
        fst (PersistentPairKeysDict.__getitem__ (1%N, "a") p') = Ok 5.
Proof.
  assert (is_Some (objs (under attached_pair_state) !! 1%N)) as Hk by (by eexists).
  split; [exact Hk|].
  destruct (pair_setitem_getitem (1%N, "a") 5 attached_pair_state Hk)
    as (p' & E & Hg & _).
  exists p'. auto.
Defined.

Lemma pair_contains_iff_getitem_witness :
  is_Some (objs (under one_pair_state) !! 1%N) ∧
  fst (PersistentPairKeysDict.__contains__ (1%N, "a") one_pair_state) = Ok true ∧
  (∃ w, fst (PersistentPairKeysDict.__getitem__ (1%N, "a") one_pair_state) = Ok w) ∧
  objs (under one_pair_state) !! 3%N = None ∧
  fst (PersistentPairKeysDict.__contains__ (3%N, "a") one_pair_state) = Raise TypeError.
Proof.
  assert (is_Some (objs (under one_pair_state) !! 1%N)) as Hk by (by eexists).
  split; [exact Hk|]. split; [reflexivity|]. split.
  - apply (proj1 (proj1 (proj1 (pair_contains_iff_getitem (1%N, "a") one_pair_state) Hk))).
    reflexivity.
  - split; [reflexivity|].
    apply (proj2 (pair_contains_iff_getitem (3%N, "a") one_pair_state)). reflexivity.
Defined.

Lemma pair_setitem_sets_one_pair_witness :
  pair_wf one_pair_state ∧ is_Some (objs (under one_pair_state) !! 1%N) ∧
  ∃ p', PersistentPairKeysDict.__setitem__ (1%N, "b") 7 one_pair_state = (Ok (), p') ∧
        fst (PersistentPairKeysDict.__getitem__ (1%N, "b") p') = Ok 7 ∧
        fst (PersistentPairKeysDict.__getitem__ (1%N, "a") p')
          = fst (PersistentPairKeysDict.__getitem__ (1%N, "a") one_pair_state).
Proof.
  assert (is_Some (objs (under one_pair_state) !! 1%N)) as Hk by (by eexists).
  split; [exact pair_wf_one_pair_state|]. split; [exact Hk|].
  destruct (pair_setitem_sets_one_pair (1%N, "b") 7 one_pair_state
              pair_wf_one_pair_state Hk) as (p' & E & _ & Hg & Hframe).
  exists p'. split; [exact E|]. split; [exact Hg|]. apply Hframe. discriminate.
Defined.

Lemma pair_delitem_removes_one_pair_witness :
  pair_wf two_pairs_state ∧
  fst (PersistentPairKeysDict.__contains__ (1%N, "a") two_pairs_state) = Ok true ∧
  ∃ p', PersistentPairKeysDict.__delitem__ (1%N, "a") two_pairs_state = (Ok (), p') ∧
        fst (PersistentPairKeysDict.__contains__ (1%N, "a") p') = Ok false ∧
        fst (PersistentPairKeysDict.__getitem__ (1%N, "b") p')
          = fst (PersistentPairKeysDict.__getitem__ (1%N, "b") two_pairs_state).
Proof.
  split; [exact pair_wf_two_pairs_state|]. split; [reflexivity|].
  destruct (pair_delitem_removes_one_pair (1%N, "a") two_pairs_state
              pair_wf_two_pairs_state eq_refl) as (p' & E & _ & Hc & _ & Hframe).
  exists p'. split; [exact E|]. split; [exact Hc|]. apply Hframe. discriminate.
Defined.

Lemma pair_keys_len_items_agree_witness :
  wf (under two_pairs_state) ∧
  ∃ l items,
    fst (PersistentPairKeysDict.keys (order:=slot_order) two_pairs_state) = Ok l ∧
    fst (PersistentPairKeysDict.__len__ (order:=slot_order) two_pairs_state)
      = Ok (length l) ∧
    fst (PersistentPairKeysDict.iteritems (order:=slot_order) two_pairs_state)
      = Ok items ∧
    items.*1 = l.
Proof.
  split; [exact (pair_under_wf _ pair_wf_two_pairs_state)|].
  destruct (pair_keys_len_items_agree (order:=slot_order) two_pairs_state
              (pair_under_wf _ pair_wf_two_pairs_state))
    as (l & items & Ek & _ & El & Ei & Hi).
  exists l, items. auto.
Defined.

Lemma pair_keys_each_pair_once_witness :
  pair_wf two_pairs_state ∧
  ∃ l, fst (PersistentPairKeysDict.keys (order:=slot_order) two_pairs_state) = Ok l ∧
       NoDup l ∧ (1%N, "a") ∈ l ∧ (1%N, "b") ∈ l.
Proof.
  split; [exact pair_wf_two_pairs_state|].
  destruct (pair_keys_each_pair_once (order:=slot_order) two_pairs_state
              pair_wf_two_pairs_state) as (l & items & Ek & Hnd & Hin & _).
  exists l. split; [exact Ek|]. split; [exact Hnd|].
  split; apply Hin; reflexivity.
Defined.

Lemma pair_setitem_len_witness :
  pair_wf one_pair_state ∧ is_Some (objs (under one_pair_state) !! 1%N) ∧
  fst (PersistentPairKeysDict.__contains__ (1%N, "b") one_pair_state) = Ok false ∧
  ∃ n p', fst (PersistentPairKeysDict.__len__ (order:=slot_order) one_pair_state) = Ok n ∧
          PersistentPairKeysDict.__setitem__ (1%N, "b") 7 one_pair_state = (Ok (), p') ∧
          fst (PersistentPairKeysDict.__len__ (order:=slot_order) p') = Ok (S n).
Proof.
  assert (is_Some (objs (under one_pair_state) !! 1%N)) as Hk by (by eexists).
  split; [exact pair_wf_one_pair_state|]. split; [exact Hk|]. split; [reflexivity|].
  destruct (pair_setitem_len (order:=slot_order) (1%N, "b") 7 one_pair_state
              pair_wf_one_pair_state Hk) as (n & p' & En & E & _ & Hnew).
  exists n, p'. split; [exact En|]. split; [exact E|]. apply Hnew. reflexivity.
Defined.

Lemma pair_delitem_len_witness :
  pair_wf two_pairs_state ∧
  fst (PersistentPairKeysDict.__contains__ (1%N, "a") two_pairs_state) = Ok true ∧
  ∃ n p', PersistentPairKeysDict.__delitem__ (1%N, "a") two_pairs_state = (Ok (), p') ∧
          fst (PersistentPairKeysDict.__len__ (order:=slot_order) p') = Ok n ∧
          fst (PersistentPairKeysDict.__len__ (order:=slot_order) two_pairs_state)
            = Ok (S n).
Proof.
  split; [exact pair_wf_two_pairs_state|]. split; [reflexivity|].
  exact (pair_delitem_len (order:=slot_order) (1%N, "a") two_pairs_state
           pair_wf_two_pairs_state eq_refl).
Defined.

Lemma pair_invariant_kept_witness :
  pair_wf one_pair_state ∧
  pair_wf (snd (PersistentPairKeysDict.__delitem__ (1%N, "a") one_pair_state)).
Proof.
  split; [exact pair_wf_one_pair_state|].
  destruct (PersistentPairKeysDict.__delitem__ (1%N, "a") one_pair_state)
    as [[[]|e] p'] eqn:E; [|by vm_compute in E].
  exact (proj1 (proj2 (pair_invariant_kept (order:=slot_order) one_pair_state
                         pair_wf_one_pair_state)) (1%N, "a") p' E).
Defined.

Lemma pair_delitem_last_pair_witness :
  pair_wf one_pair_state ∧
  fst (PersistentPairKeysDict.__contains__ (1%N, "a") one_pair_state) = Ok true ∧
  ∃ p', PersistentPairKeysDict.__delitem__ (1%N, "a") one_pair_state = (Ok (), p') ∧
        fst (__contains__ 1%N (under p')) = Ok false.
Proof.
  split; [exact pair_wf_one_pair_state|]. split; [reflexivity|].
  destruct (pair_delitem_last_pair (1%N, "a") one_pair_state
              pair_wf_one_pair_state eq_refl) as (p' & E & Hlast & _).
  exists p'. split; [exact E|]. apply Hlast.
  intros h Hne. simpl in Hne.
  rewrite pair_contains_result. simpl.
  assert (objs (under one_pair_state) !! 1%N = Some None) as -> by (by vm_compute).
  f_equal. apply bool_decide_eq_false. intros [w Hw].
  unfold pair_lookup in Hw. simpl in Hw.
  assert (lookup_key (under one_pair_state) 1%N = Some 0%N) as Hl by (by vm_compute).
  rewrite Hl in Hw. simpl in Hw.
  assert (PersistentPairKeysDict.deref one_pair_state 0%N = {[ "a" := 5 ]}) as Hd
    by (by vm_compute).
  rewrite Hd in Hw. apply lookup_singleton_Some in Hw as [? _]. congruence.
Defined.
Lemma unhashable_store_leaves_empty_dict_witness :
  fst (PersistentPairKeysDict.on_data (PersistentKeysDict.__contains__ 2%N)
         one_pair_state) = Ok false ∧
  ∃ p', PersistentPairKeysDictAny.__setitem__ (2%N, Unhashable) 9 one_pair_state
          = (Raise TypeError, p') ∧
    fst (PersistentPairKeysDict.on_data (PersistentKeysDict.__contains__ 2%N) p')
      = Ok true ∧
    ¬ pair_wf p'.
Proof.
  assert (fst (PersistentPairKeysDict.on_data (PersistentKeysDict.__contains__ 2%N)
                 one_pair_state) = Ok false) as Hc by (by vm_compute).
  split; [exact Hc|].
  destruct (unhashable_store_leaves_empty_dict 2%N 9 one_pair_state Hc)
    as (p' & E & _ & Hin & _ & _ & Hwf).
  exists p'. auto.
Defined.
End more_instances.
